(** * Medication reminder: due dates, D-day and notification de-duplication

    A shallow embedding of [medication_reminder_app.py] and of the parts of
    Python's [datetime] and [sqlite3] it relies on, followed by the
    properties of the due-date computation, of the notification job
    [check_and_notify], of [add_customer] and of [migrate_db]. *)

From Stdlib Require Import ZArith List String Ascii Bool Lia.
Import ListNotations.
Local Open Scope string_scope.
Local Open Scope list_scope.
Local Open Scope Z_scope.

(** ** Python exceptions and results *)

Inductive exn : Type :=
| ValueError
| TypeError
| OverflowError
| BadRequestKeyError
| OperationalError (msg : string).

Inductive result (A : Type) : Type :=
| Ok (a : A)
| Raise (e : exn).
Arguments Ok {A} a.
Arguments Raise {A} e.

Definition rbind {A B} (r : result A) (k : A -> result B) : result B :=
  match r with
  | Ok a => k a
  | Raise e => Raise e
  end.

(** ** Python's [datetime]: [date], [timedelta], [strptime], [isoformat] *)

Module Datetime.

Record date : Type := mkdate { year : Z; month : Z; day : Z }.

Definition MINYEAR : Z := 1.
Definition MAXYEAR : Z := 9999.
Definition MAXORDINAL : Z := 3652059.

Definition is_leap (y : Z) : bool :=
  (y mod 4 =? 0) && (negb (y mod 100 =? 0) || (y mod 400 =? 0)).

(* _DAYS_IN_MONTH, indexed 1..12 *)
Definition DAYS_IN_MONTH (m : Z) : Z :=
  match m with
  | 1 => 31 | 2 => 28 | 3 => 31 | 4 => 30 | 5 => 31 | 6 => 30
  | 7 => 31 | 8 => 31 | 9 => 30 | 10 => 31 | 11 => 30 | 12 => 31
  | _ => -1
  end.

(* _DAYS_BEFORE_MONTH, indexed 1..12 *)
Definition DAYS_BEFORE_MONTH (m : Z) : Z :=
  match m with
  | 1 => 0 | 2 => 31 | 3 => 59 | 4 => 90 | 5 => 120 | 6 => 151
  | 7 => 181 | 8 => 212 | 9 => 243 | 10 => 273 | 11 => 304 | 12 => 334
  | _ => -1
  end.

Definition days_before_year (y : Z) : Z :=
  let y' := y - 1 in y' * 365 + y' / 4 - y' / 100 + y' / 400.

Definition days_in_month (y m : Z) : Z :=
  if (m =? 2) && is_leap y then 29 else DAYS_IN_MONTH m.

Definition days_before_month (y m : Z) : Z :=
  DAYS_BEFORE_MONTH m + (if (2 <? m) && is_leap y then 1 else 0).

Definition ymd2ord (y m d : Z) : Z :=
  days_before_year y + days_before_month y m + d.

Definition DI400Y : Z := 146097.
Definition DI100Y : Z := 36524.
Definition DI4Y : Z := 1461.

(* The month and day of the [n]-th day (from 0) of a year: the tail of
   _ord2ymd, from [month = (n + 50) >> 5] on. *)
Definition month_day (leapyear : bool) (n : Z) : Z * Z :=
  let m := Z.shiftr (n + 50) 5 in
  let preceding :=
    DAYS_BEFORE_MONTH m + (if (2 <? m) && leapyear then 1 else 0) in
  if n <? preceding then
    let m' := m - 1 in
    let preceding' :=
      preceding
      - (DAYS_IN_MONTH m' + (if (m' =? 2) && leapyear then 1 else 0)) in
    (m', n - preceding' + 1)
  else (m, n - preceding + 1).

(* _ord2ymd *)
Definition ord2ymd (n0 : Z) : Z * Z * Z :=
  let n := n0 - 1 in
  let n400 := n / DI400Y in
  let n := n mod DI400Y in
  let y := n400 * 400 + 1 in
  let n100 := n / DI100Y in
  let n := n mod DI100Y in
  let n4 := n / DI4Y in
  let n := n mod DI4Y in
  let n1 := n / 365 in
  let n := n mod 365 in
  let y := y + n100 * 100 + n4 * 4 + n1 in
  if (n1 =? 4) || (n100 =? 4) then (y - 1, 12, 31)
  else
    let leapyear := (n1 =? 3) && (negb (n4 =? 24) || (n100 =? 3)) in
    let '(m, d) := month_day leapyear n in
    (y, m, d).

(** The check made by the [date] constructor. *)
Definition valid_ymd (y m d : Z) : bool :=
  (MINYEAR <=? y) && (y <=? MAXYEAR) && (1 <=? m) && (m <=? 12)
  && (1 <=? d) && (d <=? days_in_month y m).

Definition valid_date (d : date) : bool :=
  valid_ymd (year d) (month d) (day d).

Definition toordinal (d : date) : Z := ymd2ord (year d) (month d) (day d).

Definition fromordinal (n : Z) : date :=
  let '(y, m, d) := ord2ymd n in mkdate y m d.

(* the order of dates: (year, month, day) compared in turn *)
Definition date_compare (a b : date) : comparison :=
  match year a ?= year b with
  | Eq =>
      match month a ?= month b with
      | Eq => day a ?= day b
      | c => c
      end
  | c => c
  end.

(** [timedelta]: only whole days occur in the program. *)
Record timedelta : Type := mktimedelta { days : Z }.

Definition MAX_DELTA_DAYS : Z := 999999999.

(* timedelta(days=n): OverflowError beyond +-999999999 days *)
Definition timedelta_days (n : Z) : result timedelta :=
  if (- MAX_DELTA_DAYS <=? n) && (n <=? MAX_DELTA_DAYS)
  then Ok (mktimedelta n) else Raise OverflowError.

(* timedelta(weeks=w) *)
Definition timedelta_weeks (w : Z) : result timedelta :=
  timedelta_days (7 * w).

(* date.__add__(timedelta) *)
Definition date_add (d : date) (t : timedelta) : result date :=
  let o := toordinal d + days t in
  if (0 <? o) && (o <=? MAXORDINAL) then Ok (fromordinal o)
  else Raise OverflowError.

(* date.__sub__(timedelta) *)
Definition date_sub_delta (d : date) (t : timedelta) : result date :=
  rbind (timedelta_days (- days t)) (date_add d).

(* date.__sub__(date) *)
Definition date_sub (d1 d2 : date) : result timedelta :=
  timedelta_days (toordinal d1 - toordinal d2).

End Datetime.

(** ** Python text: [str(int)], [%0Nd], [int(str)], [strptime], [isoformat]

    Strings are byte strings; only ASCII digits and ASCII white space are
    recognised by the parsers below. *)

Module PyText.
Import Datetime.

Definition digit_char (d : Z) : ascii :=
  ascii_of_N (Z.to_N (48 + d)).

Definition is_digit (c : ascii) : bool :=
  let n := Z.of_N (N_of_ascii c) in (48 <=? n) && (n <=? 57).

Definition digit_val (c : ascii) : Z := Z.of_N (N_of_ascii c) - 48.

(* the decimal digits of a non-negative [n], most significant first,
   in front of [acc] *)
Fixpoint digits_acc (fuel : nat) (n : Z) (acc : string) : string :=
  let acc' := String (digit_char (n mod 10)) acc in
  match fuel with
  | O => acc'
  | S f => if n <? 10 then acc' else digits_acc f (n / 10) acc'
  end.

Definition str_of_nonneg (n : Z) : string :=
  digits_acc (Z.to_nat (Z.log2 n)) n "".

(* str(n) for an int *)
Definition str_of_int (n : Z) : string :=
  if n <? 0 then String "-" (str_of_nonneg (- n)) else str_of_nonneg n.

Fixpoint zeros (k : nat) : string :=
  match k with
  | O => ""
  | S k' => String "0" (zeros k')
  end.

(* "%0<width>d" % n *)
Definition fmt_0d (width : nat) (n : Z) : string :=
  if n <? 0 then
    let s := str_of_nonneg (- n) in
    String "-" (zeros (width - 1 - String.length s) ++ s)%string
  else
    let s := str_of_nonneg n in
    (zeros (width - String.length s) ++ s)%string.

(* date.isoformat(): "%04d-%02d-%02d" % (year, month, day) *)
Definition isoformat (d : date) : string :=
  (fmt_0d 4 (year d) ++ "-" ++ fmt_0d 2 (month d) ++ "-"
   ++ fmt_0d 2 (day d))%string.

(* the value of a run of digit characters *)
Fixpoint digits_val (acc : Z) (s : string) : Z :=
  match s with
  | EmptyString => acc
  | String c s' => digits_val (10 * acc + digit_val c) s'
  end.

(* str.isspace on ASCII: \t \n \v \f \r, \x1c..\x1f and the space *)
Definition is_space (c : ascii) : bool :=
  let n := Z.of_N (N_of_ascii c) in
  ((9 <=? n) && (n <=? 13)) || ((28 <=? n) && (n <=? 32)).

Fixpoint lstrip (s : string) : string :=
  match s with
  | String c s' => if is_space c then lstrip s' else s
  | EmptyString => s
  end.

(* the string without its trailing white space *)
Fixpoint rstrip (s : string) : string :=
  match s with
  | EmptyString => EmptyString
  | String c s' =>
      match rstrip s' with
      | EmptyString => if is_space c then EmptyString else String c EmptyString
      | r => String c r
      end
  end.

(* digits of an int literal: digit ( ["_"] digit )*; [prev_digit] tells
   whether the preceding character was a digit *)
Fixpoint int_digits (prev_digit : bool) (acc : Z) (s : string) : option Z :=
  match s with
  | EmptyString => if prev_digit then Some acc else None
  | String c s' =>
      if is_digit c then int_digits true (10 * acc + digit_val c) s'
      else if Ascii.eqb c "_" then
        if prev_digit then int_digits false acc s' else None
      else None
  end.

(* int(s) for a str, base 10 *)
Definition int_of_str (s : string) : result Z :=
  let t := rstrip (lstrip s) in
  let '(neg, body) :=
    match t with
    | String "-" r => (true, r)
    | String "+" r => (false, r)
    | _ => (false, t)
    end in
  match int_digits false 0 body with
  | Some n => Ok (if neg then - n else n)
  | None => Raise ValueError
  end.

(** [strptime(s, "%Y-%m-%d")]. The format compiles to the regular
    expression
    [(?P<Y>\d\d\d\d)-(?P<m>1[0-2]|0[1-9]|[1-9])-(?P<d>3[0-1]|[1-2]\d|0[1-9]|[1-9]| [1-9])],
    matched at the start of the text; text left over after the match is
    an error, and so is a (year, month, day) that is not a date. *)

Definition in_range (lo hi : ascii) (c : ascii) : bool :=
  let n := N_of_ascii c in
  (N_of_ascii lo <=? n)%N && (n <=? N_of_ascii hi)%N.

(* (?P<Y>\d\d\d\d) *)
Definition match_Y (s : string) : option (Z * string) :=
  match s with
  | String a (String b (String c (String d r))) =>
      if is_digit a && is_digit b && is_digit c && is_digit d
      then Some (digits_val 0 (String a (String b (String c (String d "")))), r)
      else None
  | _ => None
  end.

(* (?P<m>1[0-2]|0[1-9]|[1-9]) *)
Definition match_m (s : string) : option (Z * string) :=
  match s with
  | String a r =>
      let two :=
        match r with
        | String b r' =>
            if (Ascii.eqb a "1" && in_range "0" "2" b)
               || (Ascii.eqb a "0" && in_range "1" "9" b)
            then Some (10 * digit_val a + digit_val b, r')
            else None
        | EmptyString => None
        end in
      match two with
      | Some res => Some res
      | None => if in_range "1" "9" a then Some (digit_val a, r) else None
      end
  | EmptyString => None
  end.

(* (?P<d>3[0-1]|[1-2]\d|0[1-9]|[1-9]| [1-9]) *)
Definition match_d (s : string) : option (Z * string) :=
  match s with
  | String a r =>
      let two :=
        match r with
        | String b r' =>
            if (Ascii.eqb a "3" && in_range "0" "1" b)
               || (in_range "1" "2" a && is_digit b)
               || (Ascii.eqb a "0" && in_range "1" "9" b)
            then Some (10 * digit_val a + digit_val b, r')
            else None
        | EmptyString => None
        end in
      match two with
      | Some res => Some res
      | None =>
          if in_range "1" "9" a then Some (digit_val a, r)
          else
            match r with
            | String b r' =>
                if Ascii.eqb a " " && in_range "1" "9" b
                then Some (digit_val b, r') else None
            | EmptyString => None
            end
      end
  | EmptyString => None
  end.

Definition match_dash (s : string) : option string :=
  match s with
  | String "-" r => Some r
  | _ => None
  end.

Definition strptime_fields (s : string) : option (Z * Z * Z) :=
  match match_Y s with
  | None => None
  | Some (y, s1) =>
      match match_dash s1 with
      | None => None
      | Some s2 =>
          match match_m s2 with
          | None => None
          | Some (m, s3) =>
              match match_dash s3 with
              | None => None
              | Some s4 =>
                  match match_d s4 with
                  | Some (d, EmptyString) => Some (y, m, d)
                  | _ => None
                  end
              end
          end
      end
  end.

(* datetime.strptime(s, "%Y-%m-%d"), read as a date (the time of day is
   midnight) *)
Definition strptime (s : string) : result date :=
  match strptime_fields s with
  | Some (y, m, d) =>
      if valid_ymd y m d then Ok (mkdate y m d) else Raise ValueError
  | None => Raise ValueError
  end.

End PyText.

(** ** The record store ([medication.db])

    The three tables after [init_db] and [migrate_db], each a list of rows
    in rowid order, with the AUTOINCREMENT counter SQLite keeps per table
    in [sqlite_sequence].  Date columns hold the text that was bound to
    them. *)

Record Customer : Type := mkCustomer {
  c_id : Z;
  c_name : string;
  c_contact : string;
  c_start_date : string;
  c_is_active : Z
}.

Record DoseLog : Type := mkDoseLog {
  l_id : Z;
  l_customer_id : Z;
  l_taken_date : string;
  l_taken_week : option Z;      (* INTEGER, NULL allowed *)
  l_note : string;
  l_extra_weeks : Z
}.

Record NotificationLog : Type := mkNotificationLog {
  n_id : Z;
  n_customer_id : Z;
  n_notify_type : string;
  n_notify_date : string;
  n_sent_at : string
}.

Record DB : Type := mkDB {
  Customers : list Customer;
  Customers_seq : Z;
  DoseLogs : list DoseLog;
  DoseLogs_seq : Z;
  NotificationLogs : list NotificationLog;
  NotificationLogs_seq : Z
}.

Module Sqlite.

(* The rowid AUTOINCREMENT gives to a new row: one more than the largest
   rowid the table has ever held. *)
Definition next_rowid (ids : list Z) (seq : Z) : Z :=
  fold_right Z.max seq ids + 1.

(* sqlite3 binds a Python int as a 64-bit INTEGER *)
Definition bind_int (n : Z) : result Z :=
  if (- 2 ^ 63 <=? n) && (n <? 2 ^ 63) then Ok n else Raise OverflowError.

(* insertion of [x] into a list sorted by [cmp], after the rows that are
   not greater: rows with equal keys keep their scan order *)
Fixpoint insert_sorted {A} (cmp : A -> A -> comparison) (x : A) (l : list A)
  : list A :=
  match l with
  | [] => [x]
  | y :: l' =>
      match cmp y x with
      | Gt => x :: y :: l'
      | _ => y :: insert_sorted cmp x l'
      end
  end.

Definition sort_by {A} (cmp : A -> A -> comparison) (l : list A) : list A :=
  fold_left (fun acc x => insert_sorted cmp x acc) l [].

(* ORDER BY <text column> DESC, BINARY collation *)
Definition order_by_text_desc {A} (key : A -> string) (l : list A) : list A :=
  sort_by (fun a b => String.compare (key b) (key a)) l.

(* NOCASE folds the 26 upper case ASCII letters to lower case *)
Definition nocase_fold (c : ascii) : ascii :=
  let n := N_of_ascii c in
  if (65 <=? n)%N && (n <=? 90)%N then ascii_of_N (n + 32) else c.

Fixpoint nocase (s : string) : string :=
  match s with
  | EmptyString => EmptyString
  | String c s' => String (nocase_fold c) (nocase s')
  end.

(* ORDER BY <text column> COLLATE NOCASE ASC *)
Definition order_by_nocase_asc {A} (key : A -> string) (l : list A) : list A :=
  sort_by (fun a b => String.compare (nocase (key a)) (nocase (key b))) l.

(* cursor.fetchone() *)
Definition fetchone {A} (rows : list A) : option A := hd_error rows.

End Sqlite.

(** ** The process environment and the SMTP server *)

Definition environ : Type := string -> option string.

(* os.environ.get(key) *)
Definition environ_get (env : environ) (key : string) : option string :=
  env key.

(* os.environ.get(key, default) *)
Definition environ_get_default (env : environ) (key default : string)
  : string :=
  match env key with
  | Some v => v
  | None => default
  end.

(* What is handed to smtplib inside the [try] of [send_email_smtp]. *)
Record smtp_request : Type := mkRequest {
  smtp_host : string;
  smtp_port : Z;
  smtp_user : string;
  smtp_pass : string;
  from_addr : string;
  to_email : string;
  subject : string;
  body : string
}.

(** The outcome of the [try] block of [send_email_smtp]: [true] when
    connecting, logging in and sending all return, [false] when any of
    them raises.  It may depend on how many calls came before. *)
Definition transport : Type := nat -> smtp_request -> bool.

(** One call of [send_email_smtp] made by [check_and_notify]: the
    milestone it was made for and what it returned. *)
Record send_record : Type := mkSend {
  s_customer_id : Z;
  s_notify_type : string;
  s_notify_date : string;
  s_sent : bool
}.

(** ** Connections and the state of a run

    [with sqlite3.connect(...) as conn] commits when the block returns
    and rolls back to the last commit when it raises. *)

Record state : Type := mkState {
  committed : DB;
  working : DB;
  history : list send_record
}.

Definition M (A : Type) : Type := state -> result A * state.

Definition ret {A} (a : A) : M A := fun s => (Ok a, s).

Definition bind {A B} (m : M A) (k : A -> M B) : M B :=
  fun s =>
    match m s with
    | (Ok a, s') => k a s'
    | (Raise e, s') => (Raise e, s')
    end.

Definition lift {A} (r : result A) : M A := fun s => (r, s).

Definition read {A} (q : DB -> A) : M A := fun s => (Ok (q (working s)), s).

Definition write (f : DB -> DB) : M unit :=
  fun s => (Ok tt, mkState (committed s) (f (working s)) (history s)).

(* conn.commit() *)
Definition commit : M unit :=
  fun s => (Ok tt, mkState (working s) (working s) (history s)).

Definition log_send (r : send_record) : M unit :=
  fun s => (Ok tt, mkState (committed s) (working s) (history s ++ [r])).

Definition sends_so_far : M nat :=
  fun s => (Ok (List.length (history s)), s).

Notation "'let*' x ':=' e 'in' k" := (bind e (fun x => k))
  (at level 10, x name, e at level 100, k at level 200).
Notation "'let*' ' p ':=' e 'in' k" := (bind e (fun p => k))
  (at level 10, p pattern, e at level 100, k at level 200).
Notation "'let?' x ':=' e 'in' k" := (rbind e (fun x => k))
  (at level 10, x name, e at level 100, k at level 200).
Notation "'let?' ' p ':=' e 'in' k" := (rbind e (fun p => k))
  (at level 10, p pattern, e at level 100, k at level 200).

(* for x in l: body(x) *)
Fixpoint for_each {A} (l : list A) (body : A -> M unit) : M unit :=
  match l with
  | [] => ret tt
  | x :: l' => let* _ := body x in for_each l' body
  end.

(* with sqlite3.connect('medication.db') as conn: body *)
Definition with_connection {A} (body : M A) (db : DB)
  (h : list send_record) : result A * DB * list send_record :=
  match body (mkState db db h) with
  | (Ok a, s) => (Ok a, working s, history s)
  | (Raise e, s) => (Raise e, committed s, history s)
  end.

(** ** The application *)

Module App.
Import Datetime PyText Sqlite.

(** What a run reads from the clock: [datetime.today().date()] and
    SQLite's CURRENT_TIMESTAMP. *)
Record clock : Type := mkClock {
  today : date;
  current_timestamp : string
}.

(* Python truth value of an optional str *)
Definition truthy (s : option string) : bool :=
  match s with
  | Some (String _ _) => true
  | _ => false
  end.

(* the str held by an optional str known not to be None *)
Definition str_value (s : option string) : string :=
  match s with
  | Some v => v
  | None => ""
  end.

Definition send_email_smtp (env : environ) (smtp : transport) (calls : nat)
  (to_email subject body : string) : result bool :=
  let smtp_user := environ_get env "EMAIL_USER" in
  let smtp_pass := environ_get env "EMAIL_PASS" in
  let smtp_host := environ_get_default env "EMAIL_HOST" "smtp.gmail.com" in
  let? smtp_port :=
    match environ_get env "EMAIL_PORT" with
    | Some p => int_of_str p
    | None => Ok 465
    end in
  let from_addr :=
    match environ_get env "EMAIL_FROM" with
    | Some v => Some v
    | None => smtp_user
    end in
  if negb (truthy smtp_user) || negb (truthy smtp_pass) then Ok false
  else if negb (truthy (Some to_email)) then Ok false
  else
    (* try: ... return True / except Exception: return False *)
    Ok (smtp calls
          (mkRequest smtp_host smtp_port (str_value smtp_user)
             (str_value smtp_pass) (str_value from_addr)
             to_email subject body)).

Definition notify_days : list Z := [7; 0].

Definition notify_type_of (nd : Z) : string :=
  if negb (nd =? 0) then ("D-" ++ str_of_int nd)%string else "D-0".

(* SELECT id, name, contact, start_date FROM Customers *)
Definition select_customers (db : DB) : list (Z * string * string * string) :=
  map (fun c => (c_id c, c_name c, c_contact c, c_start_date c))
      (Customers db).

(* SELECT taken_date, taken_week FROM DoseLogs WHERE customer_id=?
   ORDER BY taken_date DESC LIMIT 1, then fetchone() *)
Definition last_dose_log (db : DB) (cid : Z) : option (string * option Z) :=
  fetchone
    (map (fun l => (l_taken_date l, l_taken_week l))
       (firstn 1
          (order_by_text_desc l_taken_date
             (filter (fun l => l_customer_id l =? cid) (DoseLogs db))))).

(* SELECT 1 FROM NotificationLogs
   WHERE customer_id=? AND notify_type=? AND notify_date=?,
   then fetchone() *)
Definition already_notified (db : DB) (cid : Z) (notify_type notify_date : string)
  : option Z :=
  fetchone
    (map (fun _ => 1)
       (filter (fun n => (n_customer_id n =? cid)
                         && String.eqb (n_notify_type n) notify_type
                         && String.eqb (n_notify_date n) notify_date)
          (NotificationLogs db))).

(* INSERT INTO NotificationLogs (customer_id, notify_type, notify_date)
   VALUES (?,?,?) *)
Definition insert_notification (cid : Z) (notify_type notify_date : string)
  (now : string) (db : DB) : DB :=
  let id := next_rowid (map n_id (NotificationLogs db))
                       (NotificationLogs_seq db) in
  mkDB (Customers db) (Customers_seq db) (DoseLogs db) (DoseLogs_seq db)
       (NotificationLogs db
          ++ [mkNotificationLog id cid notify_type notify_date now])
       id.

(* int(x) if x else 4, for a taken_week read from the store *)
Definition week_or_default (x : option Z) : Z :=
  match x with
  | Some w => if w =? 0 then 4 else w
  | None => 4
  end.

(* (next_date - today).days *)
Definition d_day_of (next_date today : date) : result Z :=
  let? diff := date_sub next_date today in
  Ok (days diff).

(** The due date and D-day of [check_and_notify], from the row [last]
    of the last dose log and the customer's [start_date]. *)
Definition notify_due (last : option (string * option Z))
  (start_date : string) (today : date) : result (date * Z) :=
  let? '(last_taken, taken_week) :=
    match last with
    | Some (taken_date, tw) =>
        let? last_taken := strptime taken_date in
        Ok (last_taken, week_or_default tw)
    | None =>
        let? last_taken := strptime start_date in
        Ok (last_taken, 4)
    end in
  let? delta := timedelta_weeks taken_week in
  let? next_date := date_add last_taken delta in
  let? d_day := d_day_of next_date today in
  Ok (next_date, d_day).

(** The part of the milestone body after the duplicate check: send the
    mail and, if it was sent, record it. *)
Definition send_and_record (env : environ) (smtp : transport) (now : string)
  (cid : Z) (name : string) (next_date : date) (d_day nd : Z) : M unit :=
  let notify_type := notify_type_of nd in
  let subject :=
    ("[복약 알람] " ++ name ++ "님: 복약 예정일 "
     ++ isoformat next_date)%string in
  let body :=
    ("고객: " ++ name ++ ", 복약 예정일: " ++ isoformat next_date
     ++ ", 현재 상태: D-" ++ str_of_int d_day
     ++ ", 확인 부탁드립니다.")%string in
  let EMAIL_TO :=
    environ_get_default env "NOTIFY_EMAIL" "ljwljw2869@gmail.com" in
  let* calls := sends_so_far in
  let* sent := lift (send_email_smtp env smtp calls EMAIL_TO subject body) in
  let* _ := log_send (mkSend cid notify_type (isoformat next_date) sent) in
  if sent then
    let* _ :=
      write (insert_notification cid notify_type (isoformat next_date) now) in
    commit
  else ret tt.

(** The body of [if d_day == nd:] for one milestone. *)
Definition notify_milestone (env : environ) (smtp : transport) (now : string)
  (cid : Z) (name : string) (next_date : date) (d_day nd : Z) : M unit :=
  let notify_type := notify_type_of nd in
  let* seen :=
    read (fun db => already_notified db cid notify_type (isoformat next_date)) in
  match seen with
  | Some _ => ret tt   (* continue *)
  | None => send_and_record env smtp now cid name next_date d_day nd
  end.

(** [for nd in notify_days: if d_day == nd: ...] *)
Definition notify_milestones (env : environ) (smtp : transport) (now : string)
  (cid : Z) (name : string) (next_date : date) (d_day : Z) : M unit :=
  for_each notify_days
    (fun nd =>
       if d_day =? nd
       then notify_milestone env smtp now cid name next_date d_day nd
       else ret tt).

(** The body of [for cust in customers:]. *)
Definition notify_customer (env : environ) (smtp : transport) (clk : clock)
  (cust : Z * string * string * string) : M unit :=
  let '(cid, name, contact, start_date) := cust in
  let* last := read (fun db => last_dose_log db cid) in
  let* '(next_date, d_day) := lift (notify_due last start_date (today clk)) in
  notify_milestones env smtp (current_timestamp clk) cid name next_date d_day.

Definition check_and_notify_body (env : environ) (smtp : transport)
  (clk : clock) : M unit :=
  let* customers := read select_customers in
  for_each customers (notify_customer env smtp clk).

Definition check_and_notify (env : environ) (smtp : transport) (clk : clock)
  (db : DB) (h : list send_record) : result unit * DB * list send_record :=
  with_connection (check_and_notify_body env smtp clk) db h.

(** *** The evaluation read off the loop

    The milestones whose test [d_day == nd] passes, and those of them
    that no notification record suppresses. *)

Definition due_milestones (d_day : Z) : list Z :=
  filter (fun nd => d_day =? nd) notify_days.

Definition evaluate_notifications (db : DB) (cid : Z) (next_date : date)
  (d_day : Z) : list Z :=
  filter
    (fun nd =>
       match already_notified db cid (notify_type_of nd) (isoformat next_date)
       with
       | Some _ => false
       | None => true
       end)
    (due_milestones d_day).

(* the notification records written for the milestones [nds] *)
Definition record_all (cid : Z) (next_date : date) (now : string)
  (nds : list Z) (db : DB) : DB :=
  fold_left
    (fun acc nd =>
       insert_notification cid (notify_type_of nd) (isoformat next_date) now acc)
    nds db.

(** The (customer, milestone type, due date) triple of a notification
    record and of a call of [send_email_smtp]. *)
Definition triple : Type := Z * string * string.

Definition log_key (n : NotificationLog) : triple :=
  (n_customer_id n, n_notify_type n, n_notify_date n).

Definition send_key (s : send_record) : triple :=
  (s_customer_id s, s_notify_type s, s_notify_date s).

Definition log_keys (db : DB) : list triple :=
  map log_key (NotificationLogs db).

(* the triples of the calls that returned True *)
Definition sent_keys (h : list send_record) : list triple :=
  map send_key (filter s_sent h).

End App.

(** ** The web routes that compute a due date or change the store *)

Module Routes.
Import Datetime PyText Sqlite App.

(* request.form *)
Definition form : Type := string -> option string.

(* request.form[key] *)
Definition form_item (f : form) (key : string) : result string :=
  match f key with
  | Some v => Ok v
  | None => Raise BadRequestKeyError
  end.

(* int(request.form.get(key, default)) *)
Definition form_int_default (f : form) (key : string) (default : Z)
  : result Z :=
  match f key with
  | Some v => int_of_str v
  | None => Ok default
  end.

Record index_entry : Type := mkEntry {
  e_id : Z;
  e_name : string;
  e_phone : string;
  e_start_date : string;
  e_d_day : Z
}.

Inductive response : Type :=
| render_index (customers : list index_entry)
| render_error (message : string)
| render_customer (customer : option Customer) (logs : list DoseLog)
    (next_date alert_date : date) (d_day : Z)
| redirect_index
| redirect_view_customer (customer_id : Z).

(** The due date and D-day of [index], from the row [last_log] of the
    last dose log and the customer's [start_date]. *)
Definition index_due (last_log : option (string * option Z))
  (start_date : string) (today : date) : result (date * Z) :=
  match last_log with
  | Some (taken_date_text, tw) =>
      let? taken_date := strptime taken_date_text in
      let? taken_week :=
        match tw with
        | Some w => Ok w
        | None => Raise TypeError
        end in
      let? delta := timedelta_weeks taken_week in
      let? next_date := date_add taken_date delta in
      let? d_day := d_day_of next_date today in
      Ok (next_date, d_day)
  | None =>
      let? start := strptime start_date in
      let? delta := timedelta_weeks 4 in
      let? next_date := date_add start delta in
      let? d_day := d_day_of next_date today in
      Ok (next_date, d_day)
  end.

(* for customer in customers: ... customer_list.append({...}) *)
Fixpoint index_rows (db : DB) (today : date) (customers : list Customer)
  : result (list index_entry) :=
  match customers with
  | [] => Ok []
  | customer :: rest =>
      let customer_id := c_id customer in
      let last_log := last_dose_log db customer_id in
      let? '(_, d_day) := index_due last_log (c_start_date customer) today in
      let? entries := index_rows db today rest in
      Ok (mkEntry (c_id customer) (c_name customer) (c_contact customer)
                  (c_start_date customer) d_day :: entries)
  end.

Definition index (today : date) (db : DB) : result response :=
  (* SELECT * FROM Customers WHERE is_active=1
     ORDER BY name COLLATE NOCASE ASC *)
  let customers :=
    order_by_nocase_asc c_name
      (filter (fun c => c_is_active c =? 1) (Customers db)) in
  let? customer_list := index_rows db today customers in
  Ok (render_index customer_list).

(** The due date, alert date and D-day of [view_customer], from the
    fetched [customer] and its [logs], newest first. *)
Definition view_due (customer : option Customer) (logs : list DoseLog)
  (today : date) : result (date * date * Z) :=
  let? '(latest, taken_week) :=
    match logs with
    | log0 :: _ =>
        let? latest := strptime (l_taken_date log0) in
        Ok (latest, week_or_default (l_taken_week log0))
    | [] =>
        match customer with
        | Some c =>
            let? latest := strptime (c_start_date c) in
            Ok (latest, 4)
        | None => Raise TypeError
        end
    end in
  let? delta := timedelta_weeks taken_week in
  let? next_date := date_add latest delta in
  let? week := timedelta_days 7 in
  let? alert_date := date_sub_delta next_date week in
  let? d_day := d_day_of next_date today in
  Ok (next_date, alert_date, d_day).

Definition view_customer (today : date) (customer_id : Z) (db : DB)
  : result response :=
  (* SELECT * FROM Customers WHERE id = ? *)
  let customer :=
    fetchone (filter (fun c => c_id c =? customer_id) (Customers db)) in
  (* SELECT id, taken_date, taken_week, note, extra_weeks FROM DoseLogs
     WHERE customer_id = ? ORDER BY taken_date DESC *)
  let logs :=
    order_by_text_desc l_taken_date
      (filter (fun l => l_customer_id l =? customer_id) (DoseLogs db)) in
  let? '(next_date, alert_date, d_day) := view_due customer logs today in
  Ok (render_customer customer logs next_date alert_date d_day).

(* INSERT INTO Customers (name, contact, start_date) VALUES (?, ?, ?);
   the new id is cursor.lastrowid *)
Definition insert_customer (name contact start_date : string) (db : DB)
  : DB * Z :=
  let id := next_rowid (map c_id (Customers db)) (Customers_seq db) in
  (mkDB (Customers db ++ [mkCustomer id name contact start_date 1]) id
        (DoseLogs db) (DoseLogs_seq db)
        (NotificationLogs db) (NotificationLogs_seq db),
   id).

(* INSERT INTO DoseLogs (customer_id, taken_date, taken_week, note)
   VALUES (?, ?, ?, ?) *)
Definition insert_dose_log (customer_id : Z) (taken_date : string)
  (taken_week : Z) (note : string) (db : DB) : DB :=
  let id := next_rowid (map l_id (DoseLogs db)) (DoseLogs_seq db) in
  mkDB (Customers db) (Customers_seq db)
       (DoseLogs db
          ++ [mkDoseLog id customer_id taken_date (Some taken_week) note 0])
       id
       (NotificationLogs db) (NotificationLogs_seq db).

Definition add_customer_body (name contact start_date : string)
  (first_weeks : Z) : M response :=
  (* SELECT id FROM Customers WHERE name = ? *)
  let* existing :=
    read (fun db =>
            fetchone (map c_id
                        (filter (fun c => String.eqb (c_name c) name)
                                (Customers db)))) in
  match existing with
  | Some _ =>
      ret (render_error ("⚠️ '" ++ name ++ "' 고객은 이미 존재합니다!")%string)
  | None =>
      let* customer_id :=
        fun s =>
          let '(db', id) := insert_customer name contact start_date (working s) in
          (Ok id, mkState (committed s) db' (history s)) in
      let* weeks := lift (bind_int first_weeks) in
      let* _ :=
        write (insert_dose_log customer_id start_date weeks "첫 복용") in
      let* _ := commit in
      ret redirect_index
  end.

Definition add_customer (f : form) (db : DB) (h : list send_record)
  : result response * DB * list send_record :=
  match
    (let? name := form_item f "name" in
     let? contact := form_item f "contact" in
     let? start_date := form_item f "start_date" in
     let? first_weeks := form_int_default f "first_weeks" 4 in
     Ok (name, contact, start_date, first_weeks))
  with
  | Ok (name, contact, start_date, first_weeks) =>
      with_connection
        (add_customer_body name contact start_date first_weeks) db h
  | Raise e => (Raise e, db, h)
  end.

Definition add_dose_log (customer_id : Z) (f : form) (db : DB)
  : result response * DB :=
  match
    (let? taken_date := form_item f "taken_date" in
     let? taken_week := form_int_default f "taken_week" 4 in
     let? note := form_item f "note" in
     let? weeks := bind_int taken_week in
     Ok (taken_date, weeks, note))
  with
  | Ok (taken_date, weeks, note) =>
      (Ok (redirect_view_customer customer_id),
       insert_dose_log customer_id taken_date weeks note db)
  | Raise e => (Raise e, db)
  end.

(* DELETE FROM DoseLogs WHERE id=? *)
Definition delete_dose_log (customer_id log_id : Z) (db : DB)
  : result response * DB :=
  (Ok (redirect_view_customer customer_id),
   mkDB (Customers db) (Customers_seq db)
        (filter (fun l => negb (l_id l =? log_id)) (DoseLogs db))
        (DoseLogs_seq db)
        (NotificationLogs db) (NotificationLogs_seq db)).

(* UPDATE DoseLogs SET taken_date=?, taken_week=?, extra_weeks=?, note=?
   WHERE id=? *)
Definition update_dose_log (log_id : Z) (taken_date : string)
  (taken_week extra_weeks : Z) (note : string) (db : DB) : DB :=
  mkDB (Customers db) (Customers_seq db)
       (map (fun l =>
               if l_id l =? log_id
               then mkDoseLog (l_id l) (l_customer_id l) taken_date
                              (Some taken_week) note extra_weeks
               else l)
            (DoseLogs db))
       (DoseLogs_seq db)
       (NotificationLogs db) (NotificationLogs_seq db).

(* the POST branch of edit_dose_log *)
Definition edit_dose_log (customer_id log_id : Z) (f : form) (db : DB)
  : result response * DB :=
  match
    (let? taken_date := form_item f "taken_date" in
     let? taken_week := rbind (form_item f "taken_week") int_of_str in
     let? extra_weeks := rbind (form_item f "extra_weeks") int_of_str in
     let? note := form_item f "note" in
     let? weeks := bind_int taken_week in
     let? extra := bind_int extra_weeks in
     Ok (taken_date, weeks, extra, note))
  with
  | Ok (taken_date, weeks, extra, note) =>
      (Ok (redirect_view_customer customer_id),
       update_dose_log log_id taken_date weeks extra note db)
  | Raise e => (Raise e, db)
  end.

(* the store with the extra_weeks column of every dose log rewritten *)
Definition with_extra_weeks (f : DoseLog -> Z) (db : DB) : DB :=
  mkDB (Customers db) (Customers_seq db)
       (map (fun l =>
               mkDoseLog (l_id l) (l_customer_id l) (l_taken_date l)
                         (l_taken_week l) (l_note l) (f l))
            (DoseLogs db))
       (DoseLogs_seq db)
       (NotificationLogs db) (NotificationLogs_seq db).

End Routes.

(** ** Schema set-up and migration ([init_db], [migrate_db])

    Here the database is seen as SQLite sees it: named tables, each with
    its column definitions and rows of values. *)

Module Schema.
Import Sqlite.

Inductive sqlval : Type :=
| Null
| Int (z : Z)
| Text (s : string).

Record column : Type := mkColumn {
  col_name : string;
  col_decl : string;
  col_default : sqlval
}.

Record table : Type := mkTable {
  t_name : string;
  t_columns : list column;
  t_rows : list (list sqlval)
}.

Definition database : Type := list table.

(* identifiers compare without regard to ASCII case *)
Definition same_name (a b : string) : bool :=
  String.eqb (nocase a) (nocase b).

Definition has_table (db : database) (name : string) : bool :=
  existsb (fun t => same_name (t_name t) name) db.

Definition has_column (t : table) (name : string) : bool :=
  existsb (fun c => same_name (col_name c) name) (t_columns t).

(* CREATE TABLE IF NOT EXISTS name (cols) *)
Definition create_table_if_not_exists (name : string) (cols : list column)
  (db : database) : database :=
  if has_table db name then db else db ++ [mkTable name cols []].

(* ALTER TABLE name ADD COLUMN col: rows already there read the default *)
Fixpoint alter_table_add_column (name : string) (col : column)
  (db : database) : result database :=
  match db with
  | [] => Raise (OperationalError ("no such table: " ++ name)%string)
  | t :: rest =>
      if same_name (t_name t) name then
        if has_column t (col_name col)
        then Raise (OperationalError
                      ("duplicate column name: " ++ col_name col)%string)
        else Ok (mkTable (t_name t) (t_columns t ++ [col])
                         (map (fun r => r ++ [col_default col]) (t_rows t))
                 :: rest)
      else
        match alter_table_add_column name col rest with
        | Ok rest' => Ok (t :: rest')
        | Raise e => Raise e
        end
  end.

Definition init_db (db : database) : database :=
  let db :=
    create_table_if_not_exists "Customers"
      [mkColumn "id" "INTEGER PRIMARY KEY AUTOINCREMENT" Null;
       mkColumn "name" "TEXT NOT NULL" Null;
       mkColumn "contact" "TEXT" Null;
       mkColumn "start_date" "DATE" Null] db in
  let db :=
    create_table_if_not_exists "DoseLogs"
      [mkColumn "id" "INTEGER PRIMARY KEY AUTOINCREMENT" Null;
       mkColumn "customer_id" "INTEGER" Null;
       mkColumn "taken_date" "DATE NOT NULL" Null;
       mkColumn "taken_week" "INTEGER" Null;
       mkColumn "note" "TEXT" Null] db in
  create_table_if_not_exists "NotificationLogs"
    [mkColumn "id" "INTEGER PRIMARY KEY AUTOINCREMENT" Null;
     mkColumn "customer_id" "INTEGER" Null;
     mkColumn "notify_type" "TEXT" Null;
     mkColumn "notify_date" "DATE" Null;
     mkColumn "sent_at" "TIMESTAMP" (Text "CURRENT_TIMESTAMP")] db.

(* needle in haystack, for str *)
Fixpoint contains (needle haystack : string) : bool :=
  if String.prefix needle haystack then true
  else
    match haystack with
    | EmptyString => false
    | String _ rest => contains needle rest
    end.

(* str(e) of an exception *)
Definition str_of_exn (e : exn) : string :=
  match e with
  | OperationalError msg => msg
  | _ => ""
  end.

(** One [try: ALTER TABLE ... except sqlite3.OperationalError] block of
    [migrate_db]; [out] is what has been printed. *)
Definition try_add_column (name : string) (col : column)
  (added skipped : string) (db : database) (out : list string)
  : result unit * database * list string :=
  match alter_table_add_column name col db with
  | Ok db' => (Ok tt, db', out ++ [added])
  | Raise (OperationalError msg) =>
      if contains "duplicate column name" (str_of_exn (OperationalError msg))
      then (Ok tt, db, out ++ [skipped])
      else (Raise (OperationalError msg), db, out)
  | Raise e => (Raise e, db, out)
  end.

Definition migrate_db (db : database) (out : list string)
  : result unit * database * list string :=
  match
    try_add_column "Customers" (mkColumn "is_active" "INTEGER" (Int 1))
      "is_active 칼럼이 추가되었습니다."
      "is active 칼럼이 이미 존재합니다. 건너 뜁니다." db out
  with
  | (Ok _, db1, out1) =>
      try_add_column "DoseLogs" (mkColumn "extra_weeks" "INTEGER" (Int 0))
        "extra_weeks 칼럼이 추가되었습니다."
        "extra_weeks 칼럼이 이미 존재합니다. 건너뜁니다." db1 out1
  | (Raise e, db1, out1) => (Raise e, db1, out1)
  end.

End Schema.

(** ** Bounded checks used in the proofs *)

Module Checks.
Import Datetime.

(* [f] holds at [z], [z + 1], ..., [z + k - 1] *)
Fixpoint forall_from (f : Z -> bool) (z : Z) (k : nat) : bool :=
  match k with
  | O => true
  | S k' => f z && forall_from f (z + 1) k'
  end.

(* [f] holds at 0, 1, ..., [n - 1] *)
Definition forall_upto (f : Z -> bool) (n : Z) : bool :=
  forall_from f 0 (Z.to_nat n).

Definition month_day_ok (leapyear : bool) (n : Z) : bool :=
  let '(m, d) := month_day leapyear n in
  (1 <=? m) && (m <=? 12) && (1 <=? d)
  && (d <=? DAYS_IN_MONTH m + (if (m =? 2) && leapyear then 1 else 0))
  && (DAYS_BEFORE_MONTH m + (if (2 <? m) && leapyear then 1 else 0) + d
      =? n + 1).

(* the digits that "%04d" and "%02d" print for small numbers *)
Definition four_digits (n : Z) : string :=
  String (PyText.digit_char (n / 1000))
    (String (PyText.digit_char (n / 100 mod 10))
       (String (PyText.digit_char (n / 10 mod 10))
          (String (PyText.digit_char (n mod 10)) EmptyString))).

Definition two_digits (n : Z) : string :=
  String (PyText.digit_char (n / 10))
    (String (PyText.digit_char (n mod 10)) EmptyString).

(* the head of [l] is not above any row of [l] in the order [cmp] *)
Definition head_least {A} (cmp : A -> A -> comparison) (l : list A) : Prop :=
  match l with
  | [] => True
  | x :: _ => forall y, In y l -> cmp x y <> Gt
  end.

End Checks.

(** ** Runs of the notification job *)

Module Runs.
Import App.

(* [send_email_smtp] cannot return True: a credential is missing or
   empty, or the recipient is empty *)
Definition cannot_send (env : environ) : bool :=
  negb (truthy (environ_get env "EMAIL_USER"))
  || negb (truthy (environ_get env "EMAIL_PASS"))
  || negb (truthy (Some (environ_get_default env "NOTIFY_EMAIL"
                           "ljwljw2869@gmail.com"))).

(** No triple is recorded twice, no triple was sent twice, and what was
    sent is recorded. *)
Definition notify_inv (db : DB) (h : list send_record) : Prop :=
  NoDup (log_keys db) /\ NoDup (sent_keys h)
  /\ incl (sent_keys h) (log_keys db).

(** What a piece of [check_and_notify] may do to the state. *)
Definition evolves (env : environ) (s s' : state) : Prop :=
  Customers (working s') = Customers (working s)
  /\ Customers_seq (working s') = Customers_seq (working s)
  /\ DoseLogs (working s') = DoseLogs (working s)
  /\ DoseLogs_seq (working s') = DoseLogs_seq (working s)
  /\ (committed s = working s -> committed s' = working s')
  /\ (notify_inv (working s) (history s) ->
      notify_inv (working s') (history s'))
  /\ exists new,
      history s' = history s ++ new
      /\ log_keys (working s') = log_keys (working s) ++ sent_keys new
      /\ (cannot_send env = true -> sent_keys new = [])
      /\ (sent_keys new = [] ->
          working s' = working s
          /\ forall r, In r new -> ~ In (send_key r) (log_keys (working s))).

(* every call in the history returned True *)
Definition all_sent (h : list send_record) : Prop :=
  forall r, In r h -> s_sent r = true.

(** The customer has a due date and every milestone due on [today] is
    recorded for it. *)
Definition settled (db : DB) (today : Datetime.date)
  (cust : Z * string * string * string) : Prop :=
  let '(cid, _, _, start_date) := cust in
  exists next_date d_day,
    notify_due (last_dose_log db cid) start_date today
    = Ok (next_date, d_day)
    /\ forall nd, In nd (due_milestones d_day) ->
         In (cid, notify_type_of nd, PyText.isoformat next_date) (log_keys db).

(** The states reached from an empty notification log by runs of
    [check_and_notify], one after the other, and by changes to the other
    two tables in between (no route writes NotificationLogs). *)
Inductive reachable : DB -> list send_record -> Prop :=
| reachable_init (db : DB) :
    NotificationLogs db = [] -> reachable db []
| reachable_run (db : DB) (h : list send_record) (env : environ)
    (smtp : transport) (clk : clock) (r : result unit) (db' : DB)
    (h' : list send_record) :
    reachable db h ->
    check_and_notify env smtp clk db h = (r, db', h') ->
    reachable db' h'
| reachable_edit (db : DB) (h : list send_record) (db' : DB) :
    reachable db h ->
    NotificationLogs db' = NotificationLogs db ->
    reachable db' h.

End Runs.

(** ** Columns of the first table of a name *)

Module Columns.
Import Schema.

(* the table that [ALTER TABLE name] addresses has a column [cname] *)
Fixpoint column_in (db : database) (name cname : string) : bool :=
  match db with
  | [] => false
  | t :: rest =>
      if same_name (t_name t) name then has_column t cname
      else column_in rest name cname
  end.

End Columns.

(** ** Stores used as examples *)

Module Examples.
Import Datetime.

(* one customer whose only dose log has interval 0, as [add_dose_log] or
   [edit_dose_log] store it for taken_week=0 *)
Definition db_zero_interval : DB :=
  mkDB [mkCustomer 1 "kim" "010" "2024-02-01" 1] 1
       [mkDoseLog 1 1 "2024-02-01" (Some 0) "첫 복용" 0] 1
       [] 0.

(* one customer with two dose logs *)
Definition db_two_logs : DB :=
  mkDB [mkCustomer 1 "kim" "010" "2024-01-04" 1] 1
       [mkDoseLog 1 1 "2024-01-04" (Some 4) "첫 복용" 0;
        mkDoseLog 2 1 "2024-02-01" (Some 4) "" 0] 2
       [] 0.

(* one customer with a dose log whose month was typed without its zero *)
Definition db_unpadded : DB :=
  mkDB [mkCustomer 1 "kim" "010" "2024-09-01" 1] 1
       [mkDoseLog 1 1 "2024-9-01" (Some 4) "첫 복용" 0;
        mkDoseLog 2 1 "2024-10-01" (Some 4) "" 0] 2
       [] 0.

(* one customer enrolled on the last representable day, dose log deleted *)
Definition db_last_day : DB :=
  mkDB [mkCustomer 1 "kim" "010" "9999-12-31" 1] 1 [] 1 [] 0.

(* one customer enrolled 2024-01-01 without dose logs *)
Definition db_no_logs : DB :=
  mkDB [mkCustomer 1 "kim" "010" "2024-01-01" 1] 1 [] 1 [] 0.

(* credentials set, default recipient *)
Definition env_ready : environ :=
  fun key =>
    if String.eqb key "EMAIL_USER" then Some "clinic@example.org"
    else if String.eqb key "EMAIL_PASS" then Some "app-password"
    else None.

(* nothing set: no credentials *)
Definition env_empty : environ := fun _ => None.

(* an SMTP server that accepts every mail *)
Definition smtp_accepts : transport := fun _ _ => true.

Definition clock_jan29 : App.clock :=
  App.mkClock (mkdate 2024 1 29) "2024-01-29 09:00:00".

Definition clock_feb22 : App.clock :=
  App.mkClock (mkdate 2024 2 22) "2024-02-22 09:00:00".

Definition clock_mar01 : App.clock :=
  App.mkClock (mkdate 2024 3 1) "2024-03-01 09:00:00".

(* one customer with one dose log taken 2024-02-01 at interval 4 *)
Definition db_one_log : DB :=
  mkDB [mkCustomer 1 "kim" "010" "2024-02-01" 1] 1
       [mkDoseLog 1 1 "2024-02-01" (Some 4) "첫 복용" 0] 1
       [] 0.

(* customer 5, due 2024-03-01, with two records of the D-0 notification *)
Definition db_notified_twice : DB :=
  mkDB [mkCustomer 5 "park" "011" "2024-02-02" 1] 5 [] 5
       [mkNotificationLog 1 5 "D-0" "2024-03-01" "2024-03-01 09:00:00";
        mkNotificationLog 2 5 "D-0" "2024-03-01" "2024-03-01 09:00:07"] 2.

(* a registration form with every field filled in *)
Definition form_lee : Routes.form :=
  fun key =>
    if String.eqb key "name" then Some "lee"
    else if String.eqb key "contact" then Some "lee@example.org"
    else if String.eqb key "start_date" then Some "2024-03-01"
    else if String.eqb key "first_weeks" then Some "6"
    else None.

(* the same form with the first_weeks field left blank *)
Definition form_blank_weeks : Routes.form :=
  fun key =>
    if String.eqb key "first_weeks" then Some "" else form_lee key.

(* the store right after [init_db] and [migrate_db] *)
Definition db_empty : DB := mkDB [] 0 [] 0 [] 0.

(* the registration form of customer kim, first_weeks left out *)
Definition form_kim (start_date : string) : Routes.form :=
  fun key =>
    if String.eqb key "name" then Some "kim"
    else if String.eqb key "contact" then Some "010"
    else if String.eqb key "start_date" then Some start_date
    else None.

(* a dose-log form with interval 0 *)
Definition form_zero_weeks : Routes.form :=
  fun key =>
    if String.eqb key "taken_date" then Some "2024-02-01"
    else if String.eqb key "taken_week" then Some "0"
    else if String.eqb key "note" then Some "첫 복용"
    else None.

End Examples.

From Stdlib Require Import Sorted Permutation.

(** ** The routes that edit customers, and the start of the program *)

Module Admin.
Import Datetime PyText Sqlite App Routes.

(** [str.strip()] removes the white space of [str.isspace], which is more
    than ASCII: the code points U+0009..U+000D, U+001C..U+0020, U+0085,
    U+00A0, U+1680, U+2000..U+200A, U+2028, U+2029, U+202F, U+205F and
    U+3000.  The text is held in UTF-8, where they take one, two or three
    bytes. *)

Definition byte (c : ascii) : Z := Z.of_N (N_of_ascii c).

(* U+0085 (C2 85) and U+00A0 (C2 A0) *)
Definition space2 (a b : ascii) : bool :=
  (byte a =? 194) && ((byte b =? 133) || (byte b =? 160)).

(* U+1680 (E1 9A 80), U+2000..U+200A (E2 80 80..8A), U+2028 (E2 80 A8),
   U+2029 (E2 80 A9), U+202F (E2 80 AF), U+205F (E2 81 9F) and
   U+3000 (E3 80 80) *)
Definition space3 (a b c : ascii) : bool :=
  ((byte a =? 225) && (byte b =? 154) && (byte c =? 128))
  || ((byte a =? 226) && (byte b =? 128)
      && (((128 <=? byte c) && (byte c <=? 138))
          || (byte c =? 168) || (byte c =? 169) || (byte c =? 175)))
  || ((byte a =? 226) && (byte b =? 129) && (byte c =? 159))
  || ((byte a =? 227) && (byte b =? 128) && (byte c =? 128)).

(* str.lstrip() *)
Fixpoint str_lstrip (s : string) : string :=
  match s with
  | String a s1 =>
      if is_space a then str_lstrip s1
      else
        match s1 with
        | String b s2 =>
            if space2 a b then str_lstrip s2
            else
              match s2 with
              | String c s3 => if space3 a b c then str_lstrip s3 else s
              | EmptyString => s
              end
        | EmptyString => s
        end
  | EmptyString => s
  end.

(* the text is made of white space only *)
Fixpoint all_space (s : string) : bool :=
  match s with
  | String a s1 =>
      if is_space a then all_space s1
      else
        match s1 with
        | String b s2 =>
            if space2 a b then all_space s2
            else
              match s2 with
              | String c s3 => if space3 a b c then all_space s3 else false
              | EmptyString => false
              end
        | EmptyString => false
        end
  | EmptyString => true
  end.

(* str.rstrip(): the text up to its longest tail of white space *)
Fixpoint str_rstrip (s : string) : string :=
  match s with
  | EmptyString => EmptyString
  | String a s1 =>
      if all_space s then EmptyString else String a (str_rstrip s1)
  end.

(* str.strip() *)
Definition strip (s : string) : string := str_rstrip (str_lstrip s).

(* request.form.get(key, '') *)
Definition form_get_default (f : form) (key default : string) : string :=
  match f key with
  | Some v => v
  | None => default
  end.

Inductive http_method : Type := GET | POST.

Inductive page : Type :=
| render_edit_customer (customer : option (Z * string * string))
    (error_message : option string)
| render_manage_customers (customers : list (Z * string * string * Z))
| redirect_to_view_customer (customer_id : Z)
| redirect_to_manage_customers.

(* SELECT id, name, contact FROM Customers WHERE id = ?, then fetchone() *)
Definition select_customer (customer_id : Z) (db : DB)
  : option (Z * string * string) :=
  fetchone
    (map (fun c => (c_id c, c_name c, c_contact c))
       (filter (fun c => c_id c =? customer_id) (Customers db))).

(* UPDATE Customers SET name = ?, contact = ? WHERE id = ? *)
Definition update_customer (customer_id : Z) (new_name new_contact : string)
  (db : DB) : DB :=
  mkDB (map (fun c =>
               if c_id c =? customer_id
               then mkCustomer (c_id c) new_name new_contact
                               (c_start_date c) (c_is_active c)
               else c)
            (Customers db))
       (Customers_seq db)
       (DoseLogs db) (DoseLogs_seq db)
       (NotificationLogs db) (NotificationLogs_seq db).

Definition edit_customer (method : http_method) (customer_id : Z) (f : form)
  (db : DB) : page * DB :=
  match method with
  | POST =>
      let new_name := strip (form_get_default f "name" "") in
      let new_contact := strip (form_get_default f "contact" "") in
      match new_name with
      | EmptyString =>
          (render_edit_customer (select_customer customer_id db)
             (Some "⚠️ 이름은 반드시 입력해야 합니다."),
           db)
      | _ =>
          (redirect_to_view_customer customer_id,
           update_customer customer_id new_name new_contact db)
      end
  | GET => (render_edit_customer (select_customer customer_id db) None, db)
  end.

(* UPDATE Customers SET is_active = ? WHERE id = ? *)
Definition update_is_active (update : Z * Z) (db : DB) : DB :=
  let '(should_active, cid) := update in
  mkDB (map (fun c =>
               if c_id c =? cid
               then mkCustomer (c_id c) (c_name c) (c_contact c)
                               (c_start_date c) should_active
               else c)
            (Customers db))
       (Customers_seq db)
       (DoseLogs db) (DoseLogs_seq db)
       (NotificationLogs db) (NotificationLogs_seq db).

(* cid_str in active_ids *)
Definition in_set (s : string) (l : list string) : bool :=
  existsb (String.eqb s) l.

(* for cid, current_active in db_customers: ... updates.append(...) *)
Fixpoint collect_updates (active_ids : list string)
  (db_customers : list (Z * Z)) : list (Z * Z) :=
  match db_customers with
  | [] => []
  | (cid, current_active) :: rest =>
      let cid_str := str_of_int cid in
      let should_active := if in_set cid_str active_ids then 1 else 0 in
      if negb (current_active =? should_active)
      then (should_active, cid) :: collect_updates active_ids rest
      else collect_updates active_ids rest
  end.

(* cursor.executemany("UPDATE Customers SET is_active = ? WHERE id = ?",
   updates) *)
Definition executemany_is_active (updates : list (Z * Z)) (db : DB) : DB :=
  fold_left (fun acc u => update_is_active u acc) updates db.

(** [manage_customers]; [active_customers] is
    request.form.getlist('active_customers'). *)
Definition manage_customers (method : http_method)
  (active_customers : list string) (db : DB) : page * DB :=
  match method with
  | POST =>
      let active_ids := active_customers in
      (* SELECT id, is_active FROM Customers *)
      let db_customers :=
        map (fun c => (c_id c, c_is_active c)) (Customers db) in
      let updates := collect_updates active_ids db_customers in
      (redirect_to_manage_customers,
       match updates with
       | [] => db
       | _ => executemany_is_active updates db
       end)
  | GET =>
      (* SELECT id, name, contact, is_active FROM Customers
         ORDER BY name COLLATE NOCASE ASC *)
      (render_manage_customers
         (map (fun c => (c_id c, c_name c, c_contact c, c_is_active c))
            (order_by_nocase_asc c_name (Customers db))),
       db)
  end.

(* what the loop of [manage_customers] wants is_active to be *)
Definition should_active (active_ids : list string) (c : Customer) : Z :=
  if in_set (str_of_int (c_id c)) active_ids then 1 else 0.

(* the store with the is_active column of every customer rewritten *)
Definition with_is_active (g : Customer -> Z) (db : DB) : DB :=
  mkDB (map (fun c =>
               mkCustomer (c_id c) (c_name c) (c_contact c) (c_start_date c)
                          (g c))
            (Customers db))
       (Customers_seq db)
       (DoseLogs db) (DoseLogs_seq db)
       (NotificationLogs db) (NotificationLogs_seq db).

(** What [__main__] does to the schema before the server starts:
    [init_db()] and then [migrate_db()]. *)
Definition setup (db : Schema.database) (out : list string)
  : result unit * Schema.database * list string :=
  Schema.migrate_db (Schema.init_db db) out.

(** A table after a change of the schema: the same name, the columns it
    had followed by new ones, and every row with its values followed by
    the defaults of the new columns. *)
Definition table_extends (t t1 : Schema.table) : Prop :=
  Schema.t_name t1 = Schema.t_name t
  /\ exists cols,
      Schema.t_columns t1 = Schema.t_columns t ++ cols
      /\ Schema.t_rows t1
         = map (fun r => r ++ map Schema.col_default cols) (Schema.t_rows t).

End Admin.

(** ** Support for reasoning about runs *)

Module Frames.
Import App.

(* the store with another Customers table *)
Definition set_customers (cs : list Customer) (db : DB) : DB :=
  mkDB cs (Customers_seq db) (DoseLogs db) (DoseLogs_seq db)
       (NotificationLogs db) (NotificationLogs_seq db).

(* the store with every dose log rewritten by [g] *)
Definition map_dose_logs (g : DoseLog -> DoseLog) (db : DB) : DB :=
  mkDB (Customers db) (Customers_seq db)
       (map g (DoseLogs db)) (DoseLogs_seq db)
       (NotificationLogs db) (NotificationLogs_seq db).

(* a state seen through a change [T] of the store *)
Definition on_stores (T : DB -> DB) (s : state) : state :=
  mkState (T (committed s)) (T (working s)) (history s).

(** The computation does not look at what [T] changes: on the changed
    store it does the same. *)
Definition blind_to (T : DB -> DB) {A} (m : M A) : Prop :=
  forall s, m (on_stores T s) = (fst (m s), on_stores T (snd (m s))).

(* the columns of a customer that the listings show *)
Definition customer_row (c : Customer) : Z * string * string * string :=
  (c_id c, c_name c, c_contact c, c_start_date c).

Definition entry_row (e : Routes.index_entry) : Z * string * string * string :=
  (Routes.e_id e, Routes.e_name e, Routes.e_phone e, Routes.e_start_date e).

(* the order of NOCASE: [a] does not come after [b] *)
Definition nocase_le (a b : string) : Prop :=
  String.compare (Sqlite.nocase a) (Sqlite.nocase b) <> Gt.

(** Everything a run adds to the history satisfies [P]. *)
Definition sends_only (P : send_record -> Prop) (s s' : state) : Prop :=
  exists new, history s' = history s ++ new /\ forall r, In r new -> P r.

(** A call made on [today] is for the D-7 milestone of a due date a week
    ahead or for the D-0 milestone of [today] itself, and for a customer
    of the table. *)
Definition sent_on (today : Datetime.date) (ids : list Z) (r : send_record)
  : Prop :=
  In (s_customer_id r) ids
  /\ ((s_notify_type r = "D-7"
       /\ exists due,
           Datetime.valid_date due = true
           /\ s_notify_date r = PyText.isoformat due
           /\ Datetime.toordinal due = Datetime.toordinal today + 7)
      \/ (s_notify_type r = "D-0"
          /\ s_notify_date r = PyText.isoformat today)).

End Frames.

(** ** The program as a whole

    The requests that the routes answer and the runs of the scheduled
    job, taken one after the other; [index] and [view_customer] only read
    the store. *)

Module Program.
Import Datetime App Routes Admin.

Inductive request : Type :=
| get_index (today : date)
| post_add_customer (f : form)
| post_add_dose_log (customer_id : Z) (f : form)
| get_view_customer (today : date) (customer_id : Z)
| request_edit_customer (method : http_method) (customer_id : Z) (f : form)
| request_manage_customers (method : http_method)
    (active_customers : list string)
| post_edit_dose_log (customer_id log_id : Z) (f : form)
| post_delete_dose_log (customer_id log_id : Z)
| run_check_and_notify (env : environ) (smtp : transport) (clk : clock).

(* the store and the history of SMTP calls after a request *)
Definition handle (r : request) (st : DB * list send_record)
  : DB * list send_record :=
  let '(db, h) := st in
  match r with
  | get_index today => (db, h)
  | post_add_customer f =>
      (snd (fst (add_customer f db h)), snd (add_customer f db h))
  | post_add_dose_log customer_id f => (snd (add_dose_log customer_id f db), h)
  | get_view_customer today customer_id => (db, h)
  | request_edit_customer method customer_id f =>
      (snd (edit_customer method customer_id f db), h)
  | request_manage_customers method active_customers =>
      (snd (manage_customers method active_customers db), h)
  | post_edit_dose_log customer_id log_id f =>
      (snd (edit_dose_log customer_id log_id f db), h)
  | post_delete_dose_log customer_id log_id =>
      (snd (delete_dose_log customer_id log_id db), h)
  | run_check_and_notify env smtp clk =>
      (snd (fst (check_and_notify env smtp clk db h)),
       snd (check_and_notify env smtp clk db h))
  end.

Definition serve (requests : list request) (st : DB * list send_record)
  : DB * list send_record :=
  fold_left (fun st r => handle r st) requests st.

(** What the store keeps true: the ids of a table differ from each other
    and do not exceed the AUTOINCREMENT counter of the table, no
    notification is recorded or sent twice, and what was sent is
    recorded. *)
Definition store_inv (db : DB) (h : list send_record) : Prop :=
  NoDup (map c_id (Customers db))
  /\ (forall c, In c (Customers db) -> c_id c <= Customers_seq db)
  /\ NoDup (map l_id (DoseLogs db))
  /\ (forall l, In l (DoseLogs db) -> l_id l <= DoseLogs_seq db)
  /\ Runs.notify_inv db h.

End Program.

(** ** More stores and forms used as examples *)

Module Examples2.
Import Datetime Examples.

(* three customers; the second was registered with a blank start date and
   its seed dose log deleted *)
Definition db_blank_start : DB :=
  mkDB [mkCustomer 1 "kim" "010" "2024-01-01" 1;
        mkCustomer 2 "lee" "011" "" 1;
        mkCustomer 3 "park" "012" "2024-01-01" 1] 3
       [] 3 [] 0.

(* credentials set, EMAIL_PORT mistyped *)
Definition env_bad_port : environ :=
  fun key =>
    if String.eqb key "EMAIL_PORT" then Some "465x" else env_ready key.

(* a dose log as the edit form rewrites it for a journey: note and
   extra_weeks changed *)
Definition with_travel (extra : Z) (l : DoseLog) : DoseLog :=
  mkDoseLog (l_id l) (l_customer_id l) (l_taken_date l) (l_taken_week l)
            "여행" extra.

(* a dose-log form: taken 2024-02-29, next in 6 weeks *)
Definition form_refill : Routes.form :=
  fun key =>
    if String.eqb key "taken_date" then Some "2024-02-29"
    else if String.eqb key "taken_week" then Some "6"
    else if String.eqb key "note" then Some "refill"
    else None.

(* three customers in the order they were registered: Lee, kim and the
   deactivated park, each with its seed dose log *)
Definition db_mixed_case : DB :=
  mkDB [mkCustomer 1 "Lee" "011" "2024-02-08" 1;
        mkCustomer 2 "kim" "010" "2024-02-01" 1;
        mkCustomer 3 "park" "012" "" 0] 3
       [mkDoseLog 1 1 "2024-02-08" (Some 4) "첫 복용" 0;
        mkDoseLog 2 2 "2024-02-01" (Some 4) "첫 복용" 0] 3
       [] 0.

(* the home page of [db_mixed_case] on 2024-02-22 *)
Definition listing_mixed_case : list Routes.index_entry :=
  [Routes.mkEntry 2 "kim" "010" "2024-02-01" 7;
   Routes.mkEntry 1 "Lee" "011" "2024-02-08" 14].

(* a database from before the DoseLogs table, with one customer *)
Definition db_customers_only : Schema.database :=
  [Schema.mkTable "Customers"
     [Schema.mkColumn "id" "INTEGER PRIMARY KEY AUTOINCREMENT" Schema.Null;
      Schema.mkColumn "name" "TEXT NOT NULL" Schema.Null;
      Schema.mkColumn "contact" "TEXT" Schema.Null;
      Schema.mkColumn "start_date" "DATE" Schema.Null]
     [[Schema.Int 1; Schema.Text "kim"; Schema.Text "010";
       Schema.Text "2024-01-01"]]].

(* the edit form filled in with the name of another customer *)
Definition form_rename_kim : Routes.form :=
  fun key =>
    if String.eqb key "name" then Some "Lee"
    else if String.eqb key "contact" then Some "010"
    else None.

(* an SMTP server that accepts the mails addressed to the default
   recipient and no others *)
Definition smtp_default_recipient : transport :=
  fun _ req => String.eqb (to_email req) "ljwljw2869@gmail.com".


(* a morning of the clinic *)
Definition requests_morning : list Program.request :=
  [Program.post_add_customer (Examples.form_kim "2024-02-01");
   Program.post_add_customer Examples.form_lee;
   Program.run_check_and_notify Examples.env_ready Examples.smtp_accepts
     Examples.clock_feb22;
   Program.post_add_dose_log 1 form_refill;
   Program.post_delete_dose_log 1 1;
   Program.request_manage_customers Admin.POST ["1"];
   Program.run_check_and_notify Examples.env_ready Examples.smtp_accepts
     Examples.clock_feb22].

End Examples2.

(** * Facts about dates *)

Module DatetimeFacts.
Import Datetime Checks.

Lemma forall_from_spec (f : Z -> bool) (k : nat) :
  forall z, forall_from f z k = true ->
  forall i, z <= i < z + Z.of_nat k -> f i = true.
Proof.
  induction k as [|k IH]; simpl forall_from; intros z H i Hi; [lia|].
  apply andb_prop in H as [Hz Hrest].
  destruct (Z.eq_dec i z) as [->|Hne]; [exact Hz|].
  apply (IH (z + 1) Hrest). lia.
Qed.

Lemma forall_upto_spec (f : Z -> bool) (n : Z) :
  forall_upto f n = true ->
  forall z, 0 <= z < n -> f z = true.
Proof.
  unfold forall_upto. intros H z Hz.
  apply (forall_from_spec f (Z.to_nat n) 0 H). lia.
Qed.

Lemma is_leap_true (y : Z) :
  is_leap y = true <-> y mod 4 = 0 /\ (y mod 100 <> 0 \/ y mod 400 = 0).
Proof.
  unfold is_leap.
  rewrite andb_true_iff, orb_true_iff, negb_true_iff, !Z.eqb_eq, Z.eqb_neq.
  tauto.
Qed.

Lemma is_leap_false (y : Z) :
  is_leap y = false <-> y mod 4 <> 0 \/ (y mod 100 = 0 /\ y mod 400 <> 0).
Proof.
  unfold is_leap.
  rewrite andb_false_iff, orb_false_iff, negb_false_iff, !Z.eqb_neq, Z.eqb_eq.
  tauto.
Qed.

Lemma month_day_spec (leapyear : bool) (n : Z) :
  0 <= n < 365 ->
  month_day_ok leapyear n = true.
Proof.
  intros Hn.
  assert (H : forall_upto
                (fun z => month_day_ok true z && month_day_ok false z) 365
              = true) by (vm_compute; reflexivity).
  apply forall_upto_spec with (z := n) in H; [|lia].
  apply andb_prop in H as [Ht Hf].
  destruct leapyear; assumption.
Qed.

Lemma ord2ymd_spec (n : Z) :
  1 <= n <= MAXORDINAL ->
  let '(y, m, d) := ord2ymd n in
  valid_ymd y m d = true /\ ymd2ord y m d = n.
Proof.
  unfold MAXORDINAL, ord2ymd, DI400Y, DI100Y, DI4Y. intros Hn.
  remember ((n - 1) / 146097) as a eqn:Ea.
  remember ((n - 1) mod 146097) as r1 eqn:Er1.
  remember (r1 / 36524) as b eqn:Eb.
  remember (r1 mod 36524) as r2 eqn:Er2.
  remember (r2 / 1461) as c eqn:Ec.
  remember (r2 mod 1461) as r3 eqn:Er3.
  remember (r3 / 365) as e eqn:Ee.
  remember (r3 mod 365) as r4 eqn:Er4.
  assert (H1 : n - 1 = 146097 * a + r1 /\ 0 <= r1 < 146097)
    by (subst a r1; clear; Z.div_mod_to_equations; lia).
  assert (H2 : r1 = 36524 * b + r2 /\ 0 <= r2 < 36524)
    by (subst b r2; clear; Z.div_mod_to_equations; lia).
  assert (H3 : r2 = 1461 * c + r3 /\ 0 <= r3 < 1461)
    by (subst c r3; clear; Z.div_mod_to_equations; lia).
  assert (H4 : r3 = 365 * e + r4 /\ 0 <= r4 < 365)
    by (subst e r4; clear; Z.div_mod_to_equations; lia).
  clear Ea Er1 Eb Er2 Ec Er3 Ee Er4.
  destruct ((e =? 4) || (b =? 4)) eqn:Hsp.
  - apply orb_true_iff in Hsp. rewrite !Z.eqb_eq in Hsp.
    assert (Hl : is_leap (a * 400 + 1 + b * 100 + c * 4 + e - 1) = true).
    { apply is_leap_true. Z.div_mod_to_equations. lia. }
    unfold valid_ymd, ymd2ord, days_in_month, days_before_month,
      days_before_year, MINYEAR, MAXYEAR.
    rewrite Hl. simpl.
    split.
    + repeat (apply andb_true_intro; split); try reflexivity;
        apply Z.leb_le; lia.
    + Z.div_mod_to_equations. lia.
  - apply orb_false_iff in Hsp. rewrite !Z.eqb_neq in Hsp.
    set (lp := (e =? 3) && (negb (c =? 24) || (b =? 3))).
    set (y := a * 400 + 1 + b * 100 + c * 4 + e).
    assert (Hl : is_leap y = lp).
    { subst lp y. destruct ((e =? 3) && (negb (c =? 24) || (b =? 3))) eqn:E.
      - apply andb_true_iff in E as [E1 E2]. apply Z.eqb_eq in E1.
        apply orb_true_iff in E2. rewrite negb_true_iff, Z.eqb_neq, Z.eqb_eq in E2.
        apply is_leap_true. Z.div_mod_to_equations. lia.
      - apply andb_false_iff in E. rewrite orb_false_iff, negb_false_iff, Z.eqb_neq, Z.eqb_eq, Z.eqb_neq in E.
        apply is_leap_false. Z.div_mod_to_equations. lia. }
    pose proof (month_day_spec lp r4 (proj2 H4)) as Hmd.
    unfold month_day_ok in Hmd.
    destruct (month_day lp r4) as [m d].
    rewrite !andb_true_iff, !Z.leb_le, Z.eqb_eq in Hmd.
    destruct Hmd as [[[[Hm1 Hm2] Hd1] Hd2] Hsum].
    unfold valid_ymd, ymd2ord, days_in_month, days_before_month,
      days_before_year, MINYEAR, MAXYEAR.
    rewrite Hl.
    split.
    + repeat (apply andb_true_intro; split); try (apply Z.leb_le);
        try (subst y; lia).
      destruct (m =? 2) eqn:Em; simpl in *.
      * apply Z.eqb_eq in Em. subst m. simpl in Hd2. destruct lp; simpl in *; lia.
      * lia.
    + subst y. Z.div_mod_to_equations. lia.
Qed.

Lemma days_before_year_succ (y : Z) :
  days_before_year (y + 1)
  = days_before_year y + 365 + (if is_leap y then 1 else 0).
Proof.
  unfold days_before_year.
  destruct (is_leap y) eqn:E.
  - apply is_leap_true in E. Z.div_mod_to_equations. lia.
  - apply is_leap_false in E. Z.div_mod_to_equations. lia.
Qed.

Lemma days_before_year_mono (y1 y2 : Z) :
  y1 <= y2 -> days_before_year y1 <= days_before_year y2.
Proof.
  unfold days_before_year. intros H. Z.div_mod_to_equations. lia.
Qed.

Lemma valid_ymd_iff (y m d : Z) :
  valid_ymd y m d = true <->
  1 <= y <= 9999 /\ 1 <= m <= 12 /\ 1 <= d <= days_in_month y m.
Proof.
  unfold valid_ymd, MINYEAR, MAXYEAR.
  rewrite !andb_true_iff, !Z.leb_le. tauto.
Qed.

Lemma month_cases (m : Z) :
  1 <= m <= 12 ->
  m = 1 \/ m = 2 \/ m = 3 \/ m = 4 \/ m = 5 \/ m = 6 \/ m = 7 \/ m = 8
  \/ m = 9 \/ m = 10 \/ m = 11 \/ m = 12.
Proof. lia. Qed.

Ltac each_month H :=
  apply month_cases in H;
  repeat (destruct H as [H|H]; [subst|]); subst.

Lemma day_of_year_bounds (y m d : Z) :
  valid_ymd y m d = true ->
  1 <= days_before_month y m + d <= 365 + (if is_leap y then 1 else 0).
Proof.
  rewrite valid_ymd_iff. intros (_ & Hm & Hd).
  unfold days_before_month, days_in_month in *.
  each_month Hm; destruct (is_leap y); cbn -[Z.add] in *; lia.
Qed.

Lemma month_lt (y m1 d1 m2 d2 : Z) :
  valid_ymd y m1 d1 = true -> valid_ymd y m2 d2 = true -> m1 < m2 ->
  days_before_month y m1 + d1 < days_before_month y m2 + d2.
Proof.
  rewrite !valid_ymd_iff. intros (_ & Hm1 & Hd1) (_ & Hm2 & Hd2) Hlt.
  unfold days_before_month, days_in_month in *.
  each_month Hm1; each_month Hm2; try lia; destruct (is_leap y); cbn -[Z.add] in *; lia.
Qed.

Lemma ymd2ord_year_lt (y1 m1 d1 y2 m2 d2 : Z) :
  valid_ymd y1 m1 d1 = true -> valid_ymd y2 m2 d2 = true -> y1 < y2 ->
  ymd2ord y1 m1 d1 < ymd2ord y2 m2 d2.
Proof.
  intros V1 V2 Hlt. unfold ymd2ord.
  pose proof (day_of_year_bounds _ _ _ V1).
  pose proof (day_of_year_bounds _ _ _ V2).
  pose proof (days_before_year_succ y1).
  pose proof (days_before_year_mono (y1 + 1) y2 ltac:(lia)).
  lia.
Qed.

Lemma toordinal_compare (a b : date) :
  valid_date a = true -> valid_date b = true ->
  (toordinal a ?= toordinal b) = date_compare a b.
Proof.
  destruct a as [y1 m1 d1], b as [y2 m2 d2].
  unfold valid_date, toordinal, date_compare; simpl. intros V1 V2.
  destruct (Z.compare_spec y1 y2) as [->|Hy|Hy].
  - destruct (Z.compare_spec m1 m2) as [->|Hm|Hm].
    + unfold ymd2ord. destruct (Z.compare_spec d1 d2);
        [apply Z.compare_eq_iff | apply Z.compare_lt_iff
        | apply Z.compare_gt_iff]; lia.
    + apply Z.compare_lt_iff. unfold ymd2ord.
      pose proof (month_lt _ _ _ _ _ V1 V2 Hm). lia.
    + apply Z.compare_gt_iff. unfold ymd2ord.
      pose proof (month_lt _ _ _ _ _ V2 V1 Hm). lia.
  - apply Z.compare_lt_iff. now apply ymd2ord_year_lt.
  - apply Z.compare_gt_iff. now apply ymd2ord_year_lt.
Qed.

Lemma date_compare_eq (a b : date) : date_compare a b = Eq -> a = b.
Proof.
  destruct a as [y1 m1 d1], b as [y2 m2 d2]. unfold date_compare; simpl.
  destruct (Z.compare_spec y1 y2); try discriminate.
  destruct (Z.compare_spec m1 m2); try discriminate.
  intros Hd. apply Z.compare_eq in Hd. congruence.
Qed.

Lemma toordinal_inj (a b : date) :
  valid_date a = true -> valid_date b = true ->
  toordinal a = toordinal b -> a = b.
Proof.
  intros Va Vb H. apply date_compare_eq.
  rewrite <- toordinal_compare by assumption. now apply Z.compare_eq_iff.
Qed.

Lemma toordinal_range (d : date) :
  valid_date d = true -> 1 <= toordinal d <= MAXORDINAL.
Proof.
  destruct d as [y m dd]. unfold valid_date, toordinal; simpl. intros V.
  pose proof (day_of_year_bounds _ _ _ V) as Hb.
  pose proof (days_before_year_succ y) as Hs.
  apply valid_ymd_iff in V as (Hy & _ & _).
  pose proof (days_before_year_mono (y + 1) 10000 ltac:(lia)) as H1.
  pose proof (days_before_year_mono 1 y ltac:(lia)) as H2.
  change (days_before_year 10000) with 3652059 in H1.
  change (days_before_year 1) with 0 in H2.
  unfold ymd2ord, MAXORDINAL. lia.
Qed.

Lemma fromordinal_valid (n : Z) :
  1 <= n <= MAXORDINAL -> valid_date (fromordinal n) = true.
Proof.
  intros H. pose proof (ord2ymd_spec n H) as S.
  unfold fromordinal. destruct (ord2ymd n) as [[y m] d]. apply S.
Qed.

Lemma toordinal_fromordinal (n : Z) :
  1 <= n <= MAXORDINAL -> toordinal (fromordinal n) = n.
Proof.
  intros H. pose proof (ord2ymd_spec n H) as S.
  unfold fromordinal. destruct (ord2ymd n) as [[y m] d]. apply S.
Qed.

Lemma fromordinal_toordinal (d : date) :
  valid_date d = true -> fromordinal (toordinal d) = d.
Proof.
  intros V. pose proof (toordinal_range d V) as R.
  apply toordinal_inj; auto using fromordinal_valid, toordinal_fromordinal.
Qed.

End DatetimeFacts.

(** * Facts about the text of dates *)

Module PyTextFacts.
Import Datetime PyText Checks DatetimeFacts.

Lemma fmt_0d_4 (n : Z) : 0 <= n <= 9999 -> fmt_0d 4 n = four_digits n.
Proof.
  intros Hn.
  assert (H : forall_upto
                (fun z => String.eqb (fmt_0d 4 z) (four_digits z)) 10000
              = true) by (vm_compute; reflexivity).
  apply forall_upto_spec with (z := n) in H; [|lia].
  now apply String.eqb_eq.
Qed.

Lemma fmt_0d_2 (n : Z) : 0 <= n <= 99 -> fmt_0d 2 n = two_digits n.
Proof.
  intros Hn.
  assert (H : forall_upto
                (fun z => String.eqb (fmt_0d 2 z) (two_digits z)) 100
              = true) by (vm_compute; reflexivity).
  apply forall_upto_spec with (z := n) in H; [|lia].
  now apply String.eqb_eq.
Qed.

Lemma digit_cases (k : Z) :
  0 <= k <= 9 ->
  k = 0 \/ k = 1 \/ k = 2 \/ k = 3 \/ k = 4 \/ k = 5 \/ k = 6 \/ k = 7
  \/ k = 8 \/ k = 9.
Proof. lia. Qed.

Ltac each_digit H :=
  apply digit_cases in H;
  repeat (destruct H as [H|H]; [subst|]); subst.

Lemma is_digit_digit_char (k : Z) :
  0 <= k <= 9 -> is_digit (digit_char k) = true.
Proof. intros H. each_digit H; reflexivity. Qed.

Lemma digit_val_digit_char (k : Z) :
  0 <= k <= 9 -> digit_val (digit_char k) = k.
Proof. intros H. each_digit H; reflexivity. Qed.

Lemma digit_char_compare (j k : Z) :
  0 <= j <= 9 -> 0 <= k <= 9 ->
  Ascii.compare (digit_char j) (digit_char k) = (j ?= k).
Proof. intros Hj Hk. each_digit Hj; each_digit Hk; reflexivity. Qed.

Lemma four_digits_bounds (n : Z) :
  0 <= n <= 9999 ->
  0 <= n / 1000 <= 9 /\ 0 <= n / 100 mod 10 <= 9
  /\ 0 <= n / 10 mod 10 <= 9 /\ 0 <= n mod 10 <= 9.
Proof. intros H. Z.div_mod_to_equations. lia. Qed.

Lemma two_digits_bounds (n : Z) :
  0 <= n <= 99 -> 0 <= n / 10 <= 9 /\ 0 <= n mod 10 <= 9.
Proof. intros H. Z.div_mod_to_equations. lia. Qed.

Lemma match_Y_four_digits (n : Z) (r : string) :
  0 <= n <= 9999 -> match_Y (four_digits n ++ r) = Some (n, r).
Proof.
  intros H. destruct (four_digits_bounds n H) as (Ha & Hb & Hc & Hd).
  unfold four_digits. cbn [append match_Y digits_val].
  rewrite !is_digit_digit_char, !digit_val_digit_char by assumption.
  cbn [andb]. f_equal. f_equal. Z.div_mod_to_equations. lia.
Qed.

Lemma match_m_month (m : Z) (r : string) :
  1 <= m <= 12 -> match_m (fmt_0d 2 m ++ r) = Some (m, r).
Proof. intros H. each_month H; reflexivity. Qed.

Lemma match_d_day (d : Z) :
  1 <= d <= 31 -> match_d (fmt_0d 2 d) = Some (d, EmptyString).
Proof.
  intros H.
  assert (C : forall_upto
                (fun z =>
                   match match_d (fmt_0d 2 (z + 1)) with
                   | Some (v, EmptyString) => v =? z + 1
                   | _ => false
                   end) 31 = true) by (vm_compute; reflexivity).
  apply forall_upto_spec with (z := d - 1) in C; [|lia].
  replace (d - 1 + 1) with d in C by lia.
  destruct (match_d (fmt_0d 2 d)) as [[v [|? ?]]|]; try discriminate.
  apply Z.eqb_eq in C. now subst.
Qed.

Lemma days_in_month_le_31 (y m : Z) : days_in_month y m <= 31.
Proof.
  unfold days_in_month.
  destruct ((m =? 2) && is_leap y); [lia|].
  unfold DAYS_IN_MONTH.
  destruct m as [|p|p]; try lia.
  do 4 (try destruct p as [p|p|]); lia.
Qed.

Lemma isoformat_layout (d : date) :
  valid_date d = true ->
  isoformat d
  = (four_digits (year d) ++ String "-" (two_digits (month d)
       ++ String "-" (two_digits (day d))))%string.
Proof.
  destruct d as [y m dd]. unfold valid_date; simpl.
  rewrite valid_ymd_iff. intros (Hy & Hm & Hd).
  pose proof (days_in_month_le_31 y m).
  unfold isoformat; simpl.
  rewrite fmt_0d_4, !fmt_0d_2 by lia. reflexivity.
Qed.

Lemma strptime_isoformat (d : date) :
  valid_date d = true -> strptime (isoformat d) = Ok d.
Proof.
  intros V. pose proof V as V'.
  destruct d as [y m dd]. unfold valid_date in V; simpl in V.
  apply valid_ymd_iff in V as (Hy & Hm & Hd).
  pose proof (days_in_month_le_31 y m).
  unfold strptime, strptime_fields.
  rewrite isoformat_layout by assumption. simpl year; simpl month; simpl day.
  rewrite match_Y_four_digits by lia. cbn [match_dash].
  rewrite <- fmt_0d_2 by lia.
  rewrite match_m_month by lia. cbn [match_dash].
  rewrite <- fmt_0d_2 by lia.
  rewrite match_d_day by lia.
  unfold valid_date in V'; simpl in V'. now rewrite V'.
Qed.

Lemma strptime_valid (s : string) (d : date) :
  strptime s = Ok d -> valid_date d = true.
Proof.
  unfold strptime. destruct (strptime_fields s) as [[[y m] dd]|]; [|discriminate].
  destruct (valid_ymd y m dd) eqn:V; [|discriminate].
  intros [= <-]. exact V.
Qed.

Lemma compare_four_digits (a b : Z) (s t : string) :
  0 <= a <= 9999 -> 0 <= b <= 9999 ->
  String.compare (four_digits a ++ s) (four_digits b ++ t)
  = match a ?= b with
    | Eq => String.compare s t
    | c => c
    end.
Proof.
  intros Ha Hb.
  destruct (four_digits_bounds a Ha) as (A3 & A2 & A1 & A0).
  destruct (four_digits_bounds b Hb) as (B3 & B2 & B1 & B0).
  unfold four_digits. cbn [append String.compare].
  rewrite !digit_char_compare by assumption.
  destruct (Z.compare_spec (a / 1000) (b / 1000));
    [ destruct (Z.compare_spec (a / 100 mod 10) (b / 100 mod 10));
      [ destruct (Z.compare_spec (a / 10 mod 10) (b / 10 mod 10));
        [ destruct (Z.compare_spec (a mod 10) (b mod 10)) | | ] | | ] | | ];
    destruct (Z.compare_spec a b); try reflexivity;
    exfalso; Z.div_mod_to_equations; lia.
Qed.

Lemma compare_two_digits (a b : Z) (s t : string) :
  0 <= a <= 99 -> 0 <= b <= 99 ->
  String.compare (two_digits a ++ s) (two_digits b ++ t)
  = match a ?= b with
    | Eq => String.compare s t
    | c => c
    end.
Proof.
  intros Ha Hb.
  destruct (two_digits_bounds a Ha) as (A1 & A0).
  destruct (two_digits_bounds b Hb) as (B1 & B0).
  unfold two_digits. cbn [append String.compare].
  rewrite !digit_char_compare by assumption.
  destruct (Z.compare_spec (a / 10) (b / 10));
    [ destruct (Z.compare_spec (a mod 10) (b mod 10)) | | ];
    destruct (Z.compare_spec a b); try reflexivity;
    exfalso; Z.div_mod_to_equations; lia.
Qed.

Lemma append_empty (s : string) : (s ++ EmptyString)%string = s.
Proof. induction s; simpl; congruence. Qed.

(** The text order of ISO dates is the order of the dates. *)
Lemma isoformat_compare (a b : date) :
  valid_date a = true -> valid_date b = true ->
  String.compare (isoformat a) (isoformat b) = date_compare a b.
Proof.
  intros Va Vb. rewrite !isoformat_layout by assumption.
  destruct a as [y1 m1 d1], b as [y2 m2 d2].
  unfold valid_date in Va, Vb; simpl in Va, Vb.
  apply valid_ymd_iff in Va as (Hy1 & Hm1 & Hd1).
  apply valid_ymd_iff in Vb as (Hy2 & Hm2 & Hd2).
  pose proof (days_in_month_le_31 y1 m1).
  pose proof (days_in_month_le_31 y2 m2).
  unfold date_compare; cbn [year month day].
  rewrite compare_four_digits by lia.
  destruct (y1 ?= y2); try reflexivity.
  cbn [String.compare]. change (Ascii.compare "-" "-") with Eq. cbv iota.
  rewrite compare_two_digits by lia.
  destruct (m1 ?= m2); try reflexivity.
  cbn [String.compare]. change (Ascii.compare "-" "-") with Eq. cbv iota.
  rewrite <- (append_empty (two_digits d1)), <- (append_empty (two_digits d2)).
  rewrite compare_two_digits by lia.
  destruct (d1 ?= d2); reflexivity.
Qed.

Lemma isoformat_compare_ordinal (a b : date) :
  valid_date a = true -> valid_date b = true ->
  String.compare (isoformat a) (isoformat b)
  = (toordinal a ?= toordinal b).
Proof.
  intros Va Vb. rewrite isoformat_compare, toordinal_compare by assumption.
  reflexivity.
Qed.

Lemma isoformat_inj (a b : date) :
  valid_date a = true -> valid_date b = true ->
  isoformat a = isoformat b -> a = b.
Proof.
  intros Va Vb H.
  assert (E : strptime (isoformat a) = strptime (isoformat b)) by now rewrite H.
  rewrite !strptime_isoformat in E by assumption. congruence.
Qed.

End PyTextFacts.

(** * Facts about the store queries *)

Module SqliteFacts.
Import Sqlite Checks.

Section SortBy.
Context {A : Type} (cmp : A -> A -> comparison).
Hypothesis cmp_refl : forall x, cmp x x = Eq.
Hypothesis cmp_antisym : forall x y, cmp x y = CompOpp (cmp y x).
Hypothesis cmp_trans :
  forall x y z, cmp x y <> Gt -> cmp y z <> Gt -> cmp x z <> Gt.

Lemma insert_sorted_In (x y : A) (l : list A) :
  In y (insert_sorted cmp x l) <-> y = x \/ In y l.
Proof.
  induction l as [|z l IH]; simpl.
  - intuition congruence.
  - destruct (cmp z x); simpl; rewrite ?IH; intuition congruence.
Qed.

Lemma insert_sorted_head_least (x : A) (l : list A) :
  head_least cmp l -> head_least cmp (insert_sorted cmp x l).
Proof.
  destruct l as [|z l]; simpl.
  - intros _ y [<-|[]]. rewrite cmp_refl. discriminate.
  - intros Hz. destruct (cmp z x) eqn:E.
    + intros y [<-|Hy]; [rewrite cmp_refl; discriminate|].
      apply insert_sorted_In in Hy as [->|Hy];
        [rewrite E; discriminate | apply Hz; now right].
    + intros y [<-|Hy]; [rewrite cmp_refl; discriminate|].
      apply insert_sorted_In in Hy as [->|Hy];
        [rewrite E; discriminate | apply Hz; now right].
    + assert (Hxz : cmp x z <> Gt)
        by (rewrite cmp_antisym, E; discriminate).
      intros y [<-|Hy]; [rewrite cmp_refl; discriminate|].
      apply cmp_trans with z; [exact Hxz | now apply Hz].
Qed.

Lemma fold_insert_In (l acc : list A) (y : A) :
  In y (fold_left (fun acc x => insert_sorted cmp x acc) l acc)
  <-> In y l \/ In y acc.
Proof.
  revert acc. induction l as [|x l IH]; simpl; intros acc.
  - intuition.
  - rewrite IH, insert_sorted_In. intuition.
Qed.

Lemma fold_insert_head_least (l acc : list A) :
  head_least cmp acc ->
  head_least cmp (fold_left (fun acc x => insert_sorted cmp x acc) l acc).
Proof.
  revert acc. induction l as [|x l IH]; simpl; intros acc H; [exact H|].
  apply IH, insert_sorted_head_least, H.
Qed.

Lemma sort_by_In (l : list A) (y : A) : In y (sort_by cmp l) <-> In y l.
Proof. unfold sort_by. rewrite fold_insert_In. simpl. intuition. Qed.

Lemma sort_by_nil (l : list A) : sort_by cmp l = [] <-> l = [].
Proof.
  split; [|intros ->; reflexivity].
  intros H. destruct l as [|x l]; [reflexivity|].
  assert (In x (sort_by cmp (x :: l))) by (apply sort_by_In; now left).
  rewrite H in *. contradiction.
Qed.

(** The first row of the sorted rows is one of the rows, and none of
    the rows comes before it in the order. *)
Lemma sort_by_head (l : list A) (x : A) (rest : list A) :
  sort_by cmp l = x :: rest ->
  In x l /\ forall y, In y l -> cmp x y <> Gt.
Proof.
  intros H.
  assert (HL : head_least cmp (sort_by cmp l))
    by (apply fold_insert_head_least; exact I).
  split.
  - apply sort_by_In. rewrite H. now left.
  - intros y Hy. rewrite H in HL. apply HL.
    rewrite <- H. now apply sort_by_In.
Qed.
End SortBy.

Lemma string_compare_refl (s : string) : String.compare s s = Eq.
Proof.
  induction s as [|c s IH]; simpl; [reflexivity|].
  unfold Ascii.compare. now rewrite N.compare_refl.
Qed.

Lemma string_compare_trans (a b c : string) :
  String.compare a b <> Gt -> String.compare b c <> Gt ->
  String.compare a c <> Gt.
Proof.
  revert b c. induction a as [|x a IH]; intros [|y b] [|z c]; simpl;
    try congruence.
  unfold Ascii.compare.
  destruct (N.compare_spec (N_of_ascii x) (N_of_ascii y)) as [E1|L1|G1];
    destruct (N.compare_spec (N_of_ascii y) (N_of_ascii z)) as [E2|L2|G2];
    try congruence;
    destruct (N.compare_spec (N_of_ascii x) (N_of_ascii z)) as [E3|L3|G3];
    try congruence; try lia.
  apply IH.
Qed.

(** ORDER BY <text> DESC puts first a row whose text no other row
    exceeds. *)
Lemma order_by_text_desc_head {A} (key : A -> string) (l : list A)
  (x : A) (rest : list A) :
  order_by_text_desc key l = x :: rest ->
  In x l /\ forall y, In y l -> String.compare (key y) (key x) <> Gt.
Proof.
  unfold order_by_text_desc. intros H.
  apply sort_by_head in H; [exact H | | | ].
  - intros a. apply string_compare_refl.
  - intros a b. apply String.compare_antisym.
  - intros a b c. simpl. intros H1 H2.
    exact (string_compare_trans _ _ _ H2 H1).
Qed.

Lemma order_by_text_desc_nil {A} (key : A -> string) (l : list A) :
  order_by_text_desc key l = [] <-> l = [].
Proof. apply sort_by_nil. Qed.

End SqliteFacts.

(** * The due date and the D-day *)

Module DueDate.
Import Datetime PyText Sqlite App Routes Checks Examples.
Import DatetimeFacts PyTextFacts SqliteFacts.

Lemma last_dose_log_head (db : DB) (cid : Z) :
  last_dose_log db cid
  = option_map (fun l => (l_taken_date l, l_taken_week l))
      (hd_error
         (order_by_text_desc l_taken_date
            (filter (fun l => l_customer_id l =? cid) (DoseLogs db)))).
Proof.
  unfold last_dose_log, fetchone.
  destruct (order_by_text_desc _ _) as [|l rest]; reflexivity.
Qed.

Lemma last_dose_log_none (db : DB) (cid : Z) :
  last_dose_log db cid = None
  <-> forall l, In l (DoseLogs db) -> l_customer_id l <> cid.
Proof.
  rewrite last_dose_log_head.
  destruct (order_by_text_desc _ _) as [|l rest] eqn:E; simpl.
  - apply order_by_text_desc_nil in E. split; [intros _|reflexivity].
    intros l Hl Hc.
    assert (In l (filter (fun l => l_customer_id l =? cid) (DoseLogs db)))
      by (apply filter_In; split; [exact Hl | now apply Z.eqb_eq]).
    rewrite E in *. contradiction.
  - split; [discriminate|]. intros H. exfalso.
    apply order_by_text_desc_head in E as [Hin _].
    apply filter_In in Hin as [Hin Hc]. apply Z.eqb_eq in Hc.
    exact (H l Hin Hc).
Qed.

(** The row [check_and_notify] reads is a dose log of the customer whose
    taken_date text no other dose log of the customer exceeds. *)
Lemma last_dose_log_some (db : DB) (cid : Z) (td : string) (tw : option Z) :
  last_dose_log db cid = Some (td, tw) ->
  exists l,
    In l (DoseLogs db) /\ l_customer_id l = cid
    /\ l_taken_date l = td /\ l_taken_week l = tw
    /\ forall l', In l' (DoseLogs db) -> l_customer_id l' = cid ->
                  String.compare (l_taken_date l') td <> Gt.
Proof.
  rewrite last_dose_log_head.
  destruct (order_by_text_desc _ _) as [|l rest] eqn:E; simpl; [discriminate|].
  intros [= <- <-].
  apply order_by_text_desc_head in E as [Hin Hmax].
  apply filter_In in Hin as [Hin Hc]. apply Z.eqb_eq in Hc.
  exists l. repeat split; auto.
  intros l' Hl' Hc'. apply Hmax, filter_In. split; [exact Hl'|].
  now apply Z.eqb_eq.
Qed.

Lemma timedelta_days_ok (n : Z) :
  - MAX_DELTA_DAYS <= n <= MAX_DELTA_DAYS ->
  timedelta_days n = Ok (mktimedelta n).
Proof.
  intros H. unfold timedelta_days.
  destruct (Z.leb_spec (- MAX_DELTA_DAYS) n), (Z.leb_spec n MAX_DELTA_DAYS);
    cbn [andb]; try reflexivity; lia.
Qed.

Lemma date_add_ok (d : date) (n : Z) :
  1 <= toordinal d + n <= MAXORDINAL ->
  date_add d (mktimedelta n) = Ok (fromordinal (toordinal d + n)).
Proof.
  intros H. unfold date_add; cbn [days].
  destruct (Z.ltb_spec 0 (toordinal d + n)),
    (Z.leb_spec (toordinal d + n) MAXORDINAL); cbn [andb];
    try reflexivity; lia.
Qed.

Lemma date_add_overflow (d : date) (n : Z) :
  ~ 1 <= toordinal d + n <= MAXORDINAL ->
  date_add d (mktimedelta n) = Raise OverflowError.
Proof.
  intros H. unfold date_add; cbn [days].
  destruct (Z.ltb_spec 0 (toordinal d + n)),
    (Z.leb_spec (toordinal d + n) MAXORDINAL); cbn [andb];
    try reflexivity; lia.
Qed.

Lemma date_add_spec (d : date) (t : timedelta) (d' : date) :
  date_add d t = Ok d' ->
  valid_date d' = true /\ toordinal d' = toordinal d + days t.
Proof.
  unfold date_add.
  destruct (Z.ltb_spec 0 (toordinal d + days t)),
    (Z.leb_spec (toordinal d + days t) MAXORDINAL); cbn [andb];
    try discriminate.
  intros [= <-]. split.
  - apply fromordinal_valid. lia.
  - apply toordinal_fromordinal. lia.
Qed.

(** Between two dates the difference never overflows. *)
Lemma d_day_of_valid (next_date today : date) :
  valid_date next_date = true -> valid_date today = true ->
  d_day_of next_date today = Ok (toordinal next_date - toordinal today).
Proof.
  intros V1 V2. unfold d_day_of, date_sub.
  pose proof (toordinal_range _ V1). pose proof (toordinal_range _ V2).
  rewrite timedelta_days_ok; [reflexivity|].
  unfold MAXORDINAL, MAX_DELTA_DAYS in *. lia.
Qed.

(** The common tail of the three computations: last date plus
    [weeks] weeks, and the D-day. *)
Lemma plus_weeks_ok (last today : date) (weeks : Z) :
  valid_date last = true -> valid_date today = true ->
  1 <= toordinal last + 7 * weeks <= MAXORDINAL ->
  exists next_date,
    (let? delta := timedelta_weeks weeks in
     let? next_date := date_add last delta in
     let? d_day := d_day_of next_date today in
     Ok (next_date, d_day))
    = Ok (next_date, toordinal next_date - toordinal today)
    /\ valid_date next_date = true
    /\ toordinal next_date = toordinal last + 7 * weeks.
Proof.
  intros V1 V2 R. pose proof (toordinal_range _ V1) as R1.
  exists (fromordinal (toordinal last + 7 * weeks)).
  assert (V : valid_date (fromordinal (toordinal last + 7 * weeks)) = true)
    by now apply fromordinal_valid.
  unfold timedelta_weeks. rewrite timedelta_days_ok
    by (unfold MAXORDINAL, MAX_DELTA_DAYS in *; lia).
  cbn [rbind]. rewrite date_add_ok by assumption. cbn [rbind].
  rewrite d_day_of_valid by assumption. cbn [rbind].
  repeat split; auto. now apply toordinal_fromordinal.
Qed.

Lemma plus_weeks_overflow (last today : date) (weeks : Z) :
  ~ 1 <= toordinal last + 7 * weeks <= MAXORDINAL ->
  (let? delta := timedelta_weeks weeks in
   let? next_date := date_add last delta in
   let? d_day := d_day_of next_date today in
   Ok (next_date, d_day))
  = Raise OverflowError.
Proof.
  intros R. unfold timedelta_weeks, timedelta_days.
  destruct ((- MAX_DELTA_DAYS <=? 7 * weeks) && (7 * weeks <=? MAX_DELTA_DAYS));
    cbn [rbind]; [|reflexivity].
  now rewrite date_add_overflow.
Qed.

(** C7. For valid dates the D-day is the signed number of days from
    [today] to the due date: it never fails, adding it to [today] gives
    the due date, it is zero exactly when [today] is the due date, and it
    is one less on the day after [today]. *)
Theorem d_day_is_day_difference (due today : date) :
  valid_date due = true -> valid_date today = true ->
  d_day_of due today = Ok (toordinal due - toordinal today)
  /\ date_add today (mktimedelta (toordinal due - toordinal today)) = Ok due
  /\ (toordinal due - toordinal today = 0 <-> today = due)
  /\ (forall tomorrow,
        date_add today (mktimedelta 1) = Ok tomorrow ->
        d_day_of due tomorrow = Ok (toordinal due - toordinal today - 1)).
Proof.
  intros Vd Vt. pose proof (toordinal_range _ Vd) as Rd.
  split; [now apply d_day_of_valid|]. split; [|split].
  - rewrite date_add_ok by lia.
    replace (toordinal today + (toordinal due - toordinal today))
      with (toordinal due) by lia.
    now rewrite fromordinal_toordinal.
  - split; [|intros ->; lia].
    intros H. apply toordinal_inj; auto. lia.
  - intros tomorrow H. apply date_add_spec in H as [Vn En].
    rewrite d_day_of_valid by assumption. cbn [days] in En.
    f_equal. lia.
Qed.

Lemma d_day_is_day_difference_witness :
  d_day_of (mkdate 2024 2 29) (mkdate 2024 2 22)
  = Ok (toordinal (mkdate 2024 2 29) - toordinal (mkdate 2024 2 22))
  /\ date_add (mkdate 2024 2 22)
       (mktimedelta
          (toordinal (mkdate 2024 2 29) - toordinal (mkdate 2024 2 22)))
     = Ok (mkdate 2024 2 29)
  /\ (toordinal (mkdate 2024 2 29) - toordinal (mkdate 2024 2 22) = 0
      <-> mkdate 2024 2 22 = mkdate 2024 2 29)
  /\ (forall tomorrow,
        date_add (mkdate 2024 2 22) (mktimedelta 1) = Ok tomorrow ->
        d_day_of (mkdate 2024 2 29) tomorrow
        = Ok (toordinal (mkdate 2024 2 29) - toordinal (mkdate 2024 2 22)
              - 1)).
Proof.
  apply (d_day_is_day_difference (mkdate 2024 2 29) (mkdate 2024 2 22));
    reflexivity.
Defined.

Lemma week_or_default_nonzero (w : Z) :
  w <> 0 -> week_or_default (Some w) = w.
Proof.
  intros H. unfold week_or_default.
  destruct (Z.eqb_spec w 0); [contradiction | reflexivity].
Qed.

(** C1, at interval 0. For a dose log with interval 0 the due date of
    [check_and_notify] is the taken date plus 28 days, not the taken date
    plus 0 times 7 days. *)
Lemma notify_due_zero_interval :
  last_dose_log db_zero_interval 1 = Some ("2024-02-01", Some 0)
  /\ strptime "2024-02-01" = Ok (mkdate 2024 2 1)
  /\ notify_due (last_dose_log db_zero_interval 1) "2024-02-01"
       (mkdate 2024 2 1)
     = Ok (mkdate 2024 2 29, 28)
  /\ toordinal (mkdate 2024 2 29) <> toordinal (mkdate 2024 2 1) + 7 * 0.
Proof. repeat split; vm_compute; congruence. Qed.

(** The dose logs are ordered as text: a taken date that [strptime]
    accepts but that is not zero-padded can come first without being the
    latest. *)
Lemma unpadded_month_misorders :
  strptime "2024-9-01" = Ok (mkdate 2024 9 1)
  /\ strptime "2024-10-01" = Ok (mkdate 2024 10 1)
  /\ last_dose_log db_unpadded 1 = Some ("2024-9-01", Some 4).
Proof. repeat split; vm_compute; reflexivity. Qed.

(** C1. When the customer's dose logs carry ISO dates,
    [check_and_notify] reads a dose log with the latest taken date; the
    due date is that date plus 7 days for each week of the interval when
    the interval is a non-zero integer, and plus 28 days when it is 0 or
    NULL, provided the sum is a date up to 9999-12-31 ([OverflowError]
    otherwise). *)
Theorem notify_due_latest (db : DB) (cid : Z) (start_date : string)
  (today : date) :
  valid_date today = true ->
  (forall l, In l (DoseLogs db) -> l_customer_id l = cid ->
             exists d, valid_date d = true /\ l_taken_date l = isoformat d) ->
  (exists l, In l (DoseLogs db) /\ l_customer_id l = cid) ->
  exists l taken,
    In l (DoseLogs db) /\ l_customer_id l = cid
    /\ last_dose_log db cid = Some (l_taken_date l, l_taken_week l)
    /\ valid_date taken = true /\ l_taken_date l = isoformat taken
    /\ (forall l' d',
          In l' (DoseLogs db) -> l_customer_id l' = cid ->
          valid_date d' = true -> l_taken_date l' = isoformat d' ->
          toordinal d' <= toordinal taken)
    /\ (forall w, l_taken_week l = Some w -> w <> 0 ->
                  week_or_default (l_taken_week l) = w)
    /\ (l_taken_week l = Some 0 \/ l_taken_week l = None ->
        week_or_default (l_taken_week l) = 4)
    /\ (1 <= toordinal taken + 7 * week_or_default (l_taken_week l)
            <= MAXORDINAL ->
        exists next_date,
          notify_due (last_dose_log db cid) start_date today
          = Ok (next_date, toordinal next_date - toordinal today)
          /\ valid_date next_date = true
          /\ toordinal next_date
             = toordinal taken + 7 * week_or_default (l_taken_week l))
    /\ (~ 1 <= toordinal taken + 7 * week_or_default (l_taken_week l)
              <= MAXORDINAL ->
        notify_due (last_dose_log db cid) start_date today
        = Raise OverflowError).
Proof.
  intros Vt Hiso [l0 [Hin0 Hc0]].
  destruct (last_dose_log db cid) as [[td tw]|] eqn:E.
  2:{ exfalso. exact (proj1 (last_dose_log_none db cid) E l0 Hin0 Hc0). }
  apply last_dose_log_some in E as (l & Hin & Hc & Htd & Htw & Hmax).
  destruct (Hiso l Hin Hc) as (taken & Vtaken & Etaken).
  exists l, taken. subst td tw.
  split; [exact Hin|]. split; [exact Hc|]. split; [reflexivity|].
  split; [exact Vtaken|]. split; [exact Etaken|].
  split.
  { intros l' d' Hin' Hc' Vd' Ed'.
    specialize (Hmax l' Hin' Hc'). rewrite Ed', Etaken in Hmax.
    rewrite isoformat_compare_ordinal in Hmax by assumption.
    apply Z.compare_le_iff. exact Hmax. }
  split.
  { intros w Hw Hnz. rewrite Hw. now apply week_or_default_nonzero. }
  split.
  { intros [H|H]; rewrite H; reflexivity. }
  unfold notify_due. rewrite Etaken, strptime_isoformat by assumption.
  cbn [rbind]. split.
  - intros R. now apply plus_weeks_ok.
  - intros R. now apply plus_weeks_overflow.
Qed.

Lemma notify_due_latest_witness :
  exists l taken,
    In l (DoseLogs db_two_logs) /\ l_customer_id l = 1
    /\ last_dose_log db_two_logs 1 = Some (l_taken_date l, l_taken_week l)
    /\ valid_date taken = true /\ l_taken_date l = isoformat taken
    /\ (forall l' d',
          In l' (DoseLogs db_two_logs) -> l_customer_id l' = 1 ->
          valid_date d' = true -> l_taken_date l' = isoformat d' ->
          toordinal d' <= toordinal taken)
    /\ (forall w, l_taken_week l = Some w -> w <> 0 ->
                  week_or_default (l_taken_week l) = w)
    /\ (l_taken_week l = Some 0 \/ l_taken_week l = None ->
        week_or_default (l_taken_week l) = 4)
    /\ (1 <= toordinal taken + 7 * week_or_default (l_taken_week l)
            <= MAXORDINAL ->
        exists next_date,
          notify_due (last_dose_log db_two_logs 1) "2024-01-04"
            (mkdate 2024 2 22)
          = Ok (next_date, toordinal next_date - toordinal (mkdate 2024 2 22))
          /\ valid_date next_date = true
          /\ toordinal next_date
             = toordinal taken + 7 * week_or_default (l_taken_week l))
    /\ (~ 1 <= toordinal taken + 7 * week_or_default (l_taken_week l)
              <= MAXORDINAL ->
        notify_due (last_dose_log db_two_logs 1) "2024-01-04"
          (mkdate 2024 2 22)
        = Raise OverflowError).
Proof.
  apply (notify_due_latest db_two_logs 1 "2024-01-04" (mkdate 2024 2 22)).
  - reflexivity.
  - intros l [<-|[<-|[]]] _.
    + exists (mkdate 2024 1 4). split; reflexivity.
    + exists (mkdate 2024 2 1). split; reflexivity.
  - eexists. split; [left; reflexivity | reflexivity].
Defined.

(** C2, at the end of the calendar. For a customer without dose logs
    enrolled on 9999-12-31 the computation raises [OverflowError], in
    [check_and_notify] and in [index], instead of returning a date. *)
Lemma no_dose_log_last_day_overflows :
  last_dose_log db_last_day 1 = None
  /\ strptime "9999-12-31" = Ok (mkdate 9999 12 31)
  /\ notify_due (last_dose_log db_last_day 1) "9999-12-31" (mkdate 2024 1 1)
     = Raise OverflowError
  /\ index_due (last_dose_log db_last_day 1) "9999-12-31" (mkdate 2024 1 1)
     = Raise OverflowError.
Proof. repeat split; vm_compute; reflexivity. Qed.

(** C2. For a customer without dose logs whose start date is
    an ISO date no later than 28 days before 9999-12-31, the due date of
    [check_and_notify] and of [index] is the start date plus 28 days;
    for a later start date both raise [OverflowError], and for a start
    date that does not parse both raise what [strptime] raises. *)
Theorem no_dose_log_due (db : DB) (cid : Z) (start_date : string)
  (today : date) :
  valid_date today = true ->
  (forall l, In l (DoseLogs db) -> l_customer_id l <> cid) ->
  last_dose_log db cid = None
  /\ (forall start,
        strptime start_date = Ok start ->
        toordinal start + 28 <= MAXORDINAL ->
        exists next_date,
          notify_due (last_dose_log db cid) start_date today
          = Ok (next_date, toordinal next_date - toordinal today)
          /\ index_due (last_dose_log db cid) start_date today
             = Ok (next_date, toordinal next_date - toordinal today)
          /\ valid_date next_date = true
          /\ toordinal next_date = toordinal start + 28)
  /\ (forall start,
        strptime start_date = Ok start ->
        MAXORDINAL < toordinal start + 28 ->
        notify_due (last_dose_log db cid) start_date today
        = Raise OverflowError
        /\ index_due (last_dose_log db cid) start_date today
           = Raise OverflowError)
  /\ (forall e,
        strptime start_date = Raise e ->
        notify_due (last_dose_log db cid) start_date today = Raise e
        /\ index_due (last_dose_log db cid) start_date today = Raise e).
Proof.
  intros Vt Hnone.
  assert (E : last_dose_log db cid = None) by now apply last_dose_log_none.
  rewrite E. split; [reflexivity|].
  unfold notify_due, index_due. split; [|split].
  - intros start Hs R. rewrite Hs. cbn [rbind].
    pose proof (strptime_valid _ _ Hs) as Vs.
    pose proof (toordinal_range _ Vs) as Rs.
    destruct (plus_weeks_ok start today 4 Vs Vt ltac:(lia))
      as (next_date & Hrun & Vn & En).
    exists next_date. rewrite Hrun. repeat split; auto.
  - intros start Hs R. rewrite Hs. cbn [rbind].
    rewrite (plus_weeks_overflow start today 4) by lia. split; reflexivity.
  - intros e He. rewrite He. split; reflexivity.
Qed.

Lemma no_dose_log_due_witness :
  last_dose_log db_no_logs 1 = None
  /\ (forall start,
        strptime "2024-01-01" = Ok start ->
        toordinal start + 28 <= MAXORDINAL ->
        exists next_date,
          notify_due (last_dose_log db_no_logs 1) "2024-01-01"
            (mkdate 2024 1 29)
          = Ok (next_date, toordinal next_date - toordinal (mkdate 2024 1 29))
          /\ index_due (last_dose_log db_no_logs 1) "2024-01-01"
               (mkdate 2024 1 29)
             = Ok (next_date,
                   toordinal next_date - toordinal (mkdate 2024 1 29))
          /\ valid_date next_date = true
          /\ toordinal next_date = toordinal start + 28)
  /\ (forall start,
        strptime "2024-01-01" = Ok start ->
        MAXORDINAL < toordinal start + 28 ->
        notify_due (last_dose_log db_no_logs 1) "2024-01-01"
          (mkdate 2024 1 29)
        = Raise OverflowError
        /\ index_due (last_dose_log db_no_logs 1) "2024-01-01"
             (mkdate 2024 1 29)
           = Raise OverflowError)
  /\ (forall e,
        strptime "2024-01-01" = Raise e ->
        notify_due (last_dose_log db_no_logs 1) "2024-01-01"
          (mkdate 2024 1 29) = Raise e
        /\ index_due (last_dose_log db_no_logs 1) "2024-01-01"
             (mkdate 2024 1 29) = Raise e).
Proof.
  apply (no_dose_log_due db_no_logs 1 "2024-01-01" (mkdate 2024 1 29)).
  - reflexivity.
  - intros l [].
Defined.

(** *** The three places that compute the due date *)

(** [index] and [check_and_notify] agree on every row whose interval is
    a non-zero integer, and when there is no row. *)
Lemma index_due_notify_due (last : option (string * option Z))
  (start_date : string) (today : date) :
  (forall td tw, last = Some (td, tw) -> exists w, tw = Some w /\ w <> 0) ->
  index_due last start_date today = notify_due last start_date today.
Proof.
  intros H. unfold index_due, notify_due.
  destruct last as [[td tw]|].
  - destruct (H td tw eq_refl) as (w & -> & Hw).
    rewrite week_or_default_nonzero by assumption.
    destruct (strptime td); reflexivity.
  - destruct (strptime start_date); reflexivity.
Qed.

(** What [view_customer] shows is what [check_and_notify] computes from
    the first of the customer's logs. *)
Lemma view_due_notify_due (c : Customer) (logs : list DoseLog)
  (today next_date alert_date : date) (d_day : Z) :
  view_due (Some c) logs today = Ok (next_date, alert_date, d_day) ->
  notify_due
    (option_map (fun l => (l_taken_date l, l_taken_week l)) (hd_error logs))
    (c_start_date c) today
  = Ok (next_date, d_day).
Proof.
  unfold view_due, notify_due.
  destruct logs as [|l rest]; cbn [hd_error option_map];
    match goal with
    | |- context [strptime ?s] => destruct (strptime s)
    end; cbn [rbind]; try discriminate;
    repeat match goal with
      | |- rbind ?r _ = _ -> _ => destruct r; cbn [rbind]; try discriminate
      end;
    congruence.
Qed.

Lemma insert_sorted_map {A} (cmp : A -> A -> comparison) (f : A -> A)
  (x : A) (l : list A) :
  (forall a b, cmp (f a) (f b) = cmp a b) ->
  insert_sorted cmp (f x) (map f l) = map f (insert_sorted cmp x l).
Proof.
  intros H. induction l as [|y l IH]; simpl; [reflexivity|].
  rewrite H. destruct (cmp y x); simpl; congruence.
Qed.

Lemma sort_by_map {A} (cmp : A -> A -> comparison) (f : A -> A)
  (l : list A) :
  (forall a b, cmp (f a) (f b) = cmp a b) ->
  sort_by cmp (map f l) = map f (sort_by cmp l).
Proof.
  intros H. unfold sort_by.
  change (@nil A) with (map f []) at 1. generalize (@nil A) as acc.
  induction l as [|x l IH]; intros acc; simpl; [reflexivity|].
  rewrite insert_sorted_map by assumption. apply IH.
Qed.

Lemma filter_map_commute {A} (p : A -> bool) (f : A -> A) (l : list A) :
  (forall a, p (f a) = p a) -> filter p (map f l) = map f (filter p l).
Proof.
  intros H. induction l as [|x l IH]; simpl; [reflexivity|].
  rewrite H, IH. destruct (p x); reflexivity.
Qed.

(** The extra_weeks column plays no part: the row read by
    [check_and_notify] and [index] is the same whatever it holds. *)
Lemma last_dose_log_extra_weeks (f : DoseLog -> Z) (db : DB) (cid : Z) :
  last_dose_log (with_extra_weeks f db) cid = last_dose_log db cid.
Proof.
  rewrite !last_dose_log_head. unfold with_extra_weeks; cbn [DoseLogs].
  set (g := fun l => mkDoseLog (l_id l) (l_customer_id l) (l_taken_date l)
                       (l_taken_week l) (l_note l) (f l)).
  rewrite (filter_map_commute _ g) by reflexivity.
  unfold order_by_text_desc.
  rewrite (sort_by_map _ g) by reflexivity.
  destruct (sort_by _ _) as [|l rest]; reflexivity.
Qed.

(** C10, at interval 0. For a dose log with interval 0
    [index] takes the due date to be the taken date itself, D-day 0,
    while [check_and_notify] and [view_customer] add 28 days, D-day 28. *)
Theorem due_date_sites_disagree :
  last_dose_log db_zero_interval 1 = Some ("2024-02-01", Some 0)
  /\ notify_due (last_dose_log db_zero_interval 1) "2024-02-01"
       (mkdate 2024 2 1)
     = Ok (mkdate 2024 2 29, 28)
  /\ index_due (last_dose_log db_zero_interval 1) "2024-02-01"
       (mkdate 2024 2 1)
     = Ok (mkdate 2024 2 1, 0)
  /\ index (mkdate 2024 2 1) db_zero_interval
     = Ok (render_index [mkEntry 1 "kim" "010" "2024-02-01" 0])
  /\ view_customer (mkdate 2024 2 1) 1 db_zero_interval
     = Ok (render_customer
             (Some (mkCustomer 1 "kim" "010" "2024-02-01" 1))
             (DoseLogs db_zero_interval)
             (mkdate 2024 2 29) (mkdate 2024 2 22) 28).
Proof. repeat split; vm_compute; reflexivity. Qed.

End DueDate.

(** * The notification job *)

Module Notify.
Import Datetime PyText Sqlite App Checks Runs Examples.

Lemma already_notified_none (db : DB) (cid : Z) (t d : string) :
  already_notified db cid t d = None <-> ~ In (cid, t, d) (log_keys db).
Proof.
  unfold already_notified, log_keys, fetchone.
  induction (NotificationLogs db) as [|n l IH]; simpl; [tauto|].
  destruct ((n_customer_id n =? cid) && String.eqb (n_notify_type n) t
            && String.eqb (n_notify_date n) d) eqn:E; simpl.
  - apply andb_prop in E as [E1 E3]. apply andb_prop in E1 as [E1 E2].
    apply Z.eqb_eq in E1. apply String.eqb_eq in E2, E3.
    split; [discriminate|]. intros H. exfalso. apply H. left.
    unfold log_key. congruence.
  - rewrite IH. split; [|tauto].
    intros H [Hk|Hk]; [|tauto].
    unfold log_key in Hk. injection Hk as <- <- <-.
    now rewrite Z.eqb_refl, !String.eqb_refl in E.
Qed.

Lemma already_notified_some (db : DB) (cid : Z) (t d : string) :
  (exists v, already_notified db cid t d = Some v)
  <-> In (cid, t, d) (log_keys db).
Proof.
  pose proof (already_notified_none db cid t d) as H.
  destruct (already_notified db cid t d) as [v|].
  - split; [intros _|eauto].
    destruct (in_dec (fun a b : triple =>
                        ltac:(decide equality;
                              [apply string_dec
                              | decide equality;
                                [apply string_dec | apply Z.eq_dec]]))
                (cid, t, d) (log_keys db)) as [Hin|Hn]; [exact Hin|].
    apply H in Hn. discriminate.
  - split; [intros [v Hv]; discriminate|].
    intros Hin. exfalso. now apply (proj1 H).
Qed.

Lemma sent_keys_app (a b : list send_record) :
  sent_keys (a ++ b) = sent_keys a ++ sent_keys b.
Proof. unfold sent_keys. now rewrite filter_app, map_app. Qed.

Lemma log_keys_insert (db : DB) (cid : Z) (t d now : string) :
  log_keys (insert_notification cid t d now db) = log_keys db ++ [(cid, t, d)].
Proof. unfold log_keys, insert_notification; simpl. now rewrite map_app. Qed.

(** ** The relation [evolves] *)

Lemma evolves_refl (env : environ) (s : state) : evolves env s s.
Proof.
  unfold evolves. do 6 (split; [auto|]).
  exists []. rewrite !app_nil_r. do 3 (split; [auto|]).
  intros _. split; [reflexivity | intros r []].
Qed.

Lemma evolves_trans (env : environ) (s1 s2 s3 : state) :
  evolves env s1 s2 -> evolves env s2 s3 -> evolves env s1 s3.
Proof.
  intros (C1 & CS1 & D1 & DS1 & K1 & I1 & new1 & H1 & L1 & N1 & U1)
         (C2 & CS2 & D2 & DS2 & K2 & I2 & new2 & H2 & L2 & N2 & U2).
  unfold evolves.
  split; [congruence|]. split; [congruence|]. split; [congruence|].
  split; [congruence|]. split; [auto|]. split; [auto|].
  exists (new1 ++ new2). rewrite sent_keys_app.
  split; [rewrite H2, H1; now rewrite app_assoc|].
  split; [rewrite L2, L1; now rewrite app_assoc|].
  split.
  { intros E. now rewrite N1, N2. }
  intros E. apply app_eq_nil in E as [E1 E2].
  destruct (U1 E1) as [W1 F1]. destruct (U2 E2) as [W2 F2].
  split; [congruence|].
  intros r Hr. apply in_app_or in Hr as [Hr|Hr]; [now apply F1|].
  rewrite <- W1. now apply F2.
Qed.

Lemma evolves_bind {A B} (env : environ) (m : M A) (k : A -> M B)
  (s : state) :
  evolves env s (snd (m s)) ->
  (forall a s', evolves env s' (snd (k a s'))) ->
  evolves env s (snd (bind m k s)).
Proof.
  intros Hm Hk. unfold bind. destruct (m s) as [[a|e] s']; simpl in *.
  - eapply evolves_trans; [exact Hm | apply Hk].
  - exact Hm.
Qed.

Lemma evolves_for_each {A} (env : environ) (body : A -> M unit)
  (l : list A) :
  (forall x s, evolves env s (snd (body x s))) ->
  forall s, evolves env s (snd (for_each l body s)).
Proof.
  intros Hb. induction l as [|x l IH]; intros s; simpl.
  - apply evolves_refl.
  - apply evolves_bind; [apply Hb | intros _ s'; apply IH].
Qed.

Lemma NoDup_snoc {A} (l : list A) (a : A) :
  NoDup l -> ~ In a l -> NoDup (l ++ [a]).
Proof.
  induction l as [|x l IH]; simpl; intros N H.
  - constructor; [intros [] | constructor].
  - inversion N as [|? ? Hx Nl]; subst. constructor.
    + intros Hin. apply in_app_or in Hin as [Hin|[->|[]]]; [tauto|].
      apply H. now left.
    + apply IH; [exact Nl | tauto].
Qed.

Lemma cannot_send_false (env : environ) (smtp : transport) (calls : nat)
  (subject body : string) :
  cannot_send env = true ->
  send_email_smtp env smtp calls
    (environ_get_default env "NOTIFY_EMAIL" "ljwljw2869@gmail.com")
    subject body
  <> Ok true.
Proof.
  unfold cannot_send, send_email_smtp. intros H.
  destruct (match environ_get env "EMAIL_PORT" with
            | Some p => int_of_str p
            | None => Ok 465
            end); cbn [rbind]; [|discriminate].
  destruct (negb (truthy (environ_get env "EMAIL_USER"))
            || negb (truthy (environ_get env "EMAIL_PASS"))) eqn:E1;
    [discriminate|].
  cbn [orb] in H. rewrite H. discriminate.
Qed.

(** After the duplicate check has passed, sending and recording keeps to
    [evolves]. *)
Lemma send_and_record_evolves (env : environ) (smtp : transport)
  (now : string) (cid : Z) (name : string) (next_date : date)
  (d_day nd : Z) (s : state) :
  ~ In (cid, notify_type_of nd, isoformat next_date) (log_keys (working s)) ->
  evolves env s
    (snd (send_and_record env smtp now cid name next_date d_day nd s)).
Proof.
  intros Hnew.
  unfold send_and_record, bind, sends_so_far, lift, log_send, write, commit,
    ret.
  match goal with
  | |- context [send_email_smtp env smtp ?c ?t ?sb ?bd] =>
      pose proof (cannot_send_false env smtp c sb bd) as Hcs;
      destruct (send_email_smtp env smtp c t sb bd) as [[|]|e]
  end; cbn [snd working committed history].
  - (* sent *)
    unfold evolves. cbn [working committed history].
    do 4 (split; [reflexivity|]). split; [reflexivity|]. split.
    { intros (N1 & N2 & N3). unfold notify_inv.
      rewrite log_keys_insert, sent_keys_app.
      change (sent_keys [mkSend cid (notify_type_of nd) (isoformat next_date) true])
        with [(cid, notify_type_of nd, isoformat next_date)].
      split; [|split].
      - now apply NoDup_snoc.
      - apply NoDup_snoc; [exact N2 | intros H; apply Hnew, N3, H].
      - intros k Hk. apply in_app_or in Hk as [Hk|Hk]; apply in_or_app;
          [left; now apply N3 | right; exact Hk]. }
    exists [mkSend cid (notify_type_of nd) (isoformat next_date) true].
    split; [reflexivity|]. split; [apply log_keys_insert|]. split.
    { intros Hc. exfalso. now apply (Hcs Hc). }
    discriminate.
  - (* not sent *)
    unfold evolves. cbn [working committed history].
    do 4 (split; [reflexivity|]). split; [auto|]. split.
    { intros (N1 & N2 & N3). unfold notify_inv.
      rewrite sent_keys_app. cbn. rewrite app_nil_r. auto. }
    exists [mkSend cid (notify_type_of nd) (isoformat next_date) false].
    split; [reflexivity|]. split; [cbn; now rewrite app_nil_r|].
    split; [reflexivity|]. intros _. split; [reflexivity|].
    intros r [<-|[]]. exact Hnew.
  - (* the call raised *)
    apply evolves_refl.
Qed.

Lemma notify_milestone_evolves (env : environ) (smtp : transport)
  (now : string) (cid : Z) (name : string) (next_date : date)
  (d_day nd : Z) (s : state) :
  evolves env s
    (snd (notify_milestone env smtp now cid name next_date d_day nd s)).
Proof.
  unfold notify_milestone, bind, read. cbn [fst snd].
  destruct (already_notified (working s) cid (notify_type_of nd)
              (isoformat next_date)) eqn:E.
  - apply evolves_refl.
  - apply send_and_record_evolves. now apply already_notified_none.
Qed.

Lemma notify_milestones_evolves (env : environ) (smtp : transport)
  (now : string) (cid : Z) (name : string) (next_date : date)
  (d_day : Z) (s : state) :
  evolves env s
    (snd (notify_milestones env smtp now cid name next_date d_day s)).
Proof.
  unfold notify_milestones. apply evolves_for_each. intros nd s'.
  destruct (d_day =? nd); [apply notify_milestone_evolves | apply evolves_refl].
Qed.

Lemma notify_customer_evolves (env : environ) (smtp : transport)
  (clk : clock) (cust : Z * string * string * string) (s : state) :
  evolves env s (snd (notify_customer env smtp clk cust s)).
Proof.
  destruct cust as [[[cid name] contact] start_date].
  unfold notify_customer. apply evolves_bind; [apply evolves_refl|].
  intros last s1. apply evolves_bind; [apply evolves_refl|].
  intros [next_date d_day] s2. apply notify_milestones_evolves.
Qed.

Lemma check_and_notify_body_evolves (env : environ) (smtp : transport)
  (clk : clock) (s : state) :
  evolves env s (snd (check_and_notify_body env smtp clk s)).
Proof.
  unfold check_and_notify_body. apply evolves_bind; [apply evolves_refl|].
  intros customers s1. apply evolves_for_each. intros cust s2.
  apply notify_customer_evolves.
Qed.

(** A run ends with everything committed, so the store it leaves is the
    same whether it returned or raised. *)
Lemma check_and_notify_state (env : environ) (smtp : transport)
  (clk : clock) (db : DB) (h : list send_record) (r : result unit)
  (db' : DB) (h' : list send_record) :
  check_and_notify env smtp clk db h = (r, db', h') ->
  evolves env (mkState db db h) (mkState db' db' h').
Proof.
  unfold check_and_notify, with_connection. intros H.
  pose proof (check_and_notify_body_evolves env smtp clk (mkState db db h))
    as E.
  destruct (check_and_notify_body env smtp clk (mkState db db h))
    as [[u|e] [c w hh]]; cbn [snd] in E;
    injection H as <- <- <-; cbn [working committed history];
    pose proof E as (_ & _ & _ & _ & K & _); cbn [working committed] in K;
    rewrite ?(K eq_refl); try rewrite (K eq_refl) in E; exact E.
Qed.

(** ** Which milestones fire *)

Lemma unit_run (m : M unit) (s : state) :
  bind m (fun _ => ret tt) s = m s.
Proof. unfold bind, ret. destruct (m s) as [[[]|e] s']; reflexivity. Qed.

Lemma unit_run_ext (m : M unit) (k : unit -> M unit) (s : state) :
  (forall u s', k u s' = (Ok tt, s')) -> bind m k s = m s.
Proof.
  intros H. unfold bind. destruct (m s) as [[[]|e] s']; [apply H|reflexivity].
Qed.

Lemma ret_bind {A B} (a : A) (k : A -> M B) (s : state) :
  bind (ret a) k s = k a s.
Proof. reflexivity. Qed.

Lemma notify_milestone_run (env : environ) (smtp : transport)
  (now : string) (cid : Z) (name : string) (next_date : date)
  (d_day nd : Z) (s : state) :
  notify_milestone env smtp now cid name next_date d_day nd s
  = match already_notified (working s) cid (notify_type_of nd)
            (isoformat next_date) with
    | Some _ => (Ok tt, s)
    | None => send_and_record env smtp now cid name next_date d_day nd s
    end.
Proof.
  unfold notify_milestone, bind, read.
  destruct (already_notified _ _ _ _); reflexivity.
Qed.

(** C3. The milestones are 7 and 0; the loop runs the milestone body for
    exactly those milestones that equal the D-day, and when the D-day is
    neither 7 nor 0 it does nothing at all. *)
Theorem milestone_fires_on_exact_day (env : environ) (smtp : transport)
  (now : string) (cid : Z) (name : string) (next_date : date) (d_day : Z)
  (s : state) :
  notify_days = [7; 0]
  /\ (forall nd, In nd (due_milestones d_day)
                 <-> In nd notify_days /\ d_day = nd)
  /\ notify_milestones env smtp now cid name next_date d_day s
     = for_each (due_milestones d_day)
         (notify_milestone env smtp now cid name next_date d_day) s
  /\ (d_day <> 7 -> d_day <> 0 ->
      due_milestones d_day = []
      /\ notify_milestones env smtp now cid name next_date d_day s
         = (Ok tt, s)).
Proof.
  split; [reflexivity|]. split; [|split].
  - intros nd. unfold due_milestones. rewrite filter_In, Z.eqb_eq. tauto.
  - unfold notify_milestones, due_milestones, notify_days.
    cbn [for_each filter].
    destruct (Z.eqb_spec d_day 7) as [->|H7].
    + cbn [Z.eqb Pos.eqb for_each]. rewrite unit_run.
      now rewrite unit_run_ext by reflexivity.
    + destruct (Z.eqb_spec d_day 0) as [->|H0]; cbn [for_each]; reflexivity.
  - intros H7 H0. unfold notify_milestones, due_milestones, notify_days.
    cbn [for_each filter].
    destruct (Z.eqb_spec d_day 7); [contradiction|].
    destruct (Z.eqb_spec d_day 0); [contradiction|].
    split; reflexivity.
Qed.

(** ** Evaluation and suppression *)

Lemma evaluate_notifications_In (db : DB) (cid : Z) (next_date : date)
  (d_day nd : Z) :
  In nd (evaluate_notifications db cid next_date d_day)
  <-> In nd (due_milestones d_day)
      /\ ~ In (cid, notify_type_of nd, isoformat next_date) (log_keys db).
Proof.
  unfold evaluate_notifications. rewrite filter_In.
  rewrite <- already_notified_none.
  destruct (already_notified db cid (notify_type_of nd) (isoformat next_date));
    split; intros [H1 H2]; split; auto; discriminate.
Qed.

Lemma filter_ext_in_eq {A} (p q : A -> bool) (l : list A) :
  (forall x, In x l -> p x = q x) -> filter p l = filter q l.
Proof.
  induction l as [|x l IH]; simpl; intros H; [reflexivity|].
  rewrite (H x) by now left.
  rewrite IH by (intros y Hy; apply H; now right). reflexivity.
Qed.

Lemma filter_nil_iff {A} (p : A -> bool) (l : list A) :
  filter p l = [] <-> forall x, In x l -> p x = false.
Proof.
  induction l as [|x l IH]; simpl; [tauto|].
  destruct (p x) eqn:E.
  - split; [discriminate|]. intros H. specialize (H x (or_introl eq_refl)).
    congruence.
  - rewrite IH. split; [intros H y [<-|Hy]; auto | intros H y Hy; auto].
Qed.

Lemma log_keys_record_all (cid : Z) (next_date : date) (now : string)
  (nds : list Z) (db : DB) :
  log_keys (record_all cid next_date now nds db)
  = log_keys db
    ++ map (fun nd => (cid, notify_type_of nd, isoformat next_date)) nds.
Proof.
  unfold record_all. revert db.
  induction nds as [|nd nds IH]; intros db; simpl.
  - now rewrite app_nil_r.
  - rewrite IH, log_keys_insert, <- app_assoc. reflexivity.
Qed.

(** The loop sends exactly for the evaluated milestones. *)
Lemma notify_milestones_evaluate (env : environ) (smtp : transport)
  (now : string) (cid : Z) (name : string) (next_date : date) (d_day : Z)
  (s : state) :
  notify_milestones env smtp now cid name next_date d_day s
  = for_each (evaluate_notifications (working s) cid next_date d_day)
      (send_and_record env smtp now cid name next_date d_day) s.
Proof.
  unfold notify_milestones, evaluate_notifications, due_milestones,
    notify_days.
  cbn [for_each filter].
  destruct (Z.eqb_spec d_day 7) as [->|H7];
    [|destruct (Z.eqb_spec d_day 0) as [->|H0]];
    cbn [Z.eqb Pos.eqb for_each filter].
  - rewrite unit_run_ext by reflexivity. rewrite notify_milestone_run.
    destruct (already_notified _ _ _ _); cbn [for_each];
      rewrite ?unit_run; reflexivity.
  - rewrite ret_bind, unit_run, notify_milestone_run.
    destruct (already_notified _ _ _ _); cbn [for_each];
      rewrite ?unit_run; reflexivity.
  - reflexivity.
Qed.

(** C4. The evaluation depends on the notification log only through the
    set of its (customer, type, due date) triples, so with the same
    records it gives the same milestones; once its milestones are
    recorded, evaluating again gives none; and the loop of
    [check_and_notify] sends exactly for the evaluated milestones. *)
Theorem evaluation_idempotent (db : DB) (cid : Z) (next_date : date)
  (d_day : Z) :
  (forall db2,
      (forall k, In k (log_keys db2) <-> In k (log_keys db)) ->
      evaluate_notifications db2 cid next_date d_day
      = evaluate_notifications db cid next_date d_day)
  /\ (forall now,
        evaluate_notifications
          (record_all cid next_date now
             (evaluate_notifications db cid next_date d_day) db)
          cid next_date d_day
        = [])
  /\ (forall env smtp now name s,
        working s = db ->
        notify_milestones env smtp now cid name next_date d_day s
        = for_each (evaluate_notifications db cid next_date d_day)
            (send_and_record env smtp now cid name next_date d_day) s).
Proof.
  split; [|split].
  - intros db2 Hsame. unfold evaluate_notifications.
    apply filter_ext_in_eq. intros nd _.
    pose proof (already_notified_none db cid (notify_type_of nd)
                  (isoformat next_date)) as H1.
    pose proof (already_notified_none db2 cid (notify_type_of nd)
                  (isoformat next_date)) as H2.
    rewrite Hsame in H2.
    destruct (already_notified db _ _ _), (already_notified db2 _ _ _);
      try reflexivity; exfalso.
    + assert (E : @None Z = None) by reflexivity.
      apply H2 in E. apply H1 in E. discriminate.
    + assert (E : @None Z = None) by reflexivity.
      apply H1 in E. apply H2 in E. discriminate.
  - intros now.
    set (fired := evaluate_notifications db cid next_date d_day).
    unfold evaluate_notifications at 1. apply filter_nil_iff. intros nd Hnd.
    destruct (already_notified _ cid (notify_type_of nd) (isoformat next_date))
      eqn:E; [reflexivity|]. exfalso.
    apply already_notified_none in E. apply E.
    rewrite log_keys_record_all. apply in_or_app.
    destruct (already_notified db cid (notify_type_of nd)
                (isoformat next_date)) eqn:E0.
    + left. apply already_notified_some. eauto.
    + right. apply in_map_iff. exists nd. split; [reflexivity|].
      apply evaluate_notifications_In. split; [exact Hnd|].
      now apply already_notified_none.
  - intros env smtp now name s <-. apply notify_milestones_evaluate.
Qed.

(** ** What a run writes *)

(** C5. In a run of [check_and_notify] a notification record is written
    exactly for the calls of [send_email_smtp] that returned True, in
    order.  Without credentials or recipient no call returns True; and
    when no call returned True the store is left as it was, so that every
    milestone tried in the run is still unrecorded and the next run
    tries it again. *)
Theorem record_only_on_successful_send (env : environ) (smtp : transport)
  (clk : clock) (db : DB) (h : list send_record) (r : result unit)
  (db' : DB) (h' : list send_record) :
  check_and_notify env smtp clk db h = (r, db', h') ->
  exists new,
    h' = h ++ new
    /\ Customers db' = Customers db /\ DoseLogs db' = DoseLogs db
    /\ log_keys db' = log_keys db ++ sent_keys new
    /\ (cannot_send env = true -> sent_keys new = [])
    /\ (sent_keys new = [] ->
        db' = db
        /\ forall s, In s new ->
              s_sent s = false
              /\ already_notified db' (s_customer_id s) (s_notify_type s)
                   (s_notify_date s) = None).
Proof.
  intros H. apply check_and_notify_state in H.
  destruct H as (C & _ & D & _ & _ & _ & new & Hh & Hl & Hc & Hu).
  cbn [working committed history] in *.
  exists new. repeat split; auto; try (now apply Hu).
  - assert (F : forall x, In x (filter s_sent new) -> False).
    { unfold sent_keys in H. apply map_eq_nil in H. rewrite H. intros x []. }
    destruct (s_sent s) eqn:E; [|reflexivity].
    exfalso. apply (F s). apply filter_In. auto.
  - destruct (Hu H) as [-> Hn]. apply already_notified_none.
    apply (Hn s H0).
Qed.

Lemma record_only_on_successful_send_witness :
  exists new,
    snd (check_and_notify env_empty smtp_accepts clock_jan29 db_no_logs [])
    = [] ++ new
    /\ Customers
         (snd (fst (check_and_notify env_empty smtp_accepts clock_jan29
                      db_no_logs [])))
       = Customers db_no_logs
    /\ DoseLogs
         (snd (fst (check_and_notify env_empty smtp_accepts clock_jan29
                      db_no_logs [])))
       = DoseLogs db_no_logs
    /\ log_keys
         (snd (fst (check_and_notify env_empty smtp_accepts clock_jan29
                      db_no_logs [])))
       = log_keys db_no_logs ++ sent_keys new
    /\ (cannot_send env_empty = true -> sent_keys new = [])
    /\ (sent_keys new = [] ->
        snd (fst (check_and_notify env_empty smtp_accepts clock_jan29
                    db_no_logs []))
        = db_no_logs
        /\ forall s, In s new ->
              s_sent s = false
              /\ already_notified
                   (snd (fst (check_and_notify env_empty smtp_accepts
                                clock_jan29 db_no_logs [])))
                   (s_customer_id s) (s_notify_type s) (s_notify_date s)
                 = None).
Proof.
  apply (record_only_on_successful_send env_empty smtp_accepts clock_jan29
           db_no_logs []
           (fst (fst (check_and_notify env_empty smtp_accepts clock_jan29
                        db_no_logs [])))).
  vm_compute. reflexivity.
Defined.

(** ** Sequential runs *)

(** C6. In every state reached by runs of [check_and_notify] one after
    the other, no (customer, milestone type, due date) triple has two
    notification records, no triple was sent twice, and every triple
    that was sent is recorded. *)
Theorem at_most_one_notification (db : DB) (h : list send_record) :
  reachable db h ->
  NoDup (log_keys db) /\ NoDup (sent_keys h)
  /\ incl (sent_keys h) (log_keys db).
Proof.
  intros R. change (notify_inv db h).
  induction R as [db E | db h env smtp clk r db' h' R IH Hrun
                 | db h db' R IH E].
  - unfold notify_inv, log_keys, sent_keys. rewrite E. simpl.
    repeat split; try constructor. intros k [].
  - apply check_and_notify_state in Hrun.
    destruct Hrun as (_ & _ & _ & _ & _ & Hinv & _). now apply Hinv.
  - unfold notify_inv, log_keys in *. now rewrite E.
Qed.

Lemma at_most_one_notification_witness :
  NoDup (log_keys
           (snd (fst (check_and_notify env_ready smtp_accepts clock_jan29
                        db_no_logs []))))
  /\ NoDup (sent_keys
              (snd (check_and_notify env_ready smtp_accepts clock_jan29
                      db_no_logs [])))
  /\ incl
       (sent_keys
          (snd (check_and_notify env_ready smtp_accepts clock_jan29
                  db_no_logs [])))
       (log_keys
          (snd (fst (check_and_notify env_ready smtp_accepts clock_jan29
                       db_no_logs [])))).
Proof.
  apply at_most_one_notification.
  apply (reachable_run db_no_logs [] env_ready smtp_accepts clock_jan29
           (fst (fst (check_and_notify env_ready smtp_accepts clock_jan29
                        db_no_logs [])))).
  - apply reachable_init. reflexivity.
  - vm_compute. reflexivity.
Defined.

End Notify.

(** * Registration *)

Module Registration.
Import Datetime PyText Sqlite App Routes Checks Examples.

Lemma existing_customer (name : string) (l : list Customer) :
  fetchone (map c_id (filter (fun c => String.eqb (c_name c) name) l)) = None
  <-> forall c, In c l -> c_name c <> name.
Proof.
  unfold fetchone.
  induction l as [|c l IH]; simpl; [tauto|].
  destruct (String.eqb_spec (c_name c) name) as [E|E]; simpl.
  - split; [discriminate|]. intros H. exfalso. exact (H c (or_introl eq_refl) E).
  - rewrite IH. split; [intros H c' [<-|H']; auto | intros H c' H'; auto].
Qed.

Lemma next_rowid_fresh (ids : list Z) (seq : Z) :
  forall id, In id ids -> id < next_rowid ids seq.
Proof.
  unfold next_rowid. induction ids as [|x ids IH]; simpl; intros id H;
    [contradiction|].
  destruct H as [->|H]; [lia|]. specialize (IH id H). lia.
Qed.

Lemma bind_int_ok (n : Z) :
  - 2 ^ 63 <= n < 2 ^ 63 -> bind_int n = Ok n.
Proof.
  intros H. unfold bind_int.
  destruct (Z.leb_spec (- 2 ^ 63) n), (Z.ltb_spec n (2 ^ 63)); cbn [andb];
    try reflexivity; lia.
Qed.

Lemma bind_int_overflow (n : Z) :
  ~ - 2 ^ 63 <= n < 2 ^ 63 -> bind_int n = Raise OverflowError.
Proof.
  intros H. unfold bind_int.
  destruct (Z.leb_spec (- 2 ^ 63) n), (Z.ltb_spec n (2 ^ 63)); cbn [andb];
    try reflexivity; lia.
Qed.

(** C8, with a blank field. A form with a new name whose first_weeks
    field is blank raises [ValueError], and neither a customer nor a dose
    log is created. *)
Lemma add_customer_blank_first_weeks :
  (forall c, In c (Customers db_no_logs) -> c_name c <> "lee")
  /\ form_blank_weeks "name" = Some "lee"
  /\ form_blank_weeks "first_weeks" = Some ""
  /\ add_customer form_blank_weeks db_no_logs []
     = (Raise ValueError, db_no_logs, []).
Proof.
  split; [|repeat split; vm_compute; reflexivity].
  intros c [<-|[]]. vm_compute. congruence.
Qed.

(** C8. [add_customer] never touches the notification log.  If
    a customer of the same name exists, active or not, the store is
    unchanged.  Otherwise, when the form carries name, contact and
    start_date and first_weeks (4 when absent) reads as an integer that
    fits SQLite's 64-bit INTEGER, exactly one customer and exactly one
    dose log are appended, the dose log belonging to the new customer with
    the start date as its taken date.  Whenever the request raises, the
    store is unchanged; and in every case the store is either unchanged
    or extended by one customer and its seed dose log. *)
Theorem add_customer_outcomes (f : form) (db : DB) (h : list send_record)
  (r : result response) (db' : DB) (h' : list send_record) :
  add_customer f db h = (r, db', h') ->
  h' = h
  /\ NotificationLogs db' = NotificationLogs db
  /\ (forall name c,
        f "name" = Some name -> In c (Customers db) -> c_name c = name ->
        db' = db)
  /\ (forall name contact start_date first_weeks,
        f "name" = Some name -> f "contact" = Some contact ->
        f "start_date" = Some start_date ->
        form_int_default f "first_weeks" 4 = Ok first_weeks ->
        - 2 ^ 63 <= first_weeks < 2 ^ 63 ->
        (forall c, In c (Customers db) -> c_name c <> name) ->
        r = Ok redirect_index
        /\ exists cid lid,
            Customers db'
            = Customers db ++ [mkCustomer cid name contact start_date 1]
            /\ DoseLogs db'
               = DoseLogs db
                 ++ [mkDoseLog lid cid start_date (Some first_weeks)
                       "첫 복용" 0]
            /\ (forall c, In c (Customers db) -> c_id c < cid)
            /\ (forall l, In l (DoseLogs db) -> l_id l < lid))
  /\ (forall e, r = Raise e -> db' = db)
  /\ (db' = db
      \/ exists cid lid name contact start_date weeks,
          r = Ok redirect_index
          /\ Customers db'
             = Customers db ++ [mkCustomer cid name contact start_date 1]
          /\ DoseLogs db'
             = DoseLogs db
               ++ [mkDoseLog lid cid start_date (Some weeks) "첫 복용" 0]).
Proof.
  unfold add_customer, form_item. intros H.
  destruct (f "name") as [name|] eqn:En; cbn [rbind] in H;
    [|injection H as <- <- <-; repeat split; auto; discriminate].
  destruct (f "contact") as [contact|] eqn:Ec; cbn [rbind] in H;
    [|injection H as <- <- <-; repeat split; auto; discriminate].
  destruct (f "start_date") as [start_date|] eqn:Es; cbn [rbind] in H;
    [|injection H as <- <- <-; repeat split; auto; discriminate].
  destruct (form_int_default f "first_weeks" 4) as [weeks|e0] eqn:Ew;
    cbn [rbind] in H;
    [|injection H as <- <- <-; repeat split; auto; discriminate].
  unfold with_connection, add_customer_body, bind, read, lift, write, commit,
    ret in H.
  cbn [working committed history] in H.
  destruct (fetchone
              (map c_id
                 (filter (fun c => String.eqb (c_name c) name) (Customers db))))
    as [x|] eqn:Ex.
  - (* the name is taken *)
    injection H as <- <- <-. split; [reflexivity|]. split; [reflexivity|].
    split; [reflexivity|]. split; [|split; [reflexivity | now left]].
    intros name' contact' start' weeks' [= <-] _ _ _ _ Hnew. exfalso.
    apply existing_customer in Hnew. congruence.
  - pose proof (proj1 (existing_customer name (Customers db)) Ex) as Hnew.
    unfold insert_customer in H. cbn [working committed history] in H.
    destruct (bind_int weeks) as [w|e1] eqn:Eb; cbn [working committed history] in H.
    + (* both rows are written *)
      injection H as <- <- <-. split; [reflexivity|]. split; [reflexivity|].
      split.
      { intros name' c [= <-] Hc Hn. exfalso. exact (Hnew c Hc Hn). }
      split; [|split; [discriminate|]].
      * intros name' contact' start' weeks' [= <-] [= <-] [= <-] [= <-] Hr _.
        rewrite bind_int_ok in Eb by assumption. injection Eb as <-.
        split; [reflexivity|].
        eexists _, _. cbn [Customers DoseLogs insert_dose_log].
        split; [reflexivity|]. split; [reflexivity|]. split.
        -- intros c Hc. apply next_rowid_fresh. now apply in_map.
        -- intros l Hl. apply next_rowid_fresh. now apply in_map.
      * right. eexists _, _, name, contact, start_date, w.
        cbn [Customers DoseLogs insert_dose_log].
        split; [reflexivity|]. split; reflexivity.
    + (* the interval does not fit: the insert is rolled back *)
      injection H as <- <- <-. split; [reflexivity|]. split; [reflexivity|].
      split; [reflexivity|]. split; [|split; [reflexivity | now left]].
      intros name' contact' start' weeks' _ _ _ [= <-] Hr _.
      rewrite bind_int_ok in Eb by assumption. discriminate.
Qed.

Lemma add_customer_outcomes_witness :
  snd (add_customer form_lee db_no_logs []) = []
  /\ NotificationLogs (snd (fst (add_customer form_lee db_no_logs [])))
     = NotificationLogs db_no_logs
  /\ (forall name c,
        form_lee "name" = Some name -> In c (Customers db_no_logs) ->
        c_name c = name ->
        snd (fst (add_customer form_lee db_no_logs [])) = db_no_logs)
  /\ (forall name contact start_date first_weeks,
        form_lee "name" = Some name -> form_lee "contact" = Some contact ->
        form_lee "start_date" = Some start_date ->
        form_int_default form_lee "first_weeks" 4 = Ok first_weeks ->
        - 2 ^ 63 <= first_weeks < 2 ^ 63 ->
        (forall c, In c (Customers db_no_logs) -> c_name c <> name) ->
        fst (fst (add_customer form_lee db_no_logs [])) = Ok redirect_index
        /\ exists cid lid,
            Customers (snd (fst (add_customer form_lee db_no_logs [])))
            = Customers db_no_logs
              ++ [mkCustomer cid name contact start_date 1]
            /\ DoseLogs (snd (fst (add_customer form_lee db_no_logs [])))
               = DoseLogs db_no_logs
                 ++ [mkDoseLog lid cid start_date (Some first_weeks)
                       "첫 복용" 0]
            /\ (forall c, In c (Customers db_no_logs) -> c_id c < cid)
            /\ (forall l, In l (DoseLogs db_no_logs) -> l_id l < lid))
  /\ (forall e,
        fst (fst (add_customer form_lee db_no_logs [])) = Raise e ->
        snd (fst (add_customer form_lee db_no_logs [])) = db_no_logs)
  /\ (snd (fst (add_customer form_lee db_no_logs [])) = db_no_logs
      \/ exists cid lid name contact start_date weeks,
          fst (fst (add_customer form_lee db_no_logs [])) = Ok redirect_index
          /\ Customers (snd (fst (add_customer form_lee db_no_logs [])))
             = Customers db_no_logs
               ++ [mkCustomer cid name contact start_date 1]
          /\ DoseLogs (snd (fst (add_customer form_lee db_no_logs [])))
             = DoseLogs db_no_logs
               ++ [mkDoseLog lid cid start_date (Some weeks) "첫 복용" 0]).
Proof.
  apply (add_customer_outcomes form_lee db_no_logs []).
  vm_compute. reflexivity.
Defined.

End Registration.

(** * Migration *)

Module Migration.
Import Sqlite Schema Columns Examples.

Lemma same_name_refl (a : string) : same_name a a = true.
Proof. unfold same_name. apply String.eqb_refl. Qed.

Lemma has_column_app (t : table) (col : column) (rows : list (list sqlval)) :
  has_column (mkTable (t_name t) (t_columns t ++ [col]) rows) (col_name col)
  = true.
Proof.
  unfold has_column; cbn [t_columns]. rewrite existsb_app. cbn [existsb].
  rewrite same_name_refl. cbn [orb]. apply orb_true_r.
Qed.

Lemma has_column_app_mono (t : table) (col : column)
  (rows : list (list sqlval)) (c : string) :
  has_column t c = true ->
  has_column (mkTable (t_name t) (t_columns t ++ [col]) rows) c = true.
Proof.
  unfold has_column; cbn [t_columns]. rewrite existsb_app. intros ->.
  reflexivity.
Qed.

(** When the column is there, ALTER TABLE raises "duplicate column
    name". *)
Lemma alter_duplicate (name : string) (col : column) (db : database) :
  column_in db name (col_name col) = true ->
  alter_table_add_column name col db
  = Raise (OperationalError ("duplicate column name: " ++ col_name col)%string).
Proof.
  induction db as [|t rest IH]; cbn [column_in alter_table_add_column];
    [discriminate|].
  destruct (same_name (t_name t) name).
  - intros ->. reflexivity.
  - intros H. now rewrite IH.
Qed.

(** When ALTER TABLE returns, the column is there and no other column
    has gone. *)
Lemma alter_ok (name : string) (col : column) (db db' : database) :
  alter_table_add_column name col db = Ok db' ->
  column_in db' name (col_name col) = true
  /\ forall n c, column_in db n c = true -> column_in db' n c = true.
Proof.
  revert db'. induction db as [|t rest IH]; intros db';
    cbn [alter_table_add_column]; [discriminate|].
  destruct (same_name (t_name t) name) eqn:E.
  - destruct (has_column t (col_name col)); [discriminate|].
    intros [= <-]. cbn [column_in t_name]. rewrite E. split.
    + apply has_column_app.
    + intros n c. destruct (same_name (t_name t) n); [|auto].
      apply has_column_app_mono.
  - destruct (alter_table_add_column name col rest) as [rest'|e];
      [|discriminate].
    intros [= <-]. destruct (IH rest' eq_refl) as [H1 H2].
    cbn [column_in]. rewrite E. split; [exact H1|].
    intros n c. destruct (same_name (t_name t) n); auto.
Qed.

(** What ALTER TABLE raises. *)
Lemma alter_raise (name : string) (col : column) (db : database) (e : exn) :
  alter_table_add_column name col db = Raise e ->
  (e = OperationalError ("no such table: " ++ name)%string
   /\ has_table db name = false)
  \/ (e = OperationalError
            ("duplicate column name: " ++ col_name col)%string
      /\ column_in db name (col_name col) = true).
Proof.
  unfold has_table.
  induction db as [|t rest IH];
    cbn [alter_table_add_column column_in existsb].
  - intros [= <-]. now left.
  - destruct (same_name (t_name t) name).
    + destruct (has_column t (col_name col)); [|discriminate].
      intros [= <-]. now right.
    + destruct (alter_table_add_column name col rest); [discriminate|].
      intros [= <-]. now apply IH.
Qed.

Lemma alter_ok_tables (name : string) (col : column) (db db' : database) :
  alter_table_add_column name col db = Ok db' ->
  forall n, has_table db' n = has_table db n.
Proof.
  unfold has_table. revert db'.
  induction db as [|t rest IH]; intros db';
    cbn [alter_table_add_column]; [discriminate|].
  destruct (same_name (t_name t) name).
  - destruct (has_column t (col_name col)); [discriminate|].
    intros [= <-] n. reflexivity.
  - destruct (alter_table_add_column name col rest) as [rest'|e];
      [|discriminate].
    intros [= <-] n. cbn [existsb]. now rewrite (IH rest' eq_refl).
Qed.

Lemma prefix_append (s t : string) : String.prefix s (s ++ t) = true.
Proof.
  induction s as [|c s IH]; simpl; [now destruct t|].
  destruct (ascii_dec c c); [exact IH | congruence].
Qed.

Lemma contains_prefix (needle haystack : string) :
  String.prefix needle haystack = true -> contains needle haystack = true.
Proof.
  intros H. destruct haystack; cbn [contains]; rewrite H; reflexivity.
Qed.

Lemma contains_duplicate (c : string) :
  contains "duplicate column name" ("duplicate column name: " ++ c) = true.
Proof.
  apply contains_prefix.
  change ("duplicate column name: " ++ c)%string
    with ("duplicate column name" ++ (": " ++ c))%string.
  apply prefix_append.
Qed.

(** One [try] block that returned leaves the column in place. *)
Lemma try_add_column_ok (name : string) (col : column)
  (added skipped : string) (db db' : database) (out out' : list string) :
  contains "duplicate column name" ("no such table: " ++ name) = false ->
  try_add_column name col added skipped db out = (Ok tt, db', out') ->
  column_in db' name (col_name col) = true
  /\ forall n c, column_in db n c = true -> column_in db' n c = true.
Proof.
  intros Hname. unfold try_add_column.
  destruct (alter_table_add_column name col db) as [db1|e] eqn:E.
  - intros [= <- <-]. now apply alter_ok in E.
  - apply alter_raise in E as [[-> _]|[-> Hin]].
    + cbn [str_of_exn]. rewrite Hname. discriminate.
    + cbn [str_of_exn]. rewrite contains_duplicate.
      intros [= <- <-]. auto.
Qed.

(** With the column in place the [try] block skips. *)
Lemma try_add_column_skip (name : string) (col : column)
  (added skipped : string) (db : database) (out : list string) :
  column_in db name (col_name col) = true ->
  try_add_column name col added skipped db out
  = (Ok tt, db, out ++ [skipped]).
Proof.
  intros H. unfold try_add_column. rewrite alter_duplicate by assumption.
  cbn [str_of_exn]. now rewrite contains_duplicate.
Qed.

(** C9. After a run of [migrate_db] that returned, a second run returns
    as well and leaves the database exactly as the first run left it: it
    adds no column again and only prints that both columns exist. *)
Theorem migrate_db_idempotent (db db1 : database) (out out1 : list string) :
  migrate_db db out = (Ok tt, db1, out1) ->
  column_in db1 "Customers" "is_active" = true
  /\ column_in db1 "DoseLogs" "extra_weeks" = true
  /\ forall out',
      migrate_db db1 out'
      = (Ok tt, db1,
         out' ++ ["is active 칼럼이 이미 존재합니다. 건너 뜁니다."]
              ++ ["extra_weeks 칼럼이 이미 존재합니다. 건너뜁니다."]).
Proof.
  unfold migrate_db. intros H.
  destruct (try_add_column "Customers" _ _ _ db out) as [[[[]|e] dba] outa]
    eqn:E1; [|discriminate].
  apply try_add_column_ok in E1 as [A1 A2]; [|reflexivity].
  pose proof H as E2.
  apply try_add_column_ok in E2 as [B1 B2]; [|reflexivity].
  cbn [col_name] in *.
  assert (C1 : column_in db1 "Customers" "is_active" = true) by auto.
  split; [exact C1|]. split; [exact B1|]. intros out'.
  rewrite try_add_column_skip by exact C1.
  rewrite try_add_column_skip by exact B1.
  now rewrite <- app_assoc.
Qed.

Lemma migrate_db_idempotent_witness :
  column_in (snd (fst (migrate_db (init_db []) []))) "Customers" "is_active"
  = true
  /\ column_in (snd (fst (migrate_db (init_db []) []))) "DoseLogs"
       "extra_weeks" = true
  /\ forall out',
      migrate_db (snd (fst (migrate_db (init_db []) []))) out'
      = (Ok tt, snd (fst (migrate_db (init_db []) [])),
         out' ++ ["is active 칼럼이 이미 존재합니다. 건너 뜁니다."]
              ++ ["extra_weeks 칼럼이 이미 존재합니다. 건너뜁니다."]).
Proof.
  apply (migrate_db_idempotent (init_db []) _ []
           (snd (migrate_db (init_db []) []))).
  vm_compute. reflexivity.
Defined.

(** On a table that exists the [try] block returns. *)
Lemma try_add_column_total (name : string) (col : column)
  (added skipped : string) (db : database) (out : list string) :
  has_table db name = true ->
  exists db' out',
    try_add_column name col added skipped db out = (Ok tt, db', out')
    /\ forall n, has_table db' n = has_table db n.
Proof.
  intros Ht. unfold try_add_column.
  destruct (alter_table_add_column name col db) as [db1|e] eqn:E.
  - exists db1, (out ++ [added]). split; [reflexivity|].
    exact (alter_ok_tables name col db db1 E).
  - apply alter_raise in E as [[-> Hn]|[-> Hin]]; [congruence|].
    cbn [str_of_exn]. rewrite contains_duplicate.
    exists db, (out ++ [skipped]). split; reflexivity.
Qed.

Lemma has_table_create (name : string) (cols : list column) (db : database)
  (n : string) :
  has_table (create_table_if_not_exists name cols db) n
  = has_table db n || same_name name n.
Proof.
  unfold create_table_if_not_exists.
  destruct (has_table db name) eqn:E.
  - destruct (same_name name n) eqn:En; [|now rewrite orb_false_r].
    rewrite orb_true_r. unfold has_table, same_name in *.
    apply String.eqb_eq in En. rewrite <- En. exact E.
  - unfold has_table. rewrite existsb_app. cbn [existsb t_name].
    now rewrite orb_false_r.
Qed.

(** After [init_db] both tables exist, so the first run returns. *)
Lemma migrate_db_after_init_db (db : database) (out : list string) :
  exists db1 out1, migrate_db (init_db db) out = (Ok tt, db1, out1).
Proof.
  assert (HC : has_table (init_db db) "Customers" = true).
  { unfold init_db. rewrite !has_table_create.
    change (same_name "Customers" "Customers") with true.
    now rewrite orb_true_r. }
  assert (HD : has_table (init_db db) "DoseLogs" = true).
  { unfold init_db. rewrite !has_table_create.
    change (same_name "DoseLogs" "DoseLogs") with true.
    now rewrite orb_true_r. }
  unfold migrate_db.
  destruct (try_add_column_total "Customers"
              (mkColumn "is_active" "INTEGER" (Int 1))
              "is_active 칼럼이 추가되었습니다."
              "is active 칼럼이 이미 존재합니다. 건너 뜁니다."
              (init_db db) out HC) as (dba & outa & -> & Ta).
  destruct (try_add_column_total "DoseLogs"
              (mkColumn "extra_weeks" "INTEGER" (Int 0))
              "extra_weeks 칼럼이 추가되었습니다."
              "extra_weeks 칼럼이 이미 존재합니다. 건너뜁니다."
              dba outa ltac:(now rewrite Ta)) as (db1 & out1 & E & _).
  now exists db1, out1.
Qed.

End Migration.

(** * The other routes *)

Module RoutesFacts.
Import Datetime PyText Sqlite App Routes Runs Examples.

(** No route other than the notification job writes NotificationLogs. *)
Lemma add_dose_log_keeps_notifications (cid : Z) (f : form) (db : DB) :
  NotificationLogs (snd (add_dose_log cid f db)) = NotificationLogs db.
Proof.
  unfold add_dose_log.
  destruct (let? taken_date := form_item f "taken_date" in _)
    as [[[taken_date weeks] note]|e]; reflexivity.
Qed.

Lemma delete_dose_log_keeps_notifications (cid log_id : Z) (db : DB) :
  NotificationLogs (snd (delete_dose_log cid log_id db))
  = NotificationLogs db.
Proof. reflexivity. Qed.

Lemma edit_dose_log_keeps_notifications (cid log_id : Z) (f : form)
  (db : DB) :
  NotificationLogs (snd (edit_dose_log cid log_id f db))
  = NotificationLogs db.
Proof.
  unfold edit_dose_log.
  destruct (let? taken_date := form_item f "taken_date" in _)
    as [[[[taken_date weeks] extra] note]|e]; reflexivity.
Qed.

(** Registering a customer and deleting the seed dose log leaves a
    customer without dose logs, whatever the start date was. *)
Lemma db_no_logs_arises :
  snd (delete_dose_log 1 1
         (snd (fst (add_customer (form_kim "2024-01-01") db_empty []))))
  = db_no_logs.
Proof. vm_compute. reflexivity. Qed.

Lemma db_last_day_arises :
  snd (delete_dose_log 1 1
         (snd (fst (add_customer (form_kim "9999-12-31") db_empty []))))
  = db_last_day.
Proof. vm_compute. reflexivity. Qed.

(** An interval of 0 is accepted and stored by [add_dose_log]. *)
Lemma add_dose_log_stores_zero :
  add_dose_log 1 form_zero_weeks
    (mkDB [mkCustomer 1 "kim" "010" "2024-02-01" 1] 1 [] 0 [] 0)
  = (Ok (redirect_view_customer 1), db_zero_interval).
Proof. vm_compute. reflexivity. Qed.

(** Deleting the seed dose log leaves a customer without dose logs. *)
Lemma delete_dose_log_leaves_none :
  last_dose_log (snd (delete_dose_log 1 1 db_zero_interval)) 1 = None.
Proof. vm_compute. reflexivity. Qed.

End RoutesFacts.

(** * Running the job twice *)

Module Rerun.
Import Datetime PyText Sqlite App Runs Examples.
Import Notify.

Lemma last_dose_log_ext (db db' : DB) (cid : Z) :
  DoseLogs db' = DoseLogs db -> last_dose_log db' cid = last_dose_log db cid.
Proof. unfold last_dose_log. now intros ->. Qed.

Lemma settled_stable (db db' : DB) (today : date)
  (cust : Z * string * string * string) :
  DoseLogs db' = DoseLogs db -> incl (log_keys db) (log_keys db') ->
  settled db today cust -> settled db' today cust.
Proof.
  destruct cust as [[[cid name] contact] start_date]. unfold settled.
  intros HD HL (next_date & d_day & Hdue & Hrec).
  exists next_date, d_day. rewrite (last_dose_log_ext db db') by assumption.
  split; [exact Hdue|]. intros nd Hnd. apply HL, Hrec, Hnd.
Qed.

(** For a settled customer the body of the loop does nothing. *)
Lemma notify_customer_settled (env : environ) (smtp : transport)
  (clk : clock) (cust : Z * string * string * string) (s : state) :
  settled (working s) (today clk) cust ->
  notify_customer env smtp clk cust s = (Ok tt, s).
Proof.
  destruct cust as [[[cid name] contact] start_date].
  intros (next_date & d_day & Hdue & Hrec).
  unfold notify_customer, bind at 1, read at 1.
  unfold bind at 1, lift at 1. rewrite Hdue.
  rewrite notify_milestones_evaluate.
  replace (evaluate_notifications (working s) cid next_date d_day) with (@nil Z);
    [reflexivity|].
  symmetry. unfold evaluate_notifications. apply filter_nil_iff.
  intros nd Hnd. specialize (Hrec nd Hnd).
  apply already_notified_some in Hrec as [v ->]. reflexivity.
Qed.

(** What one call of [send_and_record] leaves behind. *)
Lemma send_and_record_cases (env : environ) (smtp : transport)
  (now : string) (cid : Z) (name : string) (next_date : date)
  (d_day nd : Z) (s s' : state) (r : result unit) :
  send_and_record env smtp now cid name next_date d_day nd s = (r, s') ->
  (exists e, r = Raise e /\ s' = s)
  \/ (r = Ok tt
      /\ exists sent,
          history s'
          = history s
            ++ [mkSend cid (notify_type_of nd) (isoformat next_date) sent]
          /\ (sent = true ->
              log_keys (working s')
              = log_keys (working s)
                ++ [(cid, notify_type_of nd, isoformat next_date)])).
Proof.
  unfold send_and_record, bind, sends_so_far, lift, log_send, write, commit,
    ret.
  match goal with
  | |- context [send_email_smtp env smtp ?c ?t ?sb ?bd] =>
      destruct (send_email_smtp env smtp c t sb bd) as [[|]|e]
  end; cbn [working committed history]; intros [= <- <-].
  - right. split; [reflexivity|]. exists true. cbn [history working].
    split; [reflexivity|]. intros _. apply log_keys_insert.
  - right. split; [reflexivity|]. exists false. cbn [history working].
    split; [reflexivity | discriminate].
  - left. eauto.
Qed.

Lemma due_milestones_cases (d_day : Z) :
  due_milestones d_day = [] \/ due_milestones d_day = [d_day].
Proof.
  unfold due_milestones, notify_days. cbn [filter].
  destruct (Z.eqb_spec d_day 7) as [->|H7]; [now right|].
  destruct (Z.eqb_spec d_day 0) as [->|H0]; [now right | now left].
Qed.

(** After the body of the loop has returned with every mail sent, the
    customer is settled. *)
Lemma notify_customer_settles (env : environ) (smtp : transport)
  (clk : clock) (cust : Z * string * string * string) (s s' : state) :
  notify_customer env smtp clk cust s = (Ok tt, s') ->
  all_sent (history s') ->
  settled (working s') (today clk) cust.
Proof.
  intros Hrun Hall.
  pose proof (notify_customer_evolves env smtp clk cust s) as Hev.
  rewrite Hrun in Hev. cbn [snd] in Hev.
  destruct Hev as (_ & _ & HD & _ & _ & _ & new & Hh & Hl & _).
  destruct cust as [[[cid name] contact] start_date].
  unfold notify_customer, bind at 1, read at 1 in Hrun.
  unfold bind at 1, lift at 1 in Hrun.
  destruct (notify_due (last_dose_log (working s) cid) start_date (today clk))
    as [[next_date d_day]|e] eqn:Hdue; [|discriminate].
  rewrite notify_milestones_evaluate in Hrun.
  unfold settled. exists next_date, d_day.
  rewrite (last_dose_log_ext (working s) (working s')) by assumption.
  split; [exact Hdue|]. intros nd Hnd.
  destruct (already_notified (working s) cid (notify_type_of nd)
              (isoformat next_date)) as [v|] eqn:Eseen.
  - rewrite Hl. apply in_or_app. left. apply already_notified_some. eauto.
  - assert (Hev : evaluate_notifications (working s) cid next_date d_day
                  = [nd]).
    { unfold evaluate_notifications.
      destruct (due_milestones_cases d_day) as [E|E]; rewrite E in *;
        [contradiction|].
      destruct Hnd as [<-|[]]. cbn [filter]. now rewrite Eseen. }
    rewrite Hev in Hrun. cbn [for_each] in Hrun. rewrite unit_run in Hrun.
    apply send_and_record_cases in Hrun
      as [(e & He & _)|(_ & sent & Hhist & Hkeys)]; [discriminate|].
    assert (Hs : sent = true).
    { apply (Hall (mkSend cid (notify_type_of nd) (isoformat next_date) sent)).
      rewrite Hhist. apply in_or_app. right. now left. }
    rewrite (Hkeys Hs). apply in_or_app. right. now left.
Qed.

(** After the loop over the customers has returned with every mail sent,
    every customer is settled. *)
Lemma for_each_customer_settles (env : environ) (smtp : transport)
  (clk : clock) (customers : list (Z * string * string * string)) :
  forall s s',
    for_each customers (notify_customer env smtp clk) s = (Ok tt, s') ->
    all_sent (history s') ->
    forall c, In c customers -> settled (working s') (today clk) c.
Proof.
  induction customers as [|c0 rest IH]; intros s s' Hrun Hall c Hc;
    [contradiction|].
  cbn [for_each] in Hrun. unfold bind in Hrun.
  destruct (notify_customer env smtp clk c0 s) as [[[]|e] s1] eqn:E1;
    [|discriminate].
  pose proof (evolves_for_each env (notify_customer env smtp clk) rest
                (notify_customer_evolves env smtp clk) s1) as Hev.
  rewrite Hrun in Hev. cbn [snd] in Hev.
  destruct Hev as (_ & _ & HD & _ & _ & _ & new & Hh & Hl & _).
  destruct Hc as [<-|Hc].
  - apply settled_stable with (db := working s1); [exact HD | |].
    + rewrite Hl. apply incl_appl, incl_refl.
    + apply (notify_customer_settles env smtp clk c0 s s1 E1).
      intros r Hr. apply Hall. rewrite Hh. apply in_or_app. now left.
  - exact (IH s1 s' Hrun Hall c Hc).
Qed.

Lemma for_each_customer_settled (env : environ) (smtp : transport)
  (clk : clock) (customers : list (Z * string * string * string))
  (s : state) :
  (forall c, In c customers -> settled (working s) (today clk) c) ->
  for_each customers (notify_customer env smtp clk) s = (Ok tt, s).
Proof.
  induction customers as [|c0 rest IH]; intros H; [reflexivity|].
  cbn [for_each]. unfold bind.
  rewrite notify_customer_settled by (apply H; now left).
  apply IH. intros c Hc. apply H. now right.
Qed.

(** A run that returned with every mail sent makes a second run on the
    same day do nothing: nothing is sent and nothing is written, whatever
    the environment and the SMTP server then are. *)
Lemma check_and_notify_twice (env env2 : environ) (smtp smtp2 : transport)
  (clk clk2 : clock) (db db1 : DB) (h h1 : list send_record) :
  check_and_notify env smtp clk db h = (Ok tt, db1, h1) ->
  all_sent h1 ->
  today clk2 = today clk ->
  check_and_notify env2 smtp2 clk2 db1 h1 = (Ok tt, db1, h1).
Proof.
  intros Hrun Hall Htoday.
  pose proof (check_and_notify_state _ _ _ _ _ _ _ _ Hrun) as Hev.
  destruct Hev as (HC & _ & _). cbn [working] in HC.
  unfold check_and_notify, with_connection, check_and_notify_body in *.
  unfold bind at 1, read at 1 in Hrun. unfold bind at 1, read at 1.
  cbn [working] in *.
  destruct (for_each (select_customers db) (notify_customer env smtp clk)
              (mkState db db h)) as [[[]|e] s1] eqn:E1;
    [|discriminate].
  injection Hrun as <- <-.
  assert (Hs : forall c, In c (select_customers db) ->
                         settled (working s1) (today clk) c)
    by (apply (for_each_customer_settles env smtp clk _ _ _ E1 Hall)).
  unfold select_customers at 1. rewrite HC.
  fold (select_customers db).
  rewrite for_each_customer_settled; [reflexivity|].
  cbn [working]. rewrite Htoday. exact Hs.
Qed.

End Rerun.

(** * Three days in the life of the job *)

Module Scenarios.
Import Datetime PyText Sqlite App Runs Examples.

(** Enrolled 2024-01-01, no dose logs, run on 2024-01-29: the D-day is 0,
    the D-0 mail is sent and recorded. *)
Example run_on_due_day :
  notify_due (last_dose_log db_no_logs 1) "2024-01-01" (mkdate 2024 1 29)
  = Ok (mkdate 2024 1 29, 0)
  /\ check_and_notify env_ready smtp_accepts clock_jan29 db_no_logs []
     = (Ok tt,
        mkDB (Customers db_no_logs) 1 [] 1
             [mkNotificationLog 1 1 "D-0" "2024-01-29" "2024-01-29 09:00:00"]
             1,
        [mkSend 1 "D-0" "2024-01-29" true]).
Proof. split; vm_compute; reflexivity. Qed.

(** Running again on the same day sends nothing and writes nothing. *)
Example run_again_on_due_day :
  let '(_, db1, h1) :=
    check_and_notify env_ready smtp_accepts clock_jan29 db_no_logs [] in
  check_and_notify env_ready smtp_accepts clock_jan29 db1 h1
  = (Ok tt, db1, h1).
Proof. vm_compute. reflexivity. Qed.

(** One dose log taken 2024-02-01 at interval 4, run on 2024-02-22: the
    due date is 2024-02-29, the D-day is 7, the D-7 mail is sent once. *)
Example run_a_week_before :
  notify_due (last_dose_log db_one_log 1) "2024-02-01" (mkdate 2024 2 22)
  = Ok (mkdate 2024 2 29, 7)
  /\ snd (check_and_notify env_ready smtp_accepts clock_feb22 db_one_log [])
     = [mkSend 1 "D-7" "2024-02-29" true]
  /\ log_keys
       (snd (fst (check_and_notify env_ready smtp_accepts clock_feb22
                    db_one_log [])))
     = [(1, "D-7", "2024-02-29")].
Proof. repeat split; vm_compute; reflexivity. Qed.

(** Without credentials the same run sends nothing that counts and leaves
    the store as it was. *)
Example run_without_credentials :
  check_and_notify env_empty smtp_accepts clock_feb22 db_one_log []
  = (Ok tt, db_one_log, [mkSend 1 "D-7" "2024-02-29" false]).
Proof. vm_compute. reflexivity. Qed.

(** Customer 5 already has records for D-0 of 2024-03-01: nothing is
    sent on 2024-03-01. *)
Example run_when_already_notified :
  evaluate_notifications db_notified_twice 5 (mkdate 2024 3 1) 0 = []
  /\ check_and_notify env_ready smtp_accepts clock_mar01 db_notified_twice []
     = (Ok tt, db_notified_twice, []).
Proof. split; vm_compute; reflexivity. Qed.

(** A day late nothing fires: on 2024-02-23 the D-day is 6. *)
Example run_a_day_late :
  check_and_notify env_ready smtp_accepts
    (mkClock (mkdate 2024 2 23) "2024-02-23 09:00:00") db_one_log []
  = (Ok tt, db_one_log, []).
Proof. vm_compute. reflexivity. Qed.

End Scenarios.

(** * More about the notification job *)

Module NotifyMore.
Import Datetime PyText Sqlite App Routes Admin Runs Frames Examples
  Examples2.
Import DatetimeFacts PyTextFacts DueDate Notify Rerun.

Section StateRelation.
Variable R : state -> state -> Prop.
Hypothesis R_refl : forall s, R s s.
Hypothesis R_trans : forall s1 s2 s3, R s1 s2 -> R s2 s3 -> R s1 s3.

Lemma bind_rel {A B} (m : M A) (k : A -> M B) (s : state) :
  R s (snd (m s)) ->
  (forall a, fst (m s) = Ok a -> R (snd (m s)) (snd (k a (snd (m s))))) ->
  R s (snd (bind m k s)).
Proof.
  intros Hm Hk. unfold bind. destruct (m s) as [[a|e] s']; cbn [fst snd] in *.
  - eapply R_trans; [exact Hm | now apply Hk].
  - exact Hm.
Qed.

Lemma for_each_rel {A} (body : A -> M unit) (l : list A) :
  (forall x s, In x l -> R s (snd (body x s))) ->
  forall s, R s (snd (for_each l body s)).
Proof.
  induction l as [|x l IH]; intros Hb s; cbn [for_each].
  - apply R_refl.
  - apply bind_rel; [apply Hb; now left|].
    intros _ _. apply IH. intros y s' Hy. apply Hb. now right.
Qed.
End StateRelation.

(** ** What the job does not look at *)

Section Blind.
Variable T : DB -> DB.
Hypothesis T_last :
  forall db cid, last_dose_log (T db) cid = last_dose_log db cid.
Hypothesis T_seen :
  forall db cid notify_type notify_date,
    already_notified (T db) cid notify_type notify_date
    = already_notified db cid notify_type notify_date.
Hypothesis T_insert :
  forall cid notify_type notify_date now db,
    insert_notification cid notify_type notify_date now (T db)
    = T (insert_notification cid notify_type notify_date now db).

Lemma blind_ret {A} (a : A) : blind_to T (ret a).
Proof. intros s. reflexivity. Qed.

Lemma blind_bind {A B} (m : M A) (k : A -> M B) :
  blind_to T m -> (forall a, blind_to T (k a)) -> blind_to T (bind m k).
Proof.
  intros Hm Hk s. unfold bind. rewrite Hm.
  destruct (m s) as [[a|e] s']; cbn [fst snd]; [apply Hk | reflexivity].
Qed.

Lemma blind_lift {A} (r : result A) : blind_to T (lift r).
Proof. intros s. reflexivity. Qed.

Lemma blind_read {A} (q : DB -> A) :
  (forall db, q (T db) = q db) -> blind_to T (read q).
Proof. intros H s. unfold read. cbn [on_stores working]. now rewrite H. Qed.

Lemma blind_for_each {A} (body : A -> M unit) (l : list A) :
  (forall x, blind_to T (body x)) -> blind_to T (for_each l body).
Proof.
  intros Hb. induction l as [|x l IH]; cbn [for_each].
  - apply blind_ret.
  - apply blind_bind; [apply Hb | intros _; exact IH].
Qed.

Lemma blind_send_and_record (env : environ) (smtp : transport) (now : string)
  (cid : Z) (name : string) (next_date : date) (d_day nd : Z) :
  blind_to T (send_and_record env smtp now cid name next_date d_day nd).
Proof.
  intros s.
  unfold send_and_record, bind, sends_so_far, lift, log_send, write, commit,
    ret.
  cbn [on_stores history working committed].
  match goal with
  | |- context [send_email_smtp env smtp ?c ?t ?sb ?bd] =>
      destruct (send_email_smtp env smtp c t sb bd) as [[|]|e]
  end; cbn [fst snd on_stores history working committed];
    rewrite ?T_insert; reflexivity.
Qed.

Lemma blind_notify_customer (env : environ) (smtp : transport) (clk : clock)
  (cust : Z * string * string * string) :
  blind_to T (notify_customer env smtp clk cust).
Proof.
  destruct cust as [[[cid name] contact] start_date]. unfold notify_customer.
  apply blind_bind; [apply blind_read; intros; apply T_last|]. intros last.
  apply blind_bind; [apply blind_lift|]. intros [next_date d_day].
  unfold notify_milestones. apply blind_for_each. intros nd.
  destruct (d_day =? nd); [|apply blind_ret].
  unfold notify_milestone.
  apply blind_bind; [apply blind_read; intros; apply T_seen|]. intros [v|];
    [apply blind_ret | apply blind_send_and_record].
Qed.

Lemma for_each_customers_blind (env : environ) (smtp : transport)
  (clk : clock) (l : list (Z * string * string * string)) (s : state) :
  for_each l (notify_customer env smtp clk) (on_stores T s)
  = (fst (for_each l (notify_customer env smtp clk) s),
     on_stores T (snd (for_each l (notify_customer env smtp clk) s))).
Proof. apply blind_for_each. intros x. apply blind_notify_customer. Qed.

(** On a changed store that reads the same through the SELECT of
    [check_and_notify], the run is the same. *)
Lemma check_and_notify_on_store (env : environ) (smtp : transport)
  (clk : clock) (db : DB) (h : list send_record) :
  select_customers (T db) = select_customers db ->
  check_and_notify env smtp clk (T db) h
  = (fst (fst (check_and_notify env smtp clk db h)),
     T (snd (fst (check_and_notify env smtp clk db h))),
     snd (check_and_notify env smtp clk db h)).
Proof.
  intros Hsel. unfold check_and_notify, with_connection.
  change (check_and_notify_body env smtp clk (mkState (T db) (T db) h))
    with (for_each (select_customers (T db)) (notify_customer env smtp clk)
            (on_stores T (mkState db db h))).
  change (check_and_notify_body env smtp clk (mkState db db h))
    with (for_each (select_customers db) (notify_customer env smtp clk)
            (mkState db db h)).
  rewrite Hsel, for_each_customers_blind.
  destruct (for_each (select_customers db) (notify_customer env smtp clk)
              (mkState db db h)) as [[u|e] s']; reflexivity.
Qed.
End Blind.

Lemma set_customers_same (db : DB) : set_customers (Customers db) db = db.
Proof. destruct db; reflexivity. Qed.

Lemma check_and_notify_body_run (env : environ) (smtp : transport)
  (clk : clock) (s : state) :
  check_and_notify_body env smtp clk s
  = for_each (select_customers (working s)) (notify_customer env smtp clk) s.
Proof. reflexivity. Qed.

(** With another Customers table that reads the same through the SELECT
    of [check_and_notify], the run is the same. *)
Lemma check_and_notify_set_customers (env : environ) (smtp : transport)
  (clk : clock) (cs : list Customer) (db : DB) (h : list send_record) :
  select_customers (set_customers cs db) = select_customers db ->
  check_and_notify env smtp clk (set_customers cs db) h
  = (fst (fst (check_and_notify env smtp clk db h)),
     set_customers cs (snd (fst (check_and_notify env smtp clk db h))),
     snd (check_and_notify env smtp clk db h)).
Proof.
  apply (check_and_notify_on_store (set_customers cs)); reflexivity.
Qed.

(** X1. [check_and_notify] does not read the is_active column: customers
    that were deactivated are notified like the others, and the run
    leaves the column as it was. *)
Theorem check_and_notify_ignores_is_active (env : environ)
  (smtp : transport) (clk : clock) (g : Customer -> Z) (db : DB)
  (h : list send_record) :
  check_and_notify env smtp clk (with_is_active g db) h
  = (fst (fst (check_and_notify env smtp clk db h)),
     with_is_active g (snd (fst (check_and_notify env smtp clk db h))),
     snd (check_and_notify env smtp clk db h)).
Proof.
  set (cs := map (fun c => mkCustomer (c_id c) (c_name c) (c_contact c)
                             (c_start_date c) (g c)) (Customers db)).
  assert (E : with_is_active g db = set_customers cs db) by reflexivity.
  rewrite E, check_and_notify_set_customers.
  - destruct (check_and_notify env smtp clk db h) as [[r db'] h'] eqn:Hrun.
    cbn [fst snd]. apply check_and_notify_state in Hrun.
    destruct Hrun as (HC & _). cbn [working] in HC.
    unfold with_is_active, set_customers. now rewrite HC.
  - unfold select_customers, set_customers, cs; cbn [Customers].
    rewrite map_map. reflexivity.
Qed.

Lemma for_each_app {A} (body : A -> M unit) (l1 l2 : list A) (s : state) :
  for_each (l1 ++ l2) body s
  = bind (for_each l1 body) (fun _ => for_each l2 body) s.
Proof.
  revert s. induction l1 as [|x l1 IH]; intros s; cbn [app for_each].
  - reflexivity.
  - unfold bind in *.
    destruct (body x s) as [[[]|e] s']; [apply IH | reflexivity].
Qed.

(** X2. A customer whose due date cannot be computed stops the run where
    it stands: the customers before it in the table are notified and
    their records kept, the customers after it are not looked at, and the
    run ends with the error. *)
Theorem check_and_notify_stops_at_bad_customer (env : environ)
  (smtp : transport) (clk : clock) (db db1 : DB) (h h1 : list send_record)
  (good rest : list Customer) (bad : Customer) (e : exn) :
  Customers db = good ++ bad :: rest ->
  check_and_notify env smtp clk (set_customers good db) h = (Ok tt, db1, h1) ->
  notify_due (last_dose_log db (c_id bad)) (c_start_date bad) (today clk)
  = Raise e ->
  check_and_notify env smtp clk db h
  = (Raise e, set_customers (Customers db) db1, h1).
Proof.
  intros HC Hgood Hbad.
  pose proof (check_and_notify_state _ _ _ _ _ _ _ _ Hgood) as Hev.
  destruct Hev as (_ & _ & HD & _ & _). cbn [working set_customers DoseLogs] in HD.
  unfold check_and_notify, with_connection in *.
  rewrite check_and_notify_body_run in Hgood.
  rewrite check_and_notify_body_run.
  cbn [working] in *.
  set (nc := notify_customer env smtp clk) in *.
  set (sel := fun c : Customer =>
                (c_id c, c_name c, c_contact c, c_start_date c)).
  assert (Hsg : select_customers (set_customers good db) = map sel good)
    by reflexivity.
  assert (Hsf : select_customers db
                = map sel good ++ sel bad :: map sel rest).
  { unfold select_customers. rewrite HC, map_app. reflexivity. }
  rewrite Hsg in Hgood. rewrite Hsf, for_each_app.
  replace (mkState db db h)
    with (on_stores (set_customers (Customers db))
            (mkState (set_customers good db) (set_customers good db) h))
    by (unfold on_stores; cbn [committed working history set_customers];
        destruct db; reflexivity).
  unfold bind at 1. subst nc.
  rewrite (for_each_customers_blind (set_customers (Customers db)))
    by reflexivity.
  pose proof (evolves_for_each env (notify_customer env smtp clk)
                (map sel good) (notify_customer_evolves env smtp clk)
                (mkState (set_customers good db) (set_customers good db) h))
    as Hev.
  destruct (for_each (map sel good) (notify_customer env smtp clk)
              (mkState (set_customers good db) (set_customers good db) h))
    as [[[]|e0] s1] eqn:E1; [|discriminate].
  injection Hgood as <- <-. cbn [fst snd] in *.
  destruct Hev as (_ & _ & _ & _ & HK & _).
  cbn [committed working] in HK. specialize (HK eq_refl).
  cbn [for_each]. unfold bind at 1.
  unfold notify_customer at 1. cbn [sel].
  unfold bind at 1, read at 1. cbn [on_stores working].
  unfold bind at 1, lift at 1.
  replace (last_dose_log (set_customers (Customers db) (working s1))
             (c_id bad))
    with (last_dose_log db (c_id bad))
    by (unfold last_dose_log, set_customers; cbn [DoseLogs];
        now rewrite HD).
  rewrite Hbad. cbn [committed history on_stores]. now rewrite HK.
Qed.

Lemma check_and_notify_stops_at_bad_customer_witness :
  check_and_notify env_ready smtp_accepts clock_jan29 db_blank_start []
  = (Raise ValueError,
     set_customers (Customers db_blank_start)
       (snd (fst (check_and_notify env_ready smtp_accepts clock_jan29
                    (set_customers [mkCustomer 1 "kim" "010" "2024-01-01" 1]
                       db_blank_start) []))),
     snd (check_and_notify env_ready smtp_accepts clock_jan29
            (set_customers [mkCustomer 1 "kim" "010" "2024-01-01" 1]
               db_blank_start) [])).
Proof.
  apply (check_and_notify_stops_at_bad_customer env_ready smtp_accepts
           clock_jan29 db_blank_start _ [] _
           [mkCustomer 1 "kim" "010" "2024-01-01" 1]
           [mkCustomer 3 "park" "012" "2024-01-01" 1]
           (mkCustomer 2 "lee" "011" "" 1) ValueError).
  - reflexivity.
  - vm_compute. reflexivity.
  - vm_compute. reflexivity.
Defined.

(** ** What is sent on a day *)

Lemma notify_due_ok (last : option (string * option Z)) (start_date : string)
  (today next_date : date) (d_day : Z) :
  notify_due last start_date today = Ok (next_date, d_day) ->
  valid_date next_date = true
  /\ d_day = toordinal next_date - toordinal today.
Proof.
  unfold notify_due.
  destruct (match last with
            | Some (taken_date, tw) =>
                let? last_taken := strptime taken_date in
                Ok (last_taken, week_or_default tw)
            | None =>
                let? last_taken := strptime start_date in Ok (last_taken, 4)
            end) as [[last_taken weeks]|e]; cbn [rbind]; [|discriminate].
  destruct (timedelta_weeks weeks) as [delta|e]; cbn [rbind]; [|discriminate].
  destruct (date_add last_taken delta) as [nd|e] eqn:Ea; cbn [rbind];
    [|discriminate].
  apply date_add_spec in Ea as [V _].
  unfold d_day_of, date_sub, timedelta_days.
  destruct ((- MAX_DELTA_DAYS <=? toordinal nd - toordinal today)
            && (toordinal nd - toordinal today <=? MAX_DELTA_DAYS));
    cbn [rbind days]; [|discriminate].
  intros [= <- <-]. auto.
Qed.

Lemma sends_only_refl (P : send_record -> Prop) (s : state) :
  sends_only P s s.
Proof. exists []. rewrite app_nil_r. split; [reflexivity | intros r []]. Qed.

Lemma sends_only_trans (P : send_record -> Prop) (s1 s2 s3 : state) :
  sends_only P s1 s2 -> sends_only P s2 s3 -> sends_only P s1 s3.
Proof.
  intros (n1 & H1 & P1) (n2 & H2 & P2). exists (n1 ++ n2). split.
  - rewrite H2, H1. now rewrite app_assoc.
  - intros r Hr. apply in_app_or in Hr as [Hr|Hr]; auto.
Qed.

Lemma send_and_record_sends_only (P : send_record -> Prop) (env : environ)
  (smtp : transport) (now : string) (cid : Z) (name : string)
  (next_date : date) (d_day nd : Z) (s : state) :
  (forall sent, P (mkSend cid (notify_type_of nd) (isoformat next_date) sent)) ->
  sends_only P s
    (snd (send_and_record env smtp now cid name next_date d_day nd s)).
Proof.
  intros HP.
  destruct (send_and_record env smtp now cid name next_date d_day nd s)
    as [r s'] eqn:E. cbn [snd].
  apply send_and_record_cases in E
    as [(e & _ & ->)|(_ & sent & Hh & _)].
  - apply sends_only_refl.
  - exists [mkSend cid (notify_type_of nd) (isoformat next_date) sent].
    split; [exact Hh|]. intros r0 [<-|[]]. apply HP.
Qed.

Lemma notify_customer_sent_on (env : environ) (smtp : transport)
  (clk : clock) (ids : list Z) (cust : Z * string * string * string)
  (s : state) :
  valid_date (today clk) = true ->
  In (fst (fst (fst cust))) ids ->
  sends_only (sent_on (today clk) ids) s
    (snd (notify_customer env smtp clk cust s)).
Proof.
  destruct cust as [[[cid name] contact] start_date]. cbn [fst].
  intros Vt Hid. unfold notify_customer.
  apply (bind_rel _ (sends_only_trans _)); [apply sends_only_refl|].
  intros last _. cbn [snd read].
  apply (bind_rel _ (sends_only_trans _)); [apply sends_only_refl|].
  intros [next_date d_day] Hdue. cbn [fst snd lift] in *.
  apply notify_due_ok in Hdue as [Vn Hd].
  unfold notify_milestones.
  apply (for_each_rel _ (sends_only_refl _) (sends_only_trans _)).
  intros nd s' Hnd.
  destruct (Z.eqb_spec d_day nd) as [E|E]; [|apply sends_only_refl].
  rewrite notify_milestone_run.
  destruct (already_notified _ _ _ _); [apply sends_only_refl|].
  apply send_and_record_sends_only. intros sent.
  unfold sent_on; cbn [s_customer_id s_notify_type s_notify_date].
  split; [exact Hid|].
  destruct Hnd as [<-|[<-|[]]].
  - left. split; [reflexivity|]. exists next_date.
    split; [exact Vn|]. split; [reflexivity | lia].
  - right. split; [reflexivity|]. f_equal.
    apply toordinal_inj; auto. lia.
Qed.

(** X3. Every call of [send_email_smtp] in a run is for a customer of the
    table, and either for the D-7 milestone of a due date exactly seven
    days after the day of the run, or for the D-0 milestone of the day of
    the run itself. *)
Theorem check_and_notify_sends_for_today (env : environ) (smtp : transport)
  (clk : clock) (db : DB) (h : list send_record) (r : result unit)
  (db' : DB) (h' : list send_record) :
  valid_date (today clk) = true ->
  check_and_notify env smtp clk db h = (r, db', h') ->
  exists new,
    h' = h ++ new
    /\ forall s, In s new ->
         In (s_customer_id s) (map c_id (Customers db))
         /\ ((s_notify_type s = "D-7"
              /\ exists due,
                  valid_date due = true
                  /\ s_notify_date s = isoformat due
                  /\ toordinal due = toordinal (today clk) + 7)
             \/ (s_notify_type s = "D-0"
                 /\ s_notify_date s = isoformat (today clk))).
Proof.
  intros Vt Hrun.
  assert (Hs : sends_only (sent_on (today clk) (map c_id (Customers db)))
                 (mkState db db h)
                 (snd (check_and_notify_body env smtp clk (mkState db db h)))).
  { rewrite check_and_notify_body_run. cbn [working].
    apply (for_each_rel _ (sends_only_refl _) (sends_only_trans _)).
    intros cust s Hc. apply notify_customer_sent_on; [exact Vt|].
    unfold select_customers in Hc. apply in_map_iff in Hc as (c & <- & Hc).
    cbn [fst]. now apply in_map. }
  unfold check_and_notify, with_connection in Hrun.
  destruct (check_and_notify_body env smtp clk (mkState db db h))
    as [[u|e] s']; injection Hrun as <- <- <-; exact Hs.
Qed.

Lemma check_and_notify_sends_for_today_witness :
  exists new,
    snd (check_and_notify env_ready smtp_accepts clock_jan29 db_no_logs [])
    = [] ++ new
    /\ forall s, In s new ->
         In (s_customer_id s) (map c_id (Customers db_no_logs))
         /\ ((s_notify_type s = "D-7"
              /\ exists due,
                  valid_date due = true
                  /\ s_notify_date s = isoformat due
                  /\ toordinal due = toordinal (today clock_jan29) + 7)
             \/ (s_notify_type s = "D-0"
                 /\ s_notify_date s = isoformat (today clock_jan29))).
Proof.
  apply (check_and_notify_sends_for_today env_ready smtp_accepts clock_jan29
           db_no_logs []
           (fst (fst (check_and_notify env_ready smtp_accepts clock_jan29
                        db_no_logs [])))
           (snd (fst (check_and_notify env_ready smtp_accepts clock_jan29
                        db_no_logs [])))).
  - reflexivity.
  - vm_compute. reflexivity.
Defined.

(** ** A mistyped EMAIL_PORT *)

Lemma send_email_smtp_bad_port (env : environ) (smtp : transport)
  (p : string) (e : exn) (calls : nat) (to_email subject body : string) :
  environ_get env "EMAIL_PORT" = Some p ->
  int_of_str p = Raise e ->
  send_email_smtp env smtp calls to_email subject body = Raise e.
Proof.
  intros Hp He. unfold send_email_smtp. rewrite Hp, He. reflexivity.
Qed.

Lemma send_and_record_bad_port (env : environ) (smtp : transport)
  (p : string) (e : exn) (now : string) (cid : Z) (name : string)
  (next_date : date) (d_day nd : Z) (s : state) :
  environ_get env "EMAIL_PORT" = Some p ->
  int_of_str p = Raise e ->
  snd (send_and_record env smtp now cid name next_date d_day nd s) = s.
Proof.
  intros Hp He. unfold send_and_record, bind, sends_so_far, lift.
  rewrite (send_email_smtp_bad_port env smtp p e _ _ _ _ Hp He).
  reflexivity.
Qed.

Lemma notify_customer_bad_port (env : environ) (smtp : transport)
  (p : string) (e : exn) (clk : clock)
  (cust : Z * string * string * string) (s : state) :
  environ_get env "EMAIL_PORT" = Some p ->
  int_of_str p = Raise e ->
  snd (notify_customer env smtp clk cust s) = s.
Proof.
  destruct cust as [[[cid name] contact] start_date]. intros Hp He.
  pose (R := fun s s' : state => s' = s).
  assert (Rr : forall s0, R s0 s0) by reflexivity.
  assert (Rt : forall s1 s2 s3, R s1 s2 -> R s2 s3 -> R s1 s3)
    by (unfold R; intros; congruence).
  change (R s (snd (notify_customer env smtp clk
                      (cid, name, contact, start_date) s))).
  unfold notify_customer.
  apply (bind_rel R Rt); [apply Rr|]. intros last _. cbn [snd read].
  apply (bind_rel R Rt); [apply Rr|]. intros [next_date d_day] _.
  cbn [snd lift]. unfold notify_milestones.
  apply (for_each_rel R Rr Rt). intros nd s' _.
  destruct (d_day =? nd); [|apply Rr].
  rewrite notify_milestone_run.
  destruct (already_notified _ _ _ _); [apply Rr|].
  exact (send_and_record_bad_port env smtp p e _ _ _ _ _ _ _ Hp He).
Qed.

(** X4. When EMAIL_PORT holds text that [int()] rejects, every call of
    [send_email_smtp] raises that error, before the credentials are looked
    at; a run of [check_and_notify], whether it returns or raises, then
    sends nothing and leaves the store as it was. *)
Theorem bad_email_port_blocks_notifications (env : environ)
  (smtp : transport) (clk : clock) (db : DB) (h : list send_record)
  (p : string) (e : exn) :
  environ_get env "EMAIL_PORT" = Some p ->
  int_of_str p = Raise e ->
  (forall calls to_email subject body,
      send_email_smtp env smtp calls to_email subject body = Raise e)
  /\ snd (fst (check_and_notify env smtp clk db h)) = db
  /\ snd (check_and_notify env smtp clk db h) = h.
Proof.
  intros Hp He. split.
  - intros. now apply (send_email_smtp_bad_port env smtp p e).
  - assert (Hs : snd (check_and_notify_body env smtp clk (mkState db db h))
                 = mkState db db h).
    { rewrite check_and_notify_body_run. cbn [working].
      apply (for_each_rel (fun s s' : state => s' = s));
        [reflexivity | intros; congruence|].
      intros cust s _. now apply (notify_customer_bad_port env smtp p e). }
    unfold check_and_notify, with_connection.
    destruct (check_and_notify_body env smtp clk (mkState db db h))
      as [[u|e'] s']; cbn [snd] in Hs; subst s'; cbn [fst snd]; auto.
Qed.

Lemma bad_email_port_blocks_notifications_witness :
  (forall calls to_email subject body,
      send_email_smtp env_bad_port smtp_accepts calls to_email subject body
      = Raise ValueError)
  /\ snd (fst (check_and_notify env_bad_port smtp_accepts clock_jan29
                 db_no_logs [])) = db_no_logs
  /\ snd (check_and_notify env_bad_port smtp_accepts clock_jan29
            db_no_logs []) = [].
Proof.
  apply (bad_email_port_blocks_notifications env_bad_port smtp_accepts
           clock_jan29 db_no_logs [] "465x" ValueError).
  - reflexivity.
  - vm_compute. reflexivity.
Defined.

End NotifyMore.

(** * The dose-log routes *)

Module DoseLogFacts.
Import Datetime PyText Sqlite App Routes Admin Runs Frames Examples
  Examples2.
Import DatetimeFacts PyTextFacts SqliteFacts DueDate Notify Registration
  NotifyMore.

Lemma last_dose_log_map (g : DoseLog -> DoseLog) (db : DB) (cid : Z) :
  (forall l, l_customer_id (g l) = l_customer_id l) ->
  (forall l, l_taken_date (g l) = l_taken_date l) ->
  (forall l, l_taken_week (g l) = l_taken_week l) ->
  last_dose_log (map_dose_logs g db) cid = last_dose_log db cid.
Proof.
  intros Hc Hd Hw. rewrite !last_dose_log_head.
  unfold map_dose_logs; cbn [DoseLogs].
  rewrite (filter_map_commute _ g) by (intros a; now rewrite Hc).
  unfold order_by_text_desc.
  rewrite (sort_by_map _ g) by (intros a b; now rewrite !Hd).
  destruct (sort_by _ _) as [|l rest]; cbn [map hd_error option_map];
    [reflexivity|].
  now rewrite Hd, Hw.
Qed.

(** X5. [check_and_notify] reads only the customer_id, taken_date and
    taken_week of a dose log: with the other columns (id, note,
    extra_weeks) rewritten in any way, a run returns the same, sends the
    same mails and writes the same notification records. *)
Theorem check_and_notify_reads_three_columns (env : environ)
  (smtp : transport) (clk : clock) (g : DoseLog -> DoseLog) (db : DB)
  (h : list send_record) :
  (forall l, l_customer_id (g l) = l_customer_id l) ->
  (forall l, l_taken_date (g l) = l_taken_date l) ->
  (forall l, l_taken_week (g l) = l_taken_week l) ->
  check_and_notify env smtp clk (map_dose_logs g db) h
  = (fst (fst (check_and_notify env smtp clk db h)),
     map_dose_logs g (snd (fst (check_and_notify env smtp clk db h))),
     snd (check_and_notify env smtp clk db h)).
Proof.
  intros Hc Hd Hw.
  apply (check_and_notify_on_store (map_dose_logs g)); try reflexivity.
  intros db0 cid. now apply last_dose_log_map.
Qed.

Lemma check_and_notify_reads_three_columns_witness :
  check_and_notify env_ready smtp_accepts clock_feb22
    (map_dose_logs (with_travel 2) db_one_log) []
  = (fst (fst (check_and_notify env_ready smtp_accepts clock_feb22
                 db_one_log [])),
     map_dose_logs (with_travel 2)
       (snd (fst (check_and_notify env_ready smtp_accepts clock_feb22
                    db_one_log []))),
     snd (check_and_notify env_ready smtp_accepts clock_feb22 db_one_log [])).
Proof.
  apply (check_and_notify_reads_three_columns env_ready smtp_accepts
           clock_feb22 (with_travel 2) db_one_log []);
    intros l; reflexivity.
Defined.

(** ** A new dose log *)





Lemma fold_max_ge (ids : list Z) (seq : Z) :
  seq <= fold_right Z.max seq ids
  /\ forall i, In i ids -> i <= fold_right Z.max seq ids.
Proof.
  induction ids as [|x ids [IH1 IH2]]; cbn [fold_right].
  - split; [lia | intros i []].
  - split; [lia|]. intros i [<-|Hi]; [lia|]. specialize (IH2 i Hi). lia.
Qed.

Lemma filter_all {A} (p : A -> bool) (l : list A) :
  (forall x, In x l -> p x = true) -> filter p l = l.
Proof.
  induction l as [|x l IH]; intros H; cbn [filter]; [reflexivity|].
  rewrite (H x) by now left. f_equal. apply IH. intros y Hy. apply H.
  now right.
Qed.

(** X7. Deleting the dose log that [add_dose_log] has just stored gives
    back the rows of the three tables as they were before; only the
    AUTOINCREMENT counter keeps the id that was used, which is larger than
    every id in the table and than the counter before, so no later log
    gets it again. *)
Theorem delete_dose_log_undoes_add (cid cid' : Z) (f : form) (db db1 : DB)
  (r : response) :
  add_dose_log cid f db = (Ok r, db1) ->
  snd (delete_dose_log cid' (DoseLogs_seq db1) db1)
  = mkDB (Customers db) (Customers_seq db)
         (DoseLogs db) (DoseLogs_seq db1)
         (NotificationLogs db) (NotificationLogs_seq db)
  /\ DoseLogs_seq db < DoseLogs_seq db1
  /\ (forall l, In l (DoseLogs db) -> l_id l < DoseLogs_seq db1)
  /\ exists l, DoseLogs db1 = DoseLogs db ++ [l]
               /\ l_id l = DoseLogs_seq db1 /\ l_customer_id l = cid.
Proof.
  unfold add_dose_log.
  destruct (let? taken_date := form_item f "taken_date" in _)
    as [[[taken_date weeks] note]|e]; [|discriminate].
  intros [= _ <-].
  pose proof (fold_max_ge (map l_id (DoseLogs db)) (DoseLogs_seq db))
    as [Hs Hi].
  assert (Hlt : forall l, In l (DoseLogs db) ->
                  l_id l
                  < next_rowid (map l_id (DoseLogs db)) (DoseLogs_seq db)).
  { intros l Hl. unfold next_rowid.
    specialize (Hi (l_id l) (in_map l_id _ _ Hl)). lia. }
  unfold delete_dose_log, insert_dose_log;
    cbn [snd DoseLogs DoseLogs_seq Customers Customers_seq NotificationLogs
           NotificationLogs_seq].
  split; [|split; [unfold next_rowid; lia | split; [exact Hlt|]]].
  - f_equal. rewrite filter_app. cbn [filter l_id].
    rewrite Z.eqb_refl. cbn [negb]. rewrite app_nil_r.
    apply filter_all. intros l Hl. specialize (Hlt l Hl).
    destruct (Z.eqb_spec (l_id l)
                (next_rowid (map l_id (DoseLogs db)) (DoseLogs_seq db)));
      [lia | reflexivity].
  - eexists. split; [reflexivity|]. split; reflexivity.
Qed.

Lemma delete_dose_log_undoes_add_witness :
  snd (delete_dose_log 1
         (DoseLogs_seq (snd (add_dose_log 1 form_refill db_one_log)))
         (snd (add_dose_log 1 form_refill db_one_log)))
  = mkDB (Customers db_one_log) (Customers_seq db_one_log)
         (DoseLogs db_one_log)
         (DoseLogs_seq (snd (add_dose_log 1 form_refill db_one_log)))
         (NotificationLogs db_one_log) (NotificationLogs_seq db_one_log)
  /\ DoseLogs_seq db_one_log
     < DoseLogs_seq (snd (add_dose_log 1 form_refill db_one_log))
  /\ (forall l, In l (DoseLogs db_one_log) ->
        l_id l < DoseLogs_seq (snd (add_dose_log 1 form_refill db_one_log)))
  /\ exists l,
      DoseLogs (snd (add_dose_log 1 form_refill db_one_log))
      = DoseLogs db_one_log ++ [l]
      /\ l_id l = DoseLogs_seq (snd (add_dose_log 1 form_refill db_one_log))
      /\ l_customer_id l = 1.
Proof.
  apply (delete_dose_log_undoes_add 1 1 form_refill db_one_log
           (snd (add_dose_log 1 form_refill db_one_log))
           (redirect_view_customer 1)).
  vm_compute. reflexivity.
Defined.

Lemma map_same {A} (g : A -> A) (l : list A) :
  (forall x, In x l -> g x = x) -> map g l = l.
Proof.
  induction l as [|x l IH]; intros H; cbn [map]; [reflexivity|].
  rewrite (H x) by now left. f_equal. apply IH. intros y Hy. apply H.
  now right.
Qed.

Lemma db_eta (db : DB) :
  mkDB (Customers db) (Customers_seq db) (DoseLogs db) (DoseLogs_seq db)
       (NotificationLogs db) (NotificationLogs_seq db) = db.
Proof. destruct db; reflexivity. Qed.



(** X9. When the dose logs of a customer all have the id that
    [delete_dose_log] is called with (the customer's only log, such as the
    seed log of the registration), the customer is left without a dose
    log and [check_and_notify] computes the due date from the start date
    again: start date plus 28 days. *)
Theorem delete_only_dose_log (cid cid' log_id : Z) (db : DB)
  (start : date) (today : date) :
  (forall l, In l (DoseLogs db) -> l_customer_id l = cid ->
     l_id l = log_id) ->
  valid_date start = true ->
  valid_date today = true ->
  toordinal start + 28 <= MAXORDINAL ->
  exists next_date,
    notify_due (last_dose_log (snd (delete_dose_log cid' log_id db)) cid)
      (isoformat start) today
    = Ok (next_date, toordinal next_date - toordinal today)
    /\ valid_date next_date = true
    /\ toordinal next_date = toordinal start + 28.
Proof.
  intros Honly Vs Vt Hr.
  assert (E : last_dose_log (snd (delete_dose_log cid' log_id db)) cid
              = None).
  { apply last_dose_log_none. unfold delete_dose_log; cbn [snd DoseLogs].
    intros l Hl Hc. apply filter_In in Hl as [Hl Hne].
    rewrite (Honly l Hl Hc), Z.eqb_refl in Hne. discriminate. }
  rewrite E. pose proof (toordinal_range _ Vs).
  destruct (plus_weeks_ok start today 4 Vs Vt) as (nd & Hrun & Vn & Ho);
    [lia|].
  exists nd. unfold notify_due. rewrite strptime_isoformat by assumption.
  cbn [rbind]. split; [exact Hrun|]. split; [exact Vn | lia].
Qed.

Lemma delete_only_dose_log_witness :
  exists next_date,
    notify_due (last_dose_log (snd (delete_dose_log 1 1 db_one_log)) 1)
      (isoformat (mkdate 2024 2 1)) (mkdate 2024 2 22)
    = Ok (next_date, toordinal next_date - toordinal (mkdate 2024 2 22))
    /\ valid_date next_date = true
    /\ toordinal next_date = toordinal (mkdate 2024 2 1) + 28.
Proof.
  apply (delete_only_dose_log 1 1 1 db_one_log (mkdate 2024 2 1)
           (mkdate 2024 2 22)).
  - intros l [<-|[]] _. reflexivity.
  - reflexivity.
  - reflexivity.
  - vm_compute. discriminate.
Defined.

End DoseLogFacts.

(** * The home page *)

Module IndexFacts.
Import Datetime PyText Sqlite App Routes Admin Runs Frames Examples
  Examples2.
Import DatetimeFacts PyTextFacts SqliteFacts DueDate.

Section SortByAll.
Context {A : Type} (cmp : A -> A -> comparison).
Hypothesis cmp_antisym : forall x y, cmp x y = CompOpp (cmp y x).
Hypothesis cmp_trans :
  forall x y z, cmp x y <> Gt -> cmp y z <> Gt -> cmp x z <> Gt.

Lemma insert_sorted_perm (x : A) (l : list A) :
  Permutation (insert_sorted cmp x l) (x :: l).
Proof.
  induction l as [|y l IH]; cbn [insert_sorted]; [reflexivity|].
  destruct (cmp y x); try reflexivity;
    (etransitivity; [apply perm_skip, IH | apply perm_swap]).
Qed.

Lemma sort_by_perm (l : list A) : Permutation (sort_by cmp l) l.
Proof.
  unfold sort_by.
  assert (H : forall acc,
             Permutation
               (fold_left (fun acc x => insert_sorted cmp x acc) l acc)
               (l ++ acc)).
  { induction l as [|x l IH]; intros acc; cbn [fold_left app];
      [reflexivity|].
    rewrite IH. rewrite insert_sorted_perm. symmetry.
    apply Permutation_middle. }
  rewrite H. now rewrite app_nil_r.
Qed.

Lemma insert_sorted_sorted (x : A) (l : list A) :
  StronglySorted (fun a b => cmp a b <> Gt) l ->
  StronglySorted (fun a b => cmp a b <> Gt) (insert_sorted cmp x l).
Proof.
  induction 1 as [|y l Hs IH Hy]; cbn [insert_sorted].
  - constructor; constructor.
  - assert (Hxy : cmp y x = Gt -> cmp x y <> Gt)
      by (intros E; rewrite cmp_antisym, E; discriminate).
    destruct (cmp y x) eqn:E.
    + constructor; [exact IH|].
      apply (Permutation_Forall (Permutation_sym (insert_sorted_perm x l))).
      constructor; [rewrite E; discriminate | exact Hy].
    + constructor; [exact IH|].
      apply (Permutation_Forall (Permutation_sym (insert_sorted_perm x l))).
      constructor; [rewrite E; discriminate | exact Hy].
    + constructor; [now constructor|].
      constructor; [now apply Hxy|].
      eapply Forall_impl; [|exact Hy]. intros z Hz.
      apply cmp_trans with y; [now apply Hxy | exact Hz].
Qed.

Lemma sort_by_sorted (l : list A) :
  StronglySorted (fun a b => cmp a b <> Gt) (sort_by cmp l).
Proof.
  unfold sort_by.
  assert (H : forall acc,
             StronglySorted (fun a b => cmp a b <> Gt) acc ->
             StronglySorted (fun a b => cmp a b <> Gt)
               (fold_left (fun acc x => insert_sorted cmp x acc) l acc)).
  { induction l as [|x l IH]; intros acc Hacc; cbn [fold_left];
      [exact Hacc|].
    apply IH, insert_sorted_sorted, Hacc. }
  apply H. constructor.
Qed.
End SortByAll.

Lemma order_by_nocase_asc_perm {A} (key : A -> string) (l : list A) :
  Permutation (order_by_nocase_asc key l) l.
Proof. apply sort_by_perm. Qed.

Lemma order_by_nocase_asc_sorted {A} (key : A -> string) (l : list A) :
  StronglySorted (fun a b => nocase_le (key a) (key b))
    (order_by_nocase_asc key l).
Proof.
  unfold order_by_nocase_asc, nocase_le.
  apply (sort_by_sorted
           (fun a b => String.compare (nocase (key a)) (nocase (key b)))).
  - intros a b. apply String.compare_antisym.
  - intros a b c. apply string_compare_trans.
Qed.

Lemma StronglySorted_Forall2 {A B} (R : A -> B -> Prop)
  (leA : A -> A -> Prop) (leB : B -> B -> Prop) (l : list A) (l' : list B) :
  (forall a b a' b', R a a' -> R b b' -> leA a b -> leB a' b') ->
  Forall2 R l l' -> StronglySorted leA l -> StronglySorted leB l'.
Proof.
  intros Hle HF. induction HF as [|a a' l l' Ha HF IH]; intros HS.
  - constructor.
  - inversion HS as [|? ? HS' Hall]; subst. constructor; [now apply IH|].
    clear IH HS HS'. induction HF as [|b b' l l' Hb HF IH];
      [constructor|].
    inversion Hall; subst. constructor; [eapply Hle; eauto | now apply IH].
Qed.

(** What the loop of [index] makes of a customer. *)
Lemma index_rows_Forall2 (db : DB) (today : date) (customers : list Customer)
  (entries : list index_entry) :
  index_rows db today customers = Ok entries ->
  Forall2
    (fun c e =>
       entry_row e = customer_row c
       /\ exists next_date,
           index_due (last_dose_log db (c_id c)) (c_start_date c) today
           = Ok (next_date, e_d_day e))
    customers entries.
Proof.
  revert entries. induction customers as [|c rest IH]; intros entries;
    cbn [index_rows].
  - intros [= <-]. constructor.
  - destruct (index_due (last_dose_log db (c_id c)) (c_start_date c) today)
      as [[nd dd]|e] eqn:E; cbn [rbind]; [|discriminate].
    destruct (index_rows db today rest) as [es|e]; cbn [rbind];
      [|discriminate].
    intros [= <-]. constructor; [|now apply IH].
    split; [reflexivity|]. exists nd. exact E.
Qed.

Lemma index_rows_returns (db : DB) (today : date)
  (customers : list Customer) :
  (exists entries, index_rows db today customers = Ok entries)
  <-> forall c, In c customers ->
        exists r,
          index_due (last_dose_log db (c_id c)) (c_start_date c) today
          = Ok r.
Proof.
  induction customers as [|c rest IH]; cbn [index_rows].
  - split; [intros _ c [] | intros _; now exists []].
  - destruct (index_due (last_dose_log db (c_id c)) (c_start_date c) today)
      as [[nd dd]|e] eqn:E; cbn [rbind].
    + destruct (index_rows db today rest) as [es|e]; cbn [rbind].
      * split; [|intros _; eexists; reflexivity].
        intros _ c' [<-|Hc']; [now exists (nd, dd)|].
        apply (proj1 IH); [now exists es | exact Hc'].
      * split; [intros [es [=]]|]. intros H. exfalso.
        destruct (proj2 IH) as [es Hes]; [|discriminate].
        intros c' Hc'. apply H. now right.
    + split; [intros [es [=]]|]. intros H.
      destruct (H c (or_introl eq_refl)) as [r Hr]. rewrite E in Hr.
      discriminate.
Qed.

Lemma active_sorted_In (db : DB) (c : Customer) :
  In c (order_by_nocase_asc c_name
          (filter (fun c => c_is_active c =? 1) (Customers db)))
  <-> In c (Customers db) /\ c_is_active c = 1.
Proof.
  split.
  - intros H.
    apply (Permutation_in _ (order_by_nocase_asc_perm c_name _)) in H.
    apply filter_In in H as [H1 H2]. apply Z.eqb_eq in H2. auto.
  - intros [H1 H2].
    apply (Permutation_in _
             (Permutation_sym (order_by_nocase_asc_perm c_name _))).
    apply filter_In. split; [exact H1 | now apply Z.eqb_eq].
Qed.

(** X10. The home page is rendered exactly when the due date of every
    active customer can be computed by [index]: one active customer with
    a start date or dose log that the computation rejects makes the page
    fail, and inactive customers are not looked at. *)
Theorem index_returns_iff (today : date) (db : DB) :
  (exists customer_list, index today db = Ok (render_index customer_list))
  <-> forall c, In c (Customers db) -> c_is_active c = 1 ->
        exists r,
          index_due (last_dose_log db (c_id c)) (c_start_date c) today
          = Ok r.
Proof.
  unfold index.
  set (customers := order_by_nocase_asc c_name
                      (filter (fun c => c_is_active c =? 1) (Customers db))).
  pose proof (index_rows_returns db today customers) as H.
  split.
  - intros [es Hes] c Hc Ha. apply (proj1 H).
    + destruct (index_rows db today customers) as [l|e]; cbn [rbind] in Hes;
        [now exists l | discriminate].
    + apply active_sorted_In. auto.
  - intros Hall. destruct (proj2 H) as [es Hes].
    + intros c Hc. apply active_sorted_In in Hc as [Hc Ha]. auto.
    + exists es. now rewrite Hes.
Qed.

(** X11. When the home page is rendered, it lists the active customers
    and only them, each once, in the order of their names without regard
    to ASCII case, each with its id, name, contact and start date and the
    D-day that [index] computes for it. *)
Theorem index_lists_active_customers (today : date) (db : DB)
  (customer_list : list index_entry) :
  index today db = Ok (render_index customer_list) ->
  Permutation (map entry_row customer_list)
    (map customer_row
       (filter (fun c => c_is_active c =? 1) (Customers db)))
  /\ StronglySorted (fun a b => nocase_le (e_name a) (e_name b))
       customer_list
  /\ Forall
       (fun e =>
          exists c next_date,
            In c (Customers db) /\ c_is_active c = 1
            /\ entry_row e = customer_row c
            /\ index_due (last_dose_log db (c_id c)) (c_start_date c) today
               = Ok (next_date, e_d_day e))
       customer_list.
Proof.
  unfold index.
  set (customers := order_by_nocase_asc c_name
                      (filter (fun c => c_is_active c =? 1) (Customers db))).
  destruct (index_rows db today customers) as [es|e] eqn:E; cbn [rbind];
    [|discriminate].
  intros [= <-]. apply index_rows_Forall2 in E.
  split; [|split].
  - assert (Hm : map entry_row es = map customer_row customers).
    { clear -E. induction E as [|c e cs es [He _] _ IH]; cbn [map];
        [reflexivity|]. now rewrite He, IH. }
    rewrite Hm. apply Permutation_map, order_by_nocase_asc_perm.
  - refine (StronglySorted_Forall2 _ _ _ _ _ _ E
              (order_by_nocase_asc_sorted c_name _)).
    intros a b a' b' [Ha _] [Hb _] H.
    unfold entry_row, customer_row in Ha, Hb.
    injection Ha as _ Ha _ _. injection Hb as _ Hb _ _.
    cbn beta in *. now rewrite Ha, Hb.
  - assert (Hin : forall c, In c customers ->
                    In c (Customers db) /\ c_is_active c = 1)
      by (intros c; apply active_sorted_In).
    clear -E Hin. induction E as [|c e cs es [He [nd Hd]] _ IH];
      constructor.
    + exists c, nd. destruct (Hin c (or_introl eq_refl)). auto.
    + apply IH. intros c' Hc'. apply Hin. now right.
Qed.

Lemma index_lists_active_customers_witness :
  Permutation (map entry_row listing_mixed_case)
    (map customer_row
       (filter (fun c => c_is_active c =? 1) (Customers db_mixed_case)))
  /\ StronglySorted (fun a b => nocase_le (e_name a) (e_name b))
       listing_mixed_case
  /\ Forall
       (fun e =>
          exists c next_date,
            In c (Customers db_mixed_case) /\ c_is_active c = 1
            /\ entry_row e = customer_row c
            /\ index_due (last_dose_log db_mixed_case (c_id c))
                 (c_start_date c) (mkdate 2024 2 22)
               = Ok (next_date, e_d_day e))
       listing_mixed_case.
Proof.
  apply (index_lists_active_customers (mkdate 2024 2 22) db_mixed_case
           listing_mixed_case).
  vm_compute. reflexivity.
Defined.

End IndexFacts.

(** * The page of a customer *)

Module ViewFacts.
Import Datetime PyText Sqlite App Routes Admin Runs Frames Examples
  Examples2.
Import DatetimeFacts PyTextFacts SqliteFacts DueDate.




Lemma view_due_ok (customer : option Customer) (logs : list DoseLog)
  (today next_date alert_date : date) (d_day : Z) :
  view_due customer logs today = Ok (next_date, alert_date, d_day) ->
  valid_date next_date = true
  /\ valid_date alert_date = true
  /\ toordinal alert_date = toordinal next_date - 7
  /\ d_day = toordinal next_date - toordinal today.
Proof.
  unfold view_due.
  destruct (match logs with
            | [] => _
            | log0 :: _ => _
            end) as [[latest taken_week]|e]; cbn [rbind]; [|discriminate].
  destruct (timedelta_weeks taken_week) as [delta|e]; cbn [rbind];
    [|discriminate].
  destruct (date_add latest delta) as [nd|e] eqn:Ea; cbn [rbind];
    [|discriminate].
  apply date_add_spec in Ea as [Vn _].
  rewrite timedelta_days_ok by (unfold MAX_DELTA_DAYS; lia). cbn [rbind].
  unfold date_sub_delta; cbn [days].
  rewrite timedelta_days_ok by (unfold MAX_DELTA_DAYS; lia). cbn [rbind].
  destruct (date_add nd (mktimedelta (- (7)))) as [ad|e] eqn:Eb; cbn [rbind];
    [|discriminate].
  apply date_add_spec in Eb as [Va Ho]. cbn [days] in Ho.
  unfold d_day_of, date_sub, timedelta_days.
  destruct ((- MAX_DELTA_DAYS <=? toordinal nd - toordinal today)
            && (toordinal nd - toordinal today <=? MAX_DELTA_DAYS));
    cbn [rbind days]; [|discriminate].
  intros [= <- <- <-]. repeat split; auto.
Qed.

(** X13. When [view_customer] renders a page, the due date on it is a
    date, the D-day is the number of days from today to it, and the alert
    date is the day seven days before it, which is the day on which the
    D-day is 7; for a customer that exists, the due date and D-day are the
    ones that [check_and_notify] computes for the customer on that day. *)
Theorem view_customer_shows_notify_due (today : date) (customer_id : Z)
  (db : DB) (customer : option Customer) (logs : list DoseLog)
  (next_date alert_date : date) (d_day : Z) :
  view_customer today customer_id db
  = Ok (render_customer customer logs next_date alert_date d_day) ->
  valid_date next_date = true
  /\ valid_date alert_date = true
  /\ toordinal alert_date = toordinal next_date - 7
  /\ d_day_of next_date alert_date = Ok 7
  /\ d_day = toordinal next_date - toordinal today
  /\ forall c, customer = Some c ->
       In c (Customers db) /\ c_id c = customer_id
       /\ notify_due (last_dose_log db customer_id) (c_start_date c) today
          = Ok (next_date, d_day).
Proof.
  unfold view_customer.
  set (cust := fetchone (filter (fun c => c_id c =? customer_id)
                           (Customers db))).
  set (ls := order_by_text_desc l_taken_date
               (filter (fun l => l_customer_id l =? customer_id)
                  (DoseLogs db))).
  destruct (view_due cust ls today) as [[[nd ad] dd]|e] eqn:E; cbn [rbind];
    [|discriminate].
  intros [= <- <- <- <- <-].
  pose proof (view_due_ok _ _ _ _ _ _ E) as (Vn & Va & Ho & Hd).
  do 3 (split; [assumption|]).
  split; [rewrite d_day_of_valid by assumption; f_equal; lia|].
  split; [assumption|].
  intros c Hc. rewrite Hc in E.
  assert (Hin : In c (filter (fun c => c_id c =? customer_id)
                        (Customers db))).
  { unfold cust, fetchone in Hc.
    destruct (filter _ (Customers db)) as [|c0 rest]; [discriminate|].
    injection Hc as ->. now left. }
  apply filter_In in Hin as [Hin Hid]. apply Z.eqb_eq in Hid.
  split; [exact Hin|]. split; [exact Hid|].
  rewrite last_dose_log_head. fold ls.
  now apply view_due_notify_due with (alert_date := ad).
Qed.

Lemma view_customer_shows_notify_due_witness :
  valid_date (mkdate 2024 2 29) = true
  /\ valid_date (mkdate 2024 2 22) = true
  /\ toordinal (mkdate 2024 2 22) = toordinal (mkdate 2024 2 29) - 7
  /\ d_day_of (mkdate 2024 2 29) (mkdate 2024 2 22) = Ok 7
  /\ 7 = toordinal (mkdate 2024 2 29) - toordinal (mkdate 2024 2 22)
  /\ forall c, Some (mkCustomer 1 "kim" "010" "2024-02-01" 1) = Some c ->
       In c (Customers db_one_log) /\ c_id c = 1
       /\ notify_due (last_dose_log db_one_log 1) (c_start_date c)
            (mkdate 2024 2 22)
          = Ok (mkdate 2024 2 29, 7).
Proof.
  apply (view_customer_shows_notify_due (mkdate 2024 2 22) 1 db_one_log
           (Some (mkCustomer 1 "kim" "010" "2024-02-01" 1))
           (DoseLogs db_one_log)).
  vm_compute. reflexivity.
Defined.

End ViewFacts.

(** * The start of the program: [init_db] and [migrate_db] *)

Module SetupFacts.
Import Sqlite Schema Columns Admin Examples Examples2.
Import Migration.

Lemma table_extends_refl (t : table) : table_extends t t.
Proof.
  split; [reflexivity|]. exists []. split; [now rewrite app_nil_r|].
  cbn [map]. induction (t_rows t) as [|r rows IH]; cbn [map];
    [reflexivity|].
  now rewrite app_nil_r, <- IH.
Qed.

Lemma table_extends_trans (t1 t2 t3 : table) :
  table_extends t1 t2 -> table_extends t2 t3 -> table_extends t1 t3.
Proof.
  intros (N1 & c1 & C1 & R1) (N2 & c2 & C2 & R2). split; [congruence|].
  exists (c1 ++ c2). split.
  - now rewrite C2, C1, app_assoc.
  - rewrite R2, R1, map_map. apply map_ext. intros r.
    now rewrite map_app, app_assoc.
Qed.

Lemma extends_refl (db : database) : Forall2 table_extends db db.
Proof.
  induction db; constructor; [apply table_extends_refl | assumption].
Qed.

Lemma extends_trans (db1 db2 db3 : database) :
  Forall2 table_extends db1 db2 -> Forall2 table_extends db2 db3 ->
  Forall2 table_extends db1 db3.
Proof.
  intros H. revert db3. induction H as [|t1 t2 l1 l2 Ht H IH]; intros db3 H3;
    inversion H3; subst; constructor.
  - eapply table_extends_trans; eassumption.
  - now apply IH.
Qed.

Lemma alter_extends (name : string) (col : column) (db db' : database) :
  alter_table_add_column name col db = Ok db' ->
  Forall2 table_extends db db'.
Proof.
  revert db'. induction db as [|t rest IH]; intros db';
    cbn [alter_table_add_column]; [discriminate|].
  destruct (same_name (t_name t) name).
  - destruct (has_column t (col_name col)); [discriminate|].
    intros [= <-]. constructor; [|apply extends_refl].
    split; [reflexivity|]. exists [col]. split; reflexivity.
  - destruct (alter_table_add_column name col rest) as [rest'|e];
      [|discriminate].
    intros [= <-]. constructor; [apply table_extends_refl | now apply IH].
Qed.

Lemma try_add_column_extends (name : string) (col : column)
  (added skipped : string) (db db' : database) (out out' : list string)
  (r : result unit) :
  try_add_column name col added skipped db out = (r, db', out') ->
  Forall2 table_extends db db'.
Proof.
  unfold try_add_column.
  destruct (alter_table_add_column name col db) as [db1|e] eqn:E.
  - intros [= _ <- _]. now apply alter_extends in E.
  - destruct e; try (intros [= _ <- _]; apply extends_refl).
    destruct (contains _ _); intros [= _ <- _]; apply extends_refl.
Qed.

Lemma try_add_column_tables (name : string) (col : column)
  (added skipped : string) (db db' : database) (out out' : list string)
  (r : result unit) :
  try_add_column name col added skipped db out = (r, db', out') ->
  forall n, has_table db' n = has_table db n.
Proof.
  unfold try_add_column.
  destruct (alter_table_add_column name col db) as [db1|e] eqn:E.
  - intros [= _ <- _]. exact (alter_ok_tables name col db db1 E).
  - destruct e; try (intros [= _ <- _]; reflexivity).
    destruct (contains _ _); intros [= _ <- _]; reflexivity.
Qed.

Lemma alter_no_table (name : string) (col : column) (db : database) :
  has_table db name = false ->
  alter_table_add_column name col db
  = Raise (OperationalError ("no such table: " ++ name)%string).
Proof.
  unfold has_table. induction db as [|t rest IH];
    cbn [alter_table_add_column existsb]; [reflexivity|].
  destruct (same_name (t_name t) name); cbn [orb]; [discriminate|].
  intros H. now rewrite IH.
Qed.

Lemma try_add_column_no_table (name : string) (col : column)
  (added skipped : string) (db : database) (out : list string) :
  contains "duplicate column name" ("no such table: " ++ name) = false ->
  has_table db name = false ->
  try_add_column name col added skipped db out
  = (Raise (OperationalError ("no such table: " ++ name)%string), db, out).
Proof.
  intros Hn Ht. unfold try_add_column. rewrite alter_no_table by assumption.
  cbn [str_of_exn]. now rewrite Hn.
Qed.

Lemma init_db_tables (db : database) (n : string) :
  has_table (init_db db) n
  = has_table db n || same_name "Customers" n || same_name "DoseLogs" n
    || same_name "NotificationLogs" n.
Proof. unfold init_db. now rewrite !has_table_create. Qed.

Lemma create_table_appends (name : string) (cols : list column)
  (db : database) :
  exists new,
    create_table_if_not_exists name cols db = db ++ new
    /\ Forall (fun t => t_rows t = []) new.
Proof.
  unfold create_table_if_not_exists. destruct (has_table db name).
  - exists []. split; [now rewrite app_nil_r | constructor].
  - eexists. split; [reflexivity|]. repeat constructor.
Qed.

Lemma init_db_appends (db : database) :
  exists new,
    init_db db = db ++ new /\ Forall (fun t => t_rows t = []) new.
Proof.
  unfold init_db.
  destruct (create_table_appends "Customers"
              [mkColumn "id" "INTEGER PRIMARY KEY AUTOINCREMENT" Null;
               mkColumn "name" "TEXT NOT NULL" Null;
               mkColumn "contact" "TEXT" Null;
               mkColumn "start_date" "DATE" Null] db) as (n1 & -> & F1).
  destruct (create_table_appends "DoseLogs"
              [mkColumn "id" "INTEGER PRIMARY KEY AUTOINCREMENT" Null;
               mkColumn "customer_id" "INTEGER" Null;
               mkColumn "taken_date" "DATE NOT NULL" Null;
               mkColumn "taken_week" "INTEGER" Null;
               mkColumn "note" "TEXT" Null] (db ++ n1)) as (n2 & -> & F2).
  destruct (create_table_appends "NotificationLogs"
              [mkColumn "id" "INTEGER PRIMARY KEY AUTOINCREMENT" Null;
               mkColumn "customer_id" "INTEGER" Null;
               mkColumn "notify_type" "TEXT" Null;
               mkColumn "notify_date" "DATE" Null;
               mkColumn "sent_at" "TIMESTAMP" (Text "CURRENT_TIMESTAMP")]
              ((db ++ n1) ++ n2)) as (n3 & -> & F3).
  exists (n1 ++ n2 ++ n3). split; [now rewrite !app_assoc|].
  apply Forall_app. split; [exact F1|]. apply Forall_app. now split.
Qed.

Lemma init_db_settled (db : database) :
  has_table db "Customers" = true ->
  has_table db "DoseLogs" = true ->
  has_table db "NotificationLogs" = true ->
  init_db db = db.
Proof.
  intros H1 H2 H3. unfold init_db, create_table_if_not_exists.
  now rewrite H1, H2, H3.
Qed.

Lemma migrate_db_extends (db db1 : database) (out out1 : list string)
  (r : result unit) :
  migrate_db db out = (r, db1, out1) ->
  Forall2 table_extends db db1
  /\ forall n, has_table db1 n = has_table db n.
Proof.
  unfold migrate_db.
  destruct (try_add_column "Customers" _ _ _ db out) as [[[[]|e] dba] outa]
    eqn:E1.
  - intros E2. split.
    + eapply extends_trans;
        [exact (try_add_column_extends _ _ _ _ _ _ _ _ _ E1)
        | exact (try_add_column_extends _ _ _ _ _ _ _ _ _ E2)].
    + intros n.
      rewrite (try_add_column_tables _ _ _ _ _ _ _ _ _ E2 n).
      exact (try_add_column_tables _ _ _ _ _ _ _ _ _ E1 n).
  - intros [= _ <- _]. split.
    + exact (try_add_column_extends _ _ _ _ _ _ _ _ _ E1).
    + exact (try_add_column_tables _ _ _ _ _ _ _ _ _ E1).
Qed.

Lemma migrate_db_columns (db db1 : database) (out out1 : list string) :
  migrate_db db out = (Ok tt, db1, out1) ->
  column_in db1 "Customers" "is_active" = true
  /\ column_in db1 "DoseLogs" "extra_weeks" = true.
Proof.
  unfold migrate_db.
  destruct (try_add_column "Customers" _ _ _ db out) as [[[[]|e] dba] outa]
    eqn:E1; [|discriminate].
  intros E2.
  apply try_add_column_ok in E1 as [A1 A2]; [|reflexivity].
  apply try_add_column_ok in E2 as [B1 B2]; [|reflexivity].
  cbn [col_name] in *. auto.
Qed.

Lemma migrate_db_settled (db : database) (out : list string) :
  column_in db "Customers" "is_active" = true ->
  column_in db "DoseLogs" "extra_weeks" = true ->
  migrate_db db out
  = (Ok tt, db,
     out ++ ["is active 칼럼이 이미 존재합니다. 건너 뜁니다.";
             "extra_weeks 칼럼이 이미 존재합니다. 건너뜁니다."]).
Proof.
  intros H1 H2. unfold migrate_db.
  rewrite try_add_column_skip by exact H1.
  rewrite try_add_column_skip by exact H2.
  now rewrite <- app_assoc.
Qed.

Lemma migrate_db_returns (db : database) (out : list string) :
  has_table db "Customers" = true ->
  has_table db "DoseLogs" = true ->
  exists db1 out1, migrate_db db out = (Ok tt, db1, out1).
Proof.
  intros HC HD. unfold migrate_db.
  destruct (try_add_column_total "Customers"
              (mkColumn "is_active" "INTEGER" (Int 1))
              "is_active 칼럼이 추가되었습니다."
              "is active 칼럼이 이미 존재합니다. 건너 뜁니다." db out HC)
    as (dba & outa & -> & Ht).
  rewrite <- Ht in HD.
  destruct (try_add_column_total "DoseLogs"
              (mkColumn "extra_weeks" "INTEGER" (Int 0))
              "extra_weeks 칼럼이 추가되었습니다."
              "extra_weeks 칼럼이 이미 존재합니다. 건너뜁니다." dba outa HD)
    as (dbb & outb & -> & _).
  now exists dbb, outb.
Qed.

(** X14. Starting the program again changes nothing: [init_db] followed
    by [migrate_db] always returns, and run once more on the database it
    left, it returns with the tables, columns and rows exactly as they
    are, printing only that the two columns exist. *)
Theorem setup_again_changes_nothing (db : database) (out : list string) :
  exists db1 out1,
    setup db out = (Ok tt, db1, out1)
    /\ forall out',
        setup db1 out'
        = (Ok tt, db1,
           out' ++ ["is active 칼럼이 이미 존재합니다. 건너 뜁니다.";
                    "extra_weeks 칼럼이 이미 존재합니다. 건너뜁니다."]).
Proof.
  unfold setup.
  assert (HT : forall n, In n ["Customers"; "DoseLogs"; "NotificationLogs"]
                 -> has_table (init_db db) n = true).
  { intros n Hn. rewrite init_db_tables.
    destruct Hn as [<-|[<-|[<-|[]]]];
      rewrite ?orb_true_r; reflexivity. }
  destruct (migrate_db_returns (init_db db) out) as (db1 & out1 & E);
    [apply HT; cbn; tauto | apply HT; cbn; tauto|].
  exists db1, out1. split; [exact E|]. intros out'.
  pose proof (migrate_db_extends _ _ _ _ _ E) as [_ Ht].
  pose proof (migrate_db_columns _ _ _ _ E) as [C1 C2].
  rewrite init_db_settled by (rewrite Ht; apply HT; cbn; tauto).
  now apply migrate_db_settled.
Qed.

(** X15. Starting the program drops nothing: after [init_db] and
    [migrate_db], whether the migration returned or raised, every table
    that was there is still there under its name, with the columns it had
    followed by the added ones, and with every row holding its values
    followed by the defaults of the added columns; the tables that were
    created have no rows. *)
Theorem setup_keeps_data (db : database) (out : list string) :
  exists new,
    Forall (fun t => t_rows t = []) new
    /\ Forall2 table_extends (db ++ new) (snd (fst (setup db out))).
Proof.
  unfold setup. destruct (init_db_appends db) as (new & E & F).
  exists new. split; [exact F|]. rewrite <- E.
  destruct (migrate_db (init_db db) out) as [[r db1] out1] eqn:M.
  cbn [fst snd]. now apply migrate_db_extends in M.
Qed.

(** X16. [migrate_db] returns exactly when the tables Customers and
    DoseLogs both exist; called before [init_db] on a database without
    them it raises. *)
Theorem migrate_db_returns_iff (db : database) (out : list string) :
  (exists db1 out1, migrate_db db out = (Ok tt, db1, out1))
  <-> has_table db "Customers" = true /\ has_table db "DoseLogs" = true.
Proof.
  split.
  - intros (db1 & out1 & E).
    destruct (has_table db "Customers") eqn:HC.
    + split; [reflexivity|].
      destruct (has_table db "DoseLogs") eqn:HD; [reflexivity|]. exfalso.
      unfold migrate_db in E.
      destruct (try_add_column "Customers" _ _ _ db out)
        as [[[[]|e] dba] outa] eqn:E1; [|discriminate].
      rewrite try_add_column_no_table in E; [discriminate | reflexivity|].
      rewrite (try_add_column_tables _ _ _ _ _ _ _ _ _ E1). exact HD.
    + exfalso. unfold migrate_db in E.
      rewrite try_add_column_no_table in E;
        [discriminate | reflexivity | exact HC].
  - intros [HC HD]. now apply migrate_db_returns.
Qed.

(** X17. On a database without the Customers table [migrate_db] raises
    OperationalError, no such table: Customers, changes nothing and
    prints nothing; with Customers but without DoseLogs it raises
    no such table: DoseLogs after the is_active column was added, and
    the column stays. *)
Theorem migrate_db_missing_table (db : database) (out : list string) :
  has_table db "DoseLogs" = false ->
  (has_table db "Customers" = false
   /\ migrate_db db out
      = (Raise (OperationalError "no such table: Customers"), db, out))
  \/ (has_table db "Customers" = true
      /\ exists db1 out1,
          migrate_db db out
          = (Raise (OperationalError "no such table: DoseLogs"), db1, out1)
          /\ column_in db1 "Customers" "is_active" = true
          /\ Forall2 table_extends db db1).
Proof.
  intros HD. destruct (has_table db "Customers") eqn:HC.
  - right. split; [reflexivity|]. unfold migrate_db.
    destruct (try_add_column_total "Customers"
                (mkColumn "is_active" "INTEGER" (Int 1))
                "is_active 칼럼이 추가되었습니다."
                "is active 칼럼이 이미 존재합니다. 건너 뜁니다." db out HC)
      as (dba & outa & E1 & Ht).
    rewrite E1. exists dba, outa.
    rewrite try_add_column_no_table;
      [|reflexivity | now rewrite Ht].
    split; [reflexivity|]. split.
    + apply try_add_column_ok in E1 as [A _]; [exact A | reflexivity].
    + exact (try_add_column_extends _ _ _ _ _ _ _ _ _ E1).
  - left. split; [reflexivity|]. unfold migrate_db.
    now rewrite try_add_column_no_table.
Qed.

Lemma migrate_db_missing_table_witness :
  (has_table db_customers_only "Customers" = false
   /\ migrate_db db_customers_only []
      = (Raise (OperationalError "no such table: Customers"),
         db_customers_only, []))
  \/ (has_table db_customers_only "Customers" = true
      /\ exists db1 out1,
          migrate_db db_customers_only []
          = (Raise (OperationalError "no such table: DoseLogs"), db1, out1)
          /\ column_in db1 "Customers" "is_active" = true
          /\ Forall2 table_extends db_customers_only db1).
Proof.
  apply (migrate_db_missing_table db_customers_only []). reflexivity.
Defined.

End SetupFacts.

(** * The routes that edit customers *)

Module AdminFacts.
Import Datetime PyText Sqlite App Routes Admin Runs Frames Examples
  Examples2.
Import DatetimeFacts PyTextFacts SqliteFacts DueDate Registration
  NotifyMore DoseLogFacts IndexFacts.

(** ** [str.strip()] *)

(* the cases of [str_lstrip] and [all_space] on a text of length at most
   [S n]: a white space of one, two or three bytes in front, where the
   induction hypothesis [IH] applies to the rest, or none *)
Ltac by_space_cases IH :=
  let a := fresh "a" in
  let b := fresh "b" in
  let c := fresh "c" in
  let s1 := fresh "s1" in
  let s2 := fresh "s2" in
  let s3 := fresh "s3" in
  let Hlen := fresh "Hlen" in
  let E1 := fresh "E1" in
  let E2 := fresh "E2" in
  let E3 := fresh "E3" in
  intros [|a s1] Hlen; cbn [String.length] in Hlen;
  [|destruct (is_space a) eqn:E1;
    [|destruct s1 as [|b s2]; cbn [String.length] in Hlen;
      [|destruct (space2 a b) eqn:E2;
        [|destruct s2 as [|c s3]; cbn [String.length] in Hlen;
          [|destruct (space3 a b c) eqn:E3]]]]];
  cbn [str_lstrip all_space]; rewrite ?E1, ?E2, ?E3;
  try (apply IH; lia).

Lemma all_space_lstrip (s : string) :
  all_space (str_lstrip s) = all_space s.
Proof.
  assert (H : forall n s, (String.length s <= n)%nat ->
                all_space (str_lstrip s) = all_space s).
  { induction n as [|n IH].
    - intros [|a s1] Hlen; [reflexivity | cbn in Hlen; lia].
    - by_space_cases IH; cbn [all_space]; rewrite ?E1, ?E2, ?E3;
        reflexivity. }
  now apply (H (String.length s)).
Qed.

Lemma lstrip_empty (s : string) :
  str_lstrip s = "" <-> all_space s = true.
Proof.
  assert (H : forall n s, (String.length s <= n)%nat ->
                (str_lstrip s = "" <-> all_space s = true)).
  { induction n as [|n IH].
    - intros [|a s1] Hlen; [cbn; tauto | cbn in Hlen; lia].
    - by_space_cases IH; split; try reflexivity; discriminate. }
  now apply (H (String.length s)).
Qed.

Lemma rstrip_empty (s : string) :
  str_rstrip s = "" <-> s = "" \/ all_space s = true.
Proof.
  destruct s as [|a s1]; [cbn; tauto|].
  change (str_rstrip (String a s1))
    with (if all_space (String a s1) then EmptyString
          else String a (str_rstrip s1)).
  destruct (all_space (String a s1)).
  - split; auto.
  - split; [discriminate|]. intros [H|H]; discriminate.
Qed.

(** [strip] leaves nothing exactly of the texts made of white space. *)
Lemma strip_empty (s : string) : strip s = "" <-> all_space s = true.
Proof.
  unfold strip. rewrite rstrip_empty, all_space_lstrip, lstrip_empty. tauto.
Qed.

(** ** [str] of an int *)

Lemma string_app_assoc (a b c : string) :
  ((a ++ b) ++ c)%string = (a ++ b ++ c)%string.
Proof. induction a as [|x a IH]; cbn; [reflexivity | now rewrite IH]. Qed.

Lemma digits_val_app (a : Z) (s t : string) :
  digits_val a (s ++ t)%string = digits_val (digits_val a s) t.
Proof. revert a. induction s as [|c s IH]; intros a; cbn; auto. Qed.

Lemma digits_acc_spec (fuel : nat) (n : Z) (acc : string) :
  0 <= n < 10 ^ (Z.of_nat fuel + 1) ->
  exists c r,
    digits_acc fuel n acc = (String c r ++ acc)%string
    /\ is_digit c = true
    /\ digits_val 0 (String c r) = n.
Proof.
  revert n acc. induction fuel as [|f IH]; intros n acc Hn.
  - change (10 ^ (Z.of_nat 0 + 1)) with 10 in Hn.
    exists (digit_char n), EmptyString. cbn [digits_acc].
    rewrite Z.mod_small by lia. split; [reflexivity|].
    split; [apply is_digit_digit_char; lia|].
    cbn [digits_val]. rewrite digit_val_digit_char by lia. lia.
  - cbn [digits_acc]. destruct (Z.ltb_spec n 10) as [Hs|Hb].
    + exists (digit_char n), EmptyString.
      rewrite Z.mod_small by lia. split; [reflexivity|].
      split; [apply is_digit_digit_char; lia|].
      cbn [digits_val]. rewrite digit_val_digit_char by lia. lia.
    + assert (Hd : 0 <= n / 10 < 10 ^ (Z.of_nat f + 1)).
      { replace (Z.of_nat (S f) + 1) with (Z.succ (Z.of_nat f + 1)) in Hn
          by lia.
        rewrite Z.pow_succ_r in Hn by lia.
        split; [apply Z.div_pos; lia|].
        apply Z.div_lt_upper_bound; lia. }
      destruct (IH (n / 10) (String (digit_char (n mod 10)) acc) Hd)
        as (c & r & E & Hc & Hv).
      exists c, (r ++ String (digit_char (n mod 10)) EmptyString)%string.
      split; [|split; [exact Hc|]].
      * rewrite E. cbn [append]. f_equal.
        now rewrite string_app_assoc.
      * change (String c (r ++ String (digit_char (n mod 10)) ""))
          with (String c r ++ String (digit_char (n mod 10)) "")%string.
        rewrite digits_val_app, Hv. cbn [digits_val].
        pose proof (Z.mod_pos_bound n 10 ltac:(lia)).
        rewrite digit_val_digit_char by lia.
        pose proof (Z.div_mod n 10 ltac:(lia)). lia.
Qed.

Lemma str_of_nonneg_spec (n : Z) :
  0 <= n ->
  exists c r,
    str_of_nonneg n = String c r /\ is_digit c = true
    /\ digits_val 0 (String c r) = n.
Proof.
  intros Hn. unfold str_of_nonneg.
  assert (Hb : 0 <= n < 10 ^ (Z.of_nat (Z.to_nat (Z.log2 n)) + 1)).
  { split; [exact Hn|]. pose proof (Z.log2_nonneg n).
    rewrite Z2Nat.id by assumption.
    destruct (Z.eq_dec n 0) as [->|Hz]; [reflexivity|].
    pose proof (Z.log2_spec n ltac:(lia)) as [_ Hlt].
    apply Z.lt_le_trans with (1 := Hlt).
    replace (Z.log2 n + 1) with (Z.succ (Z.log2 n)) by lia.
    apply Z.pow_le_mono_l. lia. }
  destruct (digits_acc_spec _ n EmptyString Hb) as (c & r & E & Hc & Hv).
  exists c, r. rewrite E. cbn [append].
  rewrite append_empty. auto.
Qed.

(** [str] gives different ints different texts. *)
Lemma str_of_int_inj (a b : Z) : str_of_int a = str_of_int b -> a = b.
Proof.
  unfold str_of_int.
  destruct (Z.ltb_spec a 0) as [Ha|Ha], (Z.ltb_spec b 0) as [Hb|Hb].
  - intros [= E].
    destruct (str_of_nonneg_spec (- a) ltac:(lia)) as (c & r & E1 & _ & V1).
    destruct (str_of_nonneg_spec (- b) ltac:(lia)) as (c' & r' & E2 & _ & V2).
    rewrite <- E1 in V1. rewrite <- E2 in V2. rewrite E in V1. lia.
  - destruct (str_of_nonneg_spec b Hb) as (c & r & E & Hc & _).
    rewrite E. intros [= <- _]. discriminate.
  - destruct (str_of_nonneg_spec a Ha) as (c & r & E & Hc & _).
    rewrite E. intros [= -> _]. discriminate.
  - intros E.
    destruct (str_of_nonneg_spec a Ha) as (c & r & E1 & _ & V1).
    destruct (str_of_nonneg_spec b Hb) as (c' & r' & E2 & _ & V2).
    rewrite <- E1 in V1. rewrite <- E2 in V2. rewrite E in V1. lia.
Qed.

(** ** [edit_customer] *)

Lemma edit_customer_frame (method : http_method) (customer_id : Z)
  (f : form) (db : DB) :
  map c_id (Customers (snd (edit_customer method customer_id f db)))
  = map c_id (Customers db)
  /\ set_customers (Customers db)
       (snd (edit_customer method customer_id f db)) = db.
Proof.
  unfold edit_customer. destruct method;
    [cbn [snd]; split; [reflexivity | apply set_customers_same]|].
  destruct (strip (form_get_default f "name" ""));
    [cbn [snd]; split; [reflexivity | apply set_customers_same]|].
  cbn [snd]. unfold update_customer; cbn [Customers]. split.
  - rewrite map_map. apply map_ext. intros c.
    destruct (c_id c =? customer_id); reflexivity.
  - unfold set_customers; cbn. apply db_eta.
Qed.


(** X19. [edit_customer] does not look at the other customers: giving a
    customer the name that another customer has succeeds, and the store
    then holds two customers of that name. *)
Theorem edit_customer_allows_duplicate_names (c1 c2 : Customer) (f : form)
  (db : DB) :
  In c1 (Customers db) ->
  In c2 (Customers db) ->
  c_id c1 <> c_id c2 ->
  f "name" = Some (c_name c1) ->
  all_space (c_name c1) = false ->
  strip (c_name c1) = c_name c1 ->
  fst (edit_customer POST (c_id c2) f db)
  = redirect_to_view_customer (c_id c2)
  /\ In c1 (Customers (snd (edit_customer POST (c_id c2) f db)))
  /\ exists c2',
      In c2' (Customers (snd (edit_customer POST (c_id c2) f db)))
      /\ c_id c2' = c_id c2 /\ c_name c2' = c_name c1.
Proof.
  intros H1 H2 Hid Hf Hsp Hst. unfold edit_customer, form_get_default.
  rewrite Hf, Hst.
  destruct (c_name c1) as [|a rest] eqn:En;
    [apply strip_empty in Hst; congruence|].
  cbn [fst snd]. split; [reflexivity|].
  unfold update_customer; cbn [Customers]. split.
  - apply in_map_iff. exists c1. split; [|exact H1].
    destruct (Z.eqb_spec (c_id c1) (c_id c2)); [contradiction | reflexivity].
  - eexists. split.
    + apply in_map_iff. exists c2. split; [|exact H2].
      rewrite Z.eqb_refl. reflexivity.
    + split; reflexivity.
Qed.

Lemma edit_customer_allows_duplicate_names_witness :
  fst (edit_customer POST 2 form_rename_kim db_mixed_case)
  = redirect_to_view_customer 2
  /\ In (mkCustomer 1 "Lee" "011" "2024-02-08" 1)
       (Customers (snd (edit_customer POST 2 form_rename_kim db_mixed_case)))
  /\ exists c2',
      In c2' (Customers
                (snd (edit_customer POST 2 form_rename_kim db_mixed_case)))
      /\ c_id c2' = 2 /\ c_name c2' = "Lee".
Proof.
  apply (edit_customer_allows_duplicate_names
           (mkCustomer 1 "Lee" "011" "2024-02-08" 1)
           (mkCustomer 2 "kim" "010" "2024-02-01" 1)
           form_rename_kim db_mixed_case).
  - cbn. tauto.
  - cbn. tauto.
  - cbn. lia.
  - reflexivity.
  - reflexivity.
  - reflexivity.
Defined.

(** ** [manage_customers] *)

Lemma should_active_set (ticked : list string) (c : Customer) (v : Z) :
  should_active ticked
    (mkCustomer (c_id c) (c_name c) (c_contact c) (c_start_date c) v)
  = should_active ticked c.
Proof. reflexivity. Qed.

Lemma with_is_active_same (g : Customer -> Z) (db : DB) :
  (forall c, In c (Customers db) -> c_is_active c = g c) ->
  with_is_active g db = db.
Proof.
  intros H. unfold with_is_active. rewrite map_same; [apply db_eta|].
  intros c Hc. rewrite <- (H c Hc). now destruct c.
Qed.

Lemma collect_updates_sound (ticked : list string) (cs : list Customer)
  (v i : Z) :
  In (v, i)
    (collect_updates ticked (map (fun c => (c_id c, c_is_active c)) cs)) ->
  exists c, In c cs /\ c_id c = i /\ v = should_active ticked c.
Proof.
  induction cs as [|c cs IH]; cbn [map collect_updates]; [intros []|].
  fold (should_active ticked c).
  destruct (c_is_active c =? should_active ticked c); cbn [negb].
  - intros H. destruct (IH H) as (c' & Hc' & E). exists c'. split; auto.
    now right.
  - intros [[= <- <-]|H].
    + exists c. split; [now left | auto].
    + destruct (IH H) as (c' & Hc' & E). exists c'. split; auto. now right.
Qed.

Lemma collect_updates_complete (ticked : list string) (cs : list Customer)
  (c : Customer) :
  In c cs -> c_is_active c <> should_active ticked c ->
  In (should_active ticked c, c_id c)
    (collect_updates ticked (map (fun c => (c_id c, c_is_active c)) cs)).
Proof.
  induction cs as [|c0 cs IH]; cbn [map collect_updates]; [intros []|].
  fold (should_active ticked c0). intros [->|Hc] Hne.
  - destruct (Z.eqb_spec (c_is_active c) (should_active ticked c));
      [contradiction|]. now left.
  - destruct (c_is_active c0 =? should_active ticked c0); cbn [negb];
      [|right]; now apply IH.
Qed.

(** The UPDATEs of [executemany], each writing what the customer of its
    id should hold and between them reaching every row that does not hold
    it yet, leave every row holding it. *)
Lemma executemany_sets (ticked : list string) (updates : list (Z * Z))
  (db : DB) :
  (forall v i, In (v, i) updates ->
     forall c, c_id c = i -> v = should_active ticked c) ->
  (forall c, In c (Customers db) ->
     c_is_active c <> should_active ticked c ->
     exists v, In (v, c_id c) updates) ->
  executemany_is_active updates db
  = with_is_active (should_active ticked) db.
Proof.
  unfold executemany_is_active. revert db.
  induction updates as [|[v i] us IH]; intros db Hv Hall; cbn [fold_left].
  - symmetry. apply with_is_active_same. intros c Hc.
    destruct (Z.eq_dec (c_is_active c) (should_active ticked c)) as [E|E];
      [exact E|].
    destruct (Hall c Hc E) as [v []].
  - rewrite IH.
    + unfold with_is_active, update_is_active; cbn [Customers Customers_seq
        DoseLogs DoseLogs_seq NotificationLogs NotificationLogs_seq].
      f_equal. rewrite map_map. apply map_ext. intros c.
      destruct (c_id c =? i); reflexivity.
    + intros v' i' H. apply Hv. now right.
    + intros c1 Hc1 Hne. unfold update_is_active in Hc1; cbn [Customers] in Hc1.
      apply in_map_iff in Hc1 as (c & <- & Hc).
      destruct (Z.eqb_spec (c_id c) i) as [Hi|Hi].
      * exfalso. apply Hne. cbn [c_is_active].
        rewrite should_active_set. apply (Hv v i); [now left | exact Hi].
      * destruct (Hall c Hc Hne) as [v' [[= _ E]|Hin]];
          [congruence | now exists v'].
Qed.

Lemma manage_customers_post (ticked : list string) (db : DB) :
  manage_customers POST ticked db
  = (redirect_to_manage_customers,
     with_is_active (should_active ticked) db).
Proof.
  unfold manage_customers. f_equal.
  set (us := collect_updates ticked
               (map (fun c => (c_id c, c_is_active c)) (Customers db))).
  assert (E : executemany_is_active us db
              = with_is_active (should_active ticked) db).
  { apply executemany_sets.
    - intros v i H c Hc. apply collect_updates_sound in H
        as (c' & _ & Hi & ->).
      unfold should_active. now rewrite Hi, Hc.
    - intros c Hc Hne. eexists. now apply collect_updates_complete. }
  destruct us as [|u us']; [|exact E].
  rewrite <- E. reflexivity.
Qed.

(** X20. After a POST to [manage_customers] a customer is active exactly
    when the text of its id is among the ticked values, whatever the flags
    were before: is_active is 1 for those and 0 for the others.  Names,
    contacts, start dates, the order of the rows and the other tables are
    as before, and the same POST once more changes nothing. *)
Theorem manage_customers_sets_is_active (ticked : list string) (db : DB) :
  let db' := snd (manage_customers POST ticked db) in
  fst (manage_customers POST ticked db) = redirect_to_manage_customers
  /\ map customer_row (Customers db') = map customer_row (Customers db)
  /\ set_customers (Customers db) db' = db
  /\ (forall c, In c (Customers db') ->
        (In (str_of_int (c_id c)) ticked -> c_is_active c = 1)
        /\ (~ In (str_of_int (c_id c)) ticked -> c_is_active c = 0))
  /\ snd (manage_customers POST ticked db') = db'.
Proof.
  cbv zeta. rewrite !manage_customers_post. cbn [fst snd].
  split; [reflexivity|]. split; [|split; [|split]].
  - unfold with_is_active; cbn [Customers]. rewrite map_map. reflexivity.
  - unfold set_customers, with_is_active; cbn. apply db_eta.
  - intros c Hc. unfold with_is_active in Hc; cbn [Customers] in Hc.
    apply in_map_iff in Hc as (c0 & <- & _).
    cbn [c_id c_is_active]. unfold should_active, in_set.
    destruct (existsb (String.eqb (str_of_int (c_id c0))) ticked) eqn:E.
    + split; [reflexivity|]. intros Hn. exfalso. apply Hn.
      apply existsb_exists in E as (x & Hx & Ex).
      apply String.eqb_eq in Ex. now subst.
    + split; [|reflexivity]. intros Hin. exfalso.
      assert (existsb (String.eqb (str_of_int (c_id c0))) ticked = true);
        [|congruence].
      apply existsb_exists. exists (str_of_int (c_id c0)).
      split; [exact Hin | apply String.eqb_refl].
  - apply with_is_active_same. intros c Hc.
    unfold with_is_active in Hc; cbn [Customers] in Hc.
    apply in_map_iff in Hc as (c0 & <- & _). reflexivity.
Qed.

(** X21. When the ticked values are the texts of the ids in [ids], as the
    check boxes of the page send them, the POST leaves active exactly the
    customers whose id is in [ids]. *)
Theorem manage_customers_activates_ids (ids : list Z) (db : DB) (c : Customer) :
  In c (Customers (snd (manage_customers POST (map str_of_int ids) db))) ->
  (In (c_id c) ids -> c_is_active c = 1)
  /\ (~ In (c_id c) ids -> c_is_active c = 0).
Proof.
  rewrite manage_customers_post. cbn [snd]. intros Hc.
  unfold with_is_active in Hc; cbn [Customers] in Hc.
  apply in_map_iff in Hc as (c0 & <- & _).
  cbn [c_id c_is_active]. unfold should_active, in_set.
  destruct (existsb (String.eqb (str_of_int (c_id c0)))
              (map str_of_int ids)) eqn:E.
  - split; [reflexivity|]. intros Hn. exfalso. apply Hn.
    apply existsb_exists in E as (x & Hx & Ex).
    apply String.eqb_eq in Ex. apply in_map_iff in Hx as (i & <- & Hi).
    apply str_of_int_inj in Ex. now subst.
  - split; [|reflexivity]. intros Hin. exfalso.
    assert (existsb (String.eqb (str_of_int (c_id c0)))
              (map str_of_int ids) = true); [|congruence].
    apply existsb_exists. exists (str_of_int (c_id c0)).
    split; [now apply in_map | apply String.eqb_refl].
Qed.

Lemma manage_customers_activates_ids_witness :
  (In (c_id (mkCustomer 3 "park" "012" "" 1)) [3] ->
   c_is_active (mkCustomer 3 "park" "012" "" 1) = 1)
  /\ (~ In (c_id (mkCustomer 3 "park" "012" "" 1)) [3] ->
      c_is_active (mkCustomer 3 "park" "012" "" 1) = 0).
Proof.
  apply (manage_customers_activates_ids [3] db_mixed_case
           (mkCustomer 3 "park" "012" "" 1)).
  vm_compute. tauto.
Defined.

Lemma in_set_str_of_int (i : Z) (ids : list Z) :
  in_set (str_of_int i) (map str_of_int ids) = existsb (Z.eqb i) ids.
Proof.
  unfold in_set. induction ids as [|j ids IH]; cbn [map existsb];
    [reflexivity|].
  rewrite IH. f_equal.
  destruct (Z.eqb_spec i j) as [->|Hne]; [apply String.eqb_refl|].
  apply String.eqb_neq. intros E. now apply str_of_int_inj in E.
Qed.

Lemma index_entries_perm (today : date) (db : DB)
  (customer_list : list index_entry) :
  index today db = Ok (render_index customer_list) ->
  Permutation (map entry_row customer_list)
    (map customer_row
       (filter (fun c => c_is_active c =? 1) (Customers db))).
Proof.
  unfold index.
  destruct (index_rows db today _) as [es|e] eqn:E; cbn [rbind];
    [|discriminate].
  intros [= <-]. apply index_rows_Forall2 in E.
  assert (Hm : map entry_row es
               = map customer_row
                   (order_by_nocase_asc c_name
                      (filter (fun c => c_is_active c =? 1)
                         (Customers db)))).
  { induction E as [|c e cs es [He _] _ IH]; cbn [map]; [reflexivity|].
    now rewrite He, IH. }
  rewrite Hm. apply Permutation_map, order_by_nocase_asc_perm.
Qed.

(** X22. The home page after a POST to [manage_customers] that ticked
    the ids in [ids]: when it is rendered, it lists exactly the customers
    whose id is in [ids], whether they were active before or not. *)
Theorem index_after_manage_customers (today : date) (ids : list Z) (db : DB)
  (customer_list : list index_entry) :
  index today (snd (manage_customers POST (map str_of_int ids) db))
  = Ok (render_index customer_list) ->
  Permutation (map entry_row customer_list)
    (map customer_row
       (filter (fun c => existsb (Z.eqb (c_id c)) ids) (Customers db))).
Proof.
  intros H. apply index_entries_perm in H.
  rewrite manage_customers_post in H. cbn [snd] in H.
  rewrite H. unfold with_is_active; cbn [Customers].
  induction (Customers db) as [|c cs IH]; cbn [map filter]; [reflexivity|].
  cbn [c_is_active]. unfold should_active at 1.
  rewrite in_set_str_of_int.
  destruct (existsb (Z.eqb (c_id c)) ids); cbn [Z.eqb map];
    [apply perm_skip|]; exact IH.
Qed.

Lemma index_after_manage_customers_witness :
  Permutation
    (map entry_row [mkEntry 2 "kim" "010" "2024-02-01" 7])
    (map customer_row
       (filter (fun c => existsb (Z.eqb (c_id c)) [2])
          (Customers db_mixed_case))).
Proof.
  apply (index_after_manage_customers (mkdate 2024 2 22) [2] db_mixed_case
           [mkEntry 2 "kim" "010" "2024-02-01" 7]).
  vm_compute. reflexivity.
Defined.

End AdminFacts.

(** * More about the registration *)

Module RegistrationMore.
Import Datetime PyText Sqlite App Routes Admin Runs Frames Examples
  Examples2.
Import DatetimeFacts PyTextFacts SqliteFacts DueDate Notify Registration
  DoseLogFacts.

(** What [add_customer] makes of a request with a new name and an
    interval that fits. *)
Lemma add_customer_new (f : form) (db : DB) (h : list send_record)
  (name contact start_date : string) (w : Z) :
  f "name" = Some name -> f "contact" = Some contact ->
  f "start_date" = Some start_date ->
  form_int_default f "first_weeks" 4 = Ok w ->
  - 2 ^ 63 <= w < 2 ^ 63 ->
  (forall c, In c (Customers db) -> c_name c <> name) ->
  add_customer f db h
  = (Ok redirect_index,
     insert_dose_log (snd (insert_customer name contact start_date db))
       start_date w "첫 복용"
       (fst (insert_customer name contact start_date db)),
     h).
Proof.
  intros Hn Hc Hs Hw Hr Hnew. unfold add_customer, form_item.
  rewrite Hn, Hc, Hs, Hw. cbn [rbind].
  unfold with_connection, add_customer_body, bind, read, lift, write, commit,
    ret.
  cbn [working committed history].
  rewrite (proj2 (existing_customer name (Customers db)) Hnew).
  unfold insert_customer. cbn [working committed history].
  rewrite bind_int_ok by assumption. reflexivity.
Qed.

(** The Customers table after any request to [add_customer]. *)
Lemma add_customer_customers (f : form) (db : DB) (h : list send_record) :
  Customers (snd (fst (add_customer f db h))) = Customers db
  \/ exists name contact start_date,
      (forall c, In c (Customers db) -> c_name c <> name)
      /\ Customers (snd (fst (add_customer f db h)))
         = Customers db
           ++ [mkCustomer
                 (next_rowid (map c_id (Customers db)) (Customers_seq db))
                 name contact start_date 1].
Proof.
  unfold add_customer, form_item.
  destruct (f "name") as [name|]; cbn [rbind]; [|now left].
  destruct (f "contact") as [contact|]; cbn [rbind]; [|now left].
  destruct (f "start_date") as [start_date|]; cbn [rbind]; [|now left].
  destruct (form_int_default f "first_weeks" 4) as [weeks|e0]; cbn [rbind];
    [|now left].
  unfold with_connection, add_customer_body, bind, read, lift, write, commit,
    ret.
  cbn [working committed history].
  destruct (fetchone
              (map c_id
                 (filter (fun c => String.eqb (c_name c) name) (Customers db))))
    as [x|] eqn:Ex; [now left|].
  pose proof (proj1 (existing_customer name (Customers db)) Ex) as Hnew.
  unfold insert_customer. cbn [working committed history].
  destruct (bind_int weeks) as [w|e1]; cbn [working committed history fst snd];
    [|now left].
  right. exists name, contact, start_date. split; [exact Hnew|]. reflexivity.
Qed.

(** X23. [add_customer] keeps the names of the customers different from
    each other and their ids different from each other: a store in which
    they are, as the empty store is, stays so under any registration
    request. *)
Theorem add_customer_keeps_customers_distinct (f : form) (db : DB)
  (h : list send_record) :
  NoDup (map c_name (Customers db)) ->
  NoDup (map c_id (Customers db)) ->
  NoDup (map c_name (Customers (snd (fst (add_customer f db h)))))
  /\ NoDup (map c_id (Customers (snd (fst (add_customer f db h))))).
Proof.
  intros Hn Hi.
  destruct (add_customer_customers f db h)
    as [->|(name & contact & start_date & Hnew & ->)]; [now split|].
  rewrite !map_app. cbn [map c_name c_id]. split.
  - apply NoDup_snoc; [exact Hn|]. intros Hin.
    apply in_map_iff in Hin as (c & Hc & Hin). exact (Hnew c Hin Hc).
  - apply NoDup_snoc; [exact Hi|]. intros Hin.
    pose proof (next_rowid_fresh _ (Customers_seq db) _ Hin). lia.
Qed.

Lemma add_customer_keeps_customers_distinct_witness :
  NoDup (map c_name
           (Customers (snd (fst (add_customer form_lee db_no_logs [])))))
  /\ NoDup (map c_id
              (Customers (snd (fst (add_customer form_lee db_no_logs []))))).
Proof.
  apply (add_customer_keeps_customers_distinct form_lee db_no_logs []).
  - repeat constructor. intros [].
  - repeat constructor. intros [].
Defined.

(** X24. A registration seeds the schedule: when every dose log on record
    belongs to a customer on record, then after [add_customer] stored a
    customer with a new name, the due date that [check_and_notify]
    computes for the new customer is the start date plus the posted
    first_weeks in weeks, 4 weeks when first_weeks is 0 or left out. *)
Theorem add_customer_seeds_schedule (f : form) (db : DB)
  (h : list send_record) (name contact start_text : string) (start : date)
  (w : Z) (today : date) :
  f "name" = Some name ->
  f "contact" = Some contact ->
  f "start_date" = Some start_text ->
  strptime start_text = Ok start ->
  valid_date today = true ->
  form_int_default f "first_weeks" 4 = Ok w ->
  - 2 ^ 63 <= w < 2 ^ 63 ->
  (forall c, In c (Customers db) -> c_name c <> name) ->
  (forall l, In l (DoseLogs db) ->
     exists c, In c (Customers db) /\ c_id c = l_customer_id l) ->
  1 <= toordinal start + 7 * (if w =? 0 then 4 else w) <= MAXORDINAL ->
  exists db' c next_date,
    add_customer f db h = (Ok redirect_index, db', h)
    /\ Customers db' = Customers db ++ [c]
    /\ c_name c = name /\ c_start_date c = start_text
    /\ notify_due (last_dose_log db' (c_id c)) (c_start_date c) today
       = Ok (next_date, toordinal next_date - toordinal today)
    /\ toordinal next_date
       = toordinal start + 7 * (if w =? 0 then 4 else w).
Proof.
  intros Hn Hc Hs Hp Vt Hw Hr Hnew Href Hrange.
  pose proof (strptime_valid _ _ Hp) as Vs.
  destruct (plus_weeks_ok start today (if w =? 0 then 4 else w) Vs Vt Hrange)
    as (next_date & Hrun & _ & Ho).
  set (cid := next_rowid (map c_id (Customers db)) (Customers_seq db)).
  set (db' := insert_dose_log cid start_text w "첫 복용"
                (fst (insert_customer name contact start_text db))).
  exists db', (mkCustomer cid name contact start_text 1), next_date.
  split; [now apply add_customer_new|].
  split; [reflexivity|]. split; [reflexivity|]. split; [reflexivity|].
  split; [|exact Ho]. cbn [c_id c_start_date].
  assert (Hlogs : DoseLogs db'
                  = DoseLogs db
                    ++ [mkDoseLog
                          (next_rowid (map l_id (DoseLogs db))
                             (DoseLogs_seq db))
                          cid start_text (Some w) "첫 복용" 0])
    by reflexivity.
  assert (Hold : forall l, In l (DoseLogs db) -> l_customer_id l <> cid).
  { intros l Hl E. destruct (Href l Hl) as (c & Hin & Hid).
    pose proof (next_rowid_fresh (map c_id (Customers db))
                  (Customers_seq db) (c_id c) (in_map c_id _ _ Hin)).
    fold cid in H. lia. }
  assert (E : last_dose_log db' cid = Some (start_text, Some w)).
  { destruct (last_dose_log db' cid) as [[td tw]|] eqn:E.
    - apply last_dose_log_some in E as (l & Hl & Hcid & <- & <- & _).
      rewrite Hlogs in Hl. apply in_app_or in Hl as [Hl|[<-|[]]];
        [now destruct (Hold l Hl) | reflexivity].
    - exfalso. rewrite last_dose_log_none in E.
      apply (E (mkDoseLog
                  (next_rowid (map l_id (DoseLogs db)) (DoseLogs_seq db))
                  cid start_text (Some w) "첫 복용" 0)); [|reflexivity].
      rewrite Hlogs. apply in_or_app. right. now left. }
  rewrite E. unfold notify_due. rewrite Hp. cbn [rbind week_or_default].
  exact Hrun.
Qed.

Lemma add_customer_seeds_schedule_witness :
  exists db' c next_date,
    add_customer form_lee db_one_log [] = (Ok redirect_index, db', [])
    /\ Customers db' = Customers db_one_log ++ [c]
    /\ c_name c = "lee" /\ c_start_date c = "2024-03-01"
    /\ notify_due (last_dose_log db' (c_id c)) (c_start_date c)
         (mkdate 2024 3 1)
       = Ok (next_date, toordinal next_date - toordinal (mkdate 2024 3 1))
    /\ toordinal next_date
       = toordinal (mkdate 2024 3 1) + 7 * (if 6 =? 0 then 4 else 6).
Proof.
  apply (add_customer_seeds_schedule form_lee db_one_log [] "lee"
           "lee@example.org" "2024-03-01" (mkdate 2024 3 1) 6
           (mkdate 2024 3 1)).
  - reflexivity.
  - reflexivity.
  - reflexivity.
  - reflexivity.
  - reflexivity.
  - reflexivity.
  - lia.
  - intros c [<-|[]]. discriminate.
  - intros l [<-|[]]. eexists. split; [now left | reflexivity].
  - vm_compute. split; discriminate.
Defined.

End RegistrationMore.

(** * What reaches the job from outside *)

Module JobInputs.
Import Datetime PyText Sqlite App Routes Admin Runs Frames Examples
  Examples2.
Import DatetimeFacts PyTextFacts SqliteFacts DueDate Notify Registration
  Rerun NotifyMore DoseLogFacts IndexFacts.

(** ** The recipient *)

Lemma bind_ext {A B} (m1 m2 : M A) (k1 k2 : A -> M B) (s : state) :
  m1 s = m2 s -> (forall a s', k1 a s' = k2 a s') ->
  bind m1 k1 s = bind m2 k2 s.
Proof.
  intros Hm Hk. unfold bind. rewrite Hm.
  destruct (m2 s) as [[a|e] s']; [apply Hk | reflexivity].
Qed.

Lemma for_each_ext {A} (b1 b2 : A -> M unit) (l : list A) :
  (forall x s, b1 x s = b2 x s) ->
  forall s, for_each l b1 s = for_each l b2 s.
Proof.
  intros Hb. induction l as [|x l IH]; intros s; cbn [for_each];
    [reflexivity|].
  apply bind_ext; [apply Hb | intros _ s'; apply IH].
Qed.

Section Recipient.
Variable env : environ.
Variables smtp1 smtp2 : transport.
Hypothesis same_to_recipient :
  forall calls req,
    to_email req
    = environ_get_default env "NOTIFY_EMAIL" "ljwljw2869@gmail.com" ->
    smtp_user req = str_value (environ_get env "EMAIL_USER") ->
    smtp_pass req = str_value (environ_get env "EMAIL_PASS") ->
    smtp1 calls req = smtp2 calls req.

Lemma send_email_smtp_recipient (calls : nat) (subject body : string) :
  send_email_smtp env smtp1 calls
    (environ_get_default env "NOTIFY_EMAIL" "ljwljw2869@gmail.com")
    subject body
  = send_email_smtp env smtp2 calls
      (environ_get_default env "NOTIFY_EMAIL" "ljwljw2869@gmail.com")
      subject body.
Proof.
  unfold send_email_smtp.
  destruct (match environ_get env "EMAIL_PORT" with
            | Some p => int_of_str p
            | None => Ok 465
            end) as [port|e]; cbn [rbind]; [|reflexivity].
  destruct (negb (truthy (environ_get env "EMAIL_USER"))
            || negb (truthy (environ_get env "EMAIL_PASS")));
    [reflexivity|].
  destruct (negb (truthy (Some (environ_get_default env "NOTIFY_EMAIL"
                                  "ljwljw2869@gmail.com"))));
    [reflexivity|].
  f_equal. apply same_to_recipient; reflexivity.
Qed.

Lemma notify_customer_recipient (clk : clock)
  (cust : Z * string * string * string) (s : state) :
  notify_customer env smtp1 clk cust s = notify_customer env smtp2 clk cust s.
Proof.
  destruct cust as [[[cid name] contact] start_date]. unfold notify_customer.
  apply bind_ext; [reflexivity|]. intros last s1.
  apply bind_ext; [reflexivity|]. intros [next_date d_day] s2.
  unfold notify_milestones. apply for_each_ext. intros nd s3.
  destruct (d_day =? nd); [|reflexivity].
  unfold notify_milestone. apply bind_ext; [reflexivity|]. intros [v|] s4;
    [reflexivity|].
  unfold send_and_record.
  apply bind_ext; [reflexivity|]. intros calls s5.
  apply bind_ext; [|reflexivity].
  unfold lift. now rewrite send_email_smtp_recipient.
Qed.
End Recipient.

(** X25. The job mails nobody but the recipient in NOTIFY_EMAIL (the
    built-in address when it is not set), and logs in with EMAIL_USER and
    EMAIL_PASS only: two SMTP servers that treat such mails alike give
    the same run, whatever they do with mail for other addresses, among
    them the contacts of the customers. *)
Theorem check_and_notify_mails_recipient_only (env : environ)
  (smtp1 smtp2 : transport) (clk : clock) (db : DB) (h : list send_record) :
  (forall calls req,
     to_email req
     = environ_get_default env "NOTIFY_EMAIL" "ljwljw2869@gmail.com" ->
     smtp_user req = str_value (environ_get env "EMAIL_USER") ->
     smtp_pass req = str_value (environ_get env "EMAIL_PASS") ->
     smtp1 calls req = smtp2 calls req) ->
  check_and_notify env smtp1 clk db h = check_and_notify env smtp2 clk db h.
Proof.
  intros H. unfold check_and_notify, with_connection.
  rewrite !check_and_notify_body_run.
  rewrite (for_each_ext _ _ _
             (notify_customer_recipient env smtp1 smtp2 H clk)).
  reflexivity.
Qed.

Lemma check_and_notify_mails_recipient_only_witness :
  check_and_notify env_ready smtp_accepts clock_jan29 db_no_logs []
  = check_and_notify env_ready smtp_default_recipient clock_jan29
      db_no_logs [].
Proof.
  apply (check_and_notify_mails_recipient_only env_ready smtp_accepts
           smtp_default_recipient clock_jan29 db_no_logs []).
  intros calls req Hto _ _. unfold smtp_accepts, smtp_default_recipient.
  rewrite Hto. reflexivity.
Defined.

(** ** Dates that were not checked *)






End JobInputs.

(** * The program as a whole *)

Module ProgramFacts.
Import Datetime PyText Sqlite App Routes Admin Runs Frames Program Examples
  Examples2.
Import DatetimeFacts PyTextFacts SqliteFacts DueDate Notify Registration
  RoutesFacts NotifyMore DoseLogFacts AdminFacts.

Lemma next_rowid_above (ids : list Z) (seq : Z) :
  seq < next_rowid ids seq /\ forall i, In i ids -> i < next_rowid ids seq.
Proof.
  unfold next_rowid. destruct (fold_max_ge ids seq) as [H1 H2].
  split; [lia|]. intros i Hi. specialize (H2 i Hi). lia.
Qed.

Lemma NoDup_map_filter {A B} (g : A -> B) (p : A -> bool) (l : list A) :
  NoDup (map g l) -> NoDup (map g (filter p l)).
Proof.
  induction l as [|x l IH]; cbn [map filter]; [auto|].
  intros N. inversion N as [|? ? Hx Nl]; subst.
  destruct (p x); cbn [map]; [|now apply IH].
  constructor; [|now apply IH].
  intros Hin. apply Hx. apply in_map_iff in Hin as (y & Hy & Hin).
  apply filter_In in Hin as [Hin _]. apply in_map_iff. now exists y.
Qed.

Lemma notify_inv_ext (db db' : DB) (h : list send_record) :
  NotificationLogs db' = NotificationLogs db ->
  notify_inv db h -> notify_inv db' h.
Proof. unfold notify_inv, log_keys. now intros ->. Qed.

(** The store after any request to [add_customer]. *)
Lemma add_customer_store (f : form) (db : DB) (h : list send_record) :
  snd (add_customer f db h) = h
  /\ (snd (fst (add_customer f db h)) = db
      \/ exists name contact start_date w,
          snd (fst (add_customer f db h))
          = insert_dose_log
              (snd (insert_customer name contact start_date db))
              start_date w "첫 복용"
              (fst (insert_customer name contact start_date db))).
Proof.
  unfold add_customer, form_item.
  destruct (f "name") as [name|]; cbn [rbind]; [|now split; [|left]].
  destruct (f "contact") as [contact|]; cbn [rbind]; [|now split; [|left]].
  destruct (f "start_date") as [start_date|]; cbn [rbind];
    [|now split; [|left]].
  destruct (form_int_default f "first_weeks" 4) as [weeks|e0]; cbn [rbind];
    [|now split; [|left]].
  unfold with_connection, add_customer_body, bind, read, lift, write, commit,
    ret.
  cbn [working committed history].
  destruct (fetchone
              (map c_id
                 (filter (fun c => String.eqb (c_name c) name) (Customers db))))
    as [x|]; [now split; [|left]|].
  unfold insert_customer. cbn [working committed history].
  destruct (bind_int weeks) as [w|e1]; cbn [working committed history fst snd];
    [|now split; [|left]].
  split; [reflexivity|]. right. exists name, contact, start_date, w.
  reflexivity.
Qed.

Lemma insert_dose_log_inv (cid : Z) (td : string) (w : Z) (note : string)
  (db : DB) (h : list send_record) :
  store_inv db h -> store_inv (insert_dose_log cid td w note db) h.
Proof.
  intros (C1 & C2 & L1 & L2 & N).
  destruct (next_rowid_above (map l_id (DoseLogs db)) (DoseLogs_seq db))
    as [Hs Hi].
  unfold store_inv, insert_dose_log;
    cbn [Customers Customers_seq DoseLogs DoseLogs_seq].
  split; [exact C1|]. split; [exact C2|]. split; [|split].
  - rewrite map_app. cbn [map l_id]. apply NoDup_snoc; [exact L1|].
    intros Hin. specialize (Hi _ Hin). lia.
  - intros l Hl. apply in_app_or in Hl as [Hl|[<-|[]]]; cbn [l_id]; [|lia].
    specialize (Hi _ (in_map l_id _ _ Hl)). lia.
  - revert N. now apply notify_inv_ext.
Qed.

Lemma insert_customer_inv (name contact start_date : string) (db : DB)
  (h : list send_record) :
  store_inv db h ->
  store_inv (fst (insert_customer name contact start_date db)) h.
Proof.
  intros (C1 & C2 & L1 & L2 & N).
  destruct (next_rowid_above (map c_id (Customers db)) (Customers_seq db))
    as [Hs Hi].
  unfold store_inv, insert_customer;
    cbn [fst Customers Customers_seq DoseLogs DoseLogs_seq].
  split; [|split; [|split; [exact L1 | split; [exact L2|]]]].
  - rewrite map_app. cbn [map c_id]. apply NoDup_snoc; [exact C1|].
    intros Hin. specialize (Hi _ Hin). lia.
  - intros c Hc. apply in_app_or in Hc as [Hc|[<-|[]]]; cbn [c_id]; [|lia].
    specialize (Hi _ (in_map c_id _ _ Hc)). lia.
  - revert N. now apply notify_inv_ext.
Qed.

Lemma handle_inv (r : request) (db : DB) (h : list send_record) :
  store_inv db h ->
  store_inv (fst (handle r (db, h))) (snd (handle r (db, h))).
Proof.
  intros I. destruct r; cbn [handle fst snd]; try exact I.
  - (* add_customer *)
    destruct (add_customer_store f db h)
      as [-> [->|(name & contact & sd & w & ->)]]; [exact I|].
    now apply insert_dose_log_inv, insert_customer_inv.
  - (* add_dose_log *)
    unfold add_dose_log.
    destruct (let? taken_date := form_item f "taken_date" in _)
      as [[[taken_date weeks] note]|e]; cbn [snd]; [|exact I].
    now apply insert_dose_log_inv.
  - (* edit_customer *)
    destruct I as (C1 & C2 & L1 & L2 & N).
    pose proof (edit_customer_frame method customer_id f db)
      as (Hid & Hrest).
    set (db' := snd (edit_customer method customer_id f db)) in *.
    clearbody db'.
    assert (E : db' = set_customers (Customers db') db)
      by (rewrite <- Hrest; destruct db'; reflexivity).
    rewrite E. unfold store_inv, set_customers;
      cbn [Customers Customers_seq DoseLogs DoseLogs_seq].
    split; [now rewrite Hid|]. split; [|split; [exact L1 | split; [exact L2|]]].
    + intros c Hc. apply (in_map c_id) in Hc. rewrite Hid in Hc.
      apply in_map_iff in Hc as (c0 & <- & Hc0). now apply C2.
    + revert N. now apply notify_inv_ext.
  - (* manage_customers *)
    destruct I as (C1 & C2 & L1 & L2 & N).
    destruct method;
      [cbn [manage_customers snd]; unfold store_inv; auto 6|].
    rewrite manage_customers_post. cbn [snd].
    unfold store_inv, with_is_active;
      cbn [Customers Customers_seq DoseLogs DoseLogs_seq].
    split; [now rewrite map_map|].
    split; [|split; [exact L1 | split; [exact L2|]]].
    + intros c Hc. apply in_map_iff in Hc as (c0 & <- & Hc0).
      cbn [c_id]. now apply C2.
    + revert N. now apply notify_inv_ext.
  - (* edit_dose_log *)
    destruct I as (C1 & C2 & L1 & L2 & N). unfold edit_dose_log.
    destruct (let? taken_date := form_item f "taken_date" in _)
      as [[[[taken_date weeks] extra] note]|e]; cbn [snd];
      [|unfold store_inv; auto 6].
    unfold store_inv, update_dose_log;
      cbn [Customers Customers_seq DoseLogs DoseLogs_seq].
    assert (Hid : map l_id
                    (map (fun l =>
                            if l_id l =? log_id
                            then mkDoseLog (l_id l) (l_customer_id l)
                                   taken_date (Some weeks) note extra
                            else l) (DoseLogs db))
                  = map l_id (DoseLogs db)).
    { rewrite map_map. apply map_ext. intros l.
      destruct (l_id l =? log_id); reflexivity. }
    split; [exact C1|]. split; [exact C2|]. split; [now rewrite Hid|].
    split; [|revert N; now apply notify_inv_ext].
    intros l Hl. apply (in_map l_id) in Hl. rewrite Hid in Hl.
    apply in_map_iff in Hl as (l0 & <- & Hl0). now apply L2.
  - (* delete_dose_log *)
    destruct I as (C1 & C2 & L1 & L2 & N).
    unfold store_inv, delete_dose_log;
      cbn [snd Customers Customers_seq DoseLogs DoseLogs_seq].
    split; [exact C1|]. split; [exact C2|].
    split; [now apply NoDup_map_filter|].
    split; [|revert N; now apply notify_inv_ext].
    intros l Hl. apply filter_In in Hl as [Hl _]. now apply L2.
  - (* check_and_notify *)
    destruct I as (C1 & C2 & L1 & L2 & N).
    destruct (check_and_notify env smtp clk db h) as [[r db'] h'] eqn:Hrun.
    cbn [fst snd]. apply check_and_notify_state in Hrun.
    destruct Hrun as (HC & HCs & HD & HDs & _ & Hinv & _).
    cbn [working history] in *.
    unfold store_inv. rewrite HC, HCs, HD, HDs. auto 6.
Qed.

(** X27. Whatever requests and runs of the job follow one another, the
    store stays in order: the ids of the customers differ from each
    other, so do the ids of the dose logs, no id exceeds the counter of
    its table (a deleted id is not given out again), no notification is
    recorded twice, none was sent twice, and every notification that was
    sent is recorded. *)
Theorem serve_keeps_store_in_order (requests : list request) (db : DB)
  (h : list send_record) :
  store_inv db h ->
  store_inv (fst (serve requests (db, h))) (snd (serve requests (db, h))).
Proof.
  unfold serve. revert db h.
  induction requests as [|r rs IH]; intros db h I; cbn [fold_left];
    [exact I|].
  pose proof (handle_inv r db h I) as I'.
  destruct (handle r (db, h)) as [db1 h1]. now apply IH.
Qed.

Lemma serve_keeps_store_in_order_witness :
  store_inv (fst (serve requests_morning (db_empty, [])))
    (snd (serve requests_morning (db_empty, []))).
Proof.
  apply (serve_keeps_store_in_order requests_morning db_empty []).
  unfold store_inv, notify_inv. cbn.
  repeat split; try constructor; intros ? [].
Defined.

End ProgramFacts.
